(** * gh2pdf: a repository rendered as a PDF for code reading

    A shallow embedding of [gh2pdf.py] and the properties of its file
    selection, markup rendering, heading emission and clean-up.

    Conventions of the embedding.
    - Python [str] is [string] (a list of bytes, UTF-8 encoded: bytewise
      order on UTF-8 is code point order, so [sorted] agrees). [lower] and
      [strip] are those of Python on strings of ASCII characters; on other
      characters Python asks the Unicode tables, which are not part of the
      embedding, and every statement that reads what [lower] or [strip]
      returns is made for ASCII strings.
    - A [pathlib.Path] below the repository root is the list of its parts
      relative to the root; [path.relative_to(repo_root)] is then the
      identity on these lists.
    - A [set[str]] is a [gset string].
    - The file system is a finite tree; what the operating system, git,
      pygments and reportlab answer is an explicit argument. *)

From Stdlib Require Import ZArith String Ascii List Lia DecimalString DecimalFacts DecimalNat.
From stdpp Require Import base list strings gmap.
Import ListNotations.

Set Warnings "-register-all".

(** ** Python library functions used by the program *)

Module Py.

(** [s.split(sep)] for a one-character separator: never empty, one more
    element than there are separators. *)
Fixpoint split (sep : ascii) (s : string) : list string :=
  match s with
  | EmptyString => [EmptyString]
  | String c s' =>
      if bool_decide (c = sep) then EmptyString :: split sep s'
      else match split sep s' with
           | [] => [String c EmptyString]
           | l :: ls => String c l :: ls
           end
  end.

(** [sep.join(l)]. *)
Definition join (sep : string) (l : list string) : string := String.concat sep l.

(** [s.count(c)] for a one-character needle. *)
Fixpoint count (c : ascii) (s : string) : nat :=
  match s with
  | EmptyString => 0
  | String a s' => (if bool_decide (a = c) then 1 else 0) + count c s'
  end.

(** [s.replace(c, r)] for a one-character needle. *)
Fixpoint replace (c : ascii) (r : string) (s : string) : string :=
  match s with
  | EmptyString => EmptyString
  | String a s' =>
      if bool_decide (a = c) then r +:+ replace c r s'
      else String a (replace c r s')
  end.

(** [xml.sax.saxutils.escape(data)] with no extra entities: three passes,
    ampersand first. *)
Definition escape (data : string) : string :=
  let data := replace "&"%char "&amp;" data in
  let data := replace ">"%char "&gt;" data in
  let data := replace "<"%char "&lt;" data in
  data.

Definition lower_char (c : ascii) : ascii :=
  let n := nat_of_ascii c in
  if (65 <=? n)%nat && (n <=? 90)%nat then ascii_of_nat (n + 32) else c.

(** [s.lower()] for a string of ASCII characters: the letters [A] to [Z]
    change, nothing else does. *)
Fixpoint lower (s : string) : string :=
  match s with
  | EmptyString => EmptyString
  | String c s' => String (lower_char c) (lower s')
  end.

Definition is_space (c : ascii) : bool :=
  let n := nat_of_ascii c in
  ((9 <=? n)%nat && (n <=? 13)%nat) || ((28 <=? n)%nat && (n <=? 32)%nat).

Fixpoint lstrip (s : string) : string :=
  match s with
  | EmptyString => EmptyString
  | String c s' => if is_space c then lstrip s' else s
  end.

Fixpoint rstrip (s : string) : string :=
  match s with
  | EmptyString => EmptyString
  | String c s' =>
      match rstrip s' with
      | EmptyString => if is_space c then EmptyString else String c EmptyString
      | r => String c r
      end
  end.

(** [s.strip()] for a string of ASCII characters: the white space of
    [str.isspace] among them is 9 to 13 and 28 to 32. *)
Definition strip (s : string) : string := rstrip (lstrip s).

(** [s.rfind(".")], counted from [i]. *)
Fixpoint rfind_dot (i : nat) (s : string) : option nat :=
  match s with
  | EmptyString => None
  | String c s' =>
      match rfind_dot (S i) s' with
      | Some j => Some j
      | None => if bool_decide (c = "."%char) then Some i else None
      end
  end.

(** [Path(name).suffix] for a single path component (pathlib before 3.14:
    a leading or a trailing dot starts no suffix). *)
Definition suffix (name : string) : string :=
  match rfind_dot 0 name with
  | Some i =>
      if (0 <? i)%nat && (i <? String.length name - 1)%nat
      then substring i (String.length name - i) name
      else EmptyString
  | None => EmptyString
  end.

Fixpoint insert_sorted {A} (key : A -> string) (x : A) (l : list A) : list A :=
  match l with
  | [] => [x]
  | y :: l' =>
      if String.ltb (key x) (key y) then x :: l
      else y :: insert_sorted key x l'
  end.

(** [sorted(l, key=key)]: the stable sort (insertion from the right keeps
    equal keys in their order). *)
Definition sorted_by {A} (key : A -> string) (l : list A) : list A :=
  foldr (insert_sorted key) [] l.

(** [sorted(l)] on strings. *)
Definition sorted (l : list string) : list string := sorted_by (fun s => s) l.

(** [str(n)] for a natural number. *)
Definition str (n : nat) : string := NilEmpty.string_of_uint (Nat.to_uint n).

(** [c * n]. *)
Fixpoint repeat_str (c : string) (n : nat) : string :=
  match n with
  | O => EmptyString
  | S n' => c +:+ repeat_str c n'
  end.

(** [f"{s:>{width}}"]: right-aligned in a field of [width], never cut. *)
Definition rjust (width : nat) (s : string) : string :=
  repeat_str " " (width - String.length s) +:+ s.

(** [s.startswith(p)], returning the rest. *)
Fixpoint strip_prefix (p s : string) : option string :=
  match p, s with
  | EmptyString, _ => Some s
  | String a p', String b s' => if bool_decide (a = b) then strip_prefix p' s' else None
  | String _ _, EmptyString => None
  end.

End Py.

(** ** Constants *)

Definition DEFAULT_EXTS : list string :=
  [".go"; ".py"; ".js"; ".ts"; ".java"; ".c"; ".cpp"; ".h"; ".hpp"; ".rs";
   ".rb"; ".php"; ".cs"; ".swift"; ".kt"; ".m"; ".scala"; ".sh"; ".yaml";
   ".yml"; ".toml"; ".json"]%string.

Definition DEFAULT_EXCLUDE_DIR_NAMES : list string :=
  [".git"; "node_modules"; "vendor"; "dist"; "build"; ".idea"; ".vscode";
   "__pycache__"]%string.

Definition DEFAULT_EXCLUDE_DIRS : gset string := list_to_set DEFAULT_EXCLUDE_DIR_NAMES.

(** ** The file system seen by [os.walk]

    A directory lists its entries in the order [os.scandir] reports them.
    A file has the [st_size] that [stat] answers ([None]: [stat] raises
    [OSError]) and the text that [read_text(errors="replace")] answers
    ([None]: it raises [OSError]). Entries that [os.walk] names among the
    directories but never enters (links to directories, unreadable
    directories) change nothing in this program and are left out. *)

Inductive node : Type :=
| File (name : string) (st_size : option Z) (text : option string)
| Dir (name : string) (entries : list node).

Definition node_name (n : node) : string :=
  match n with File name _ _ => name | Dir name _ => name end.

Definition is_dir (n : node) : bool :=
  match n with File _ _ _ => false | Dir _ _ => true end.

Definition path := list string.

(** The entry at [p] below [n]. *)
Fixpoint find_node (p : path) (n : node) : option node :=
  match p with
  | [] => Some n
  | seg :: p' =>
      match n with
      | File _ _ _ => None
      | Dir _ entries =>
          match List.find (fun c => bool_decide (node_name c = seg)) entries with
          | Some c => find_node p' c
          | None => None
          end
      end
  end.

(** [path.stat().st_size]; [None] when it raises [OSError]. *)
Definition stat (root : node) (p : path) : option Z :=
  match find_node p root with
  | Some (File _ sz _) => sz
  | _ => None
  end.

(** [path.read_text(errors="replace")]; [None] when it raises [OSError]. *)
Definition read_text (root : node) (p : path) : option string :=
  match find_node p root with
  | Some (File _ _ txt) => txt
  | _ => None
  end.

(** One step of [os.walk]: the directory, its sub-directories and its
    other entries. *)
Record walked := Walked {
  dirpath : path;
  dirnames : list string;
  filenames : list string;
}.

Definition prune (exclude_dirs : gset string) (names : list string) : list string :=
  List.filter (fun d => bool_decide (d ∉ exclude_dirs)) names.

(** [os.walk(top)], top down, with the in-place pruning
    [dirnames[:] = [d for d in dirnames if d not in exclude_dirs]] that both
    callers do before the generator resumes. On a file it yields nothing. *)
Fixpoint walk (exclude_dirs : gset string) (top : path) (n : node) : list walked :=
  match n with
  | File _ _ _ => []
  | Dir _ entries =>
      Walked top
             (prune exclude_dirs (map node_name (List.filter is_dir entries)))
             (map node_name (List.filter (fun c => negb (is_dir c)) entries))
      :: flat_map
           (fun c =>
              if is_dir c && bool_decide (node_name c ∉ exclude_dirs)
              then walk exclude_dirs (top ++ [node_name c]) c
              else [])
           entries
  end.

(** ** [build_tree] *)

(** [os.path.relpath(dirpath, root)]. *)
Definition relpath (d : path) : string :=
  match d with [] => "."%string | _ => Py.join "/" d end.

(** [os.path.basename(dirpath)]. *)
Definition basename (d : path) : string := List.last d EmptyString.

(** The file names of a directory that the tree lists. *)
Definition tree_listed (include_exts : gset string) (w : walked) : list string :=
  List.filter (fun filename => bool_decide (Py.lower (Py.suffix filename) ∈ include_exts))
              (Py.sorted (filenames w)).

Definition tree_indent (w : walked) : string :=
  let rel_dir := relpath (dirpath w) in
  let indent_level :=
    if bool_decide (rel_dir = "."%string) then 0 else Py.count "/"%char rel_dir + 1 in
  Py.repeat_str "  " indent_level.

(** The lines appended for one directory: its own, then its files'. *)
Definition tree_lines_of (root_name : string) (include_exts : gset string)
    (w : walked) : list string :=
  let indent := tree_indent w in
  (if bool_decide (relpath (dirpath w) = "."%string)
   then root_name +:+ "/"
   else indent +:+ basename (dirpath w) +:+ "/")
  :: map (fun filename => indent +:+ "  " +:+ filename) (tree_listed include_exts w).

Definition build_tree_lines (root : node) (include_exts exclude_dirs : gset string)
    : list string :=
  flat_map (tree_lines_of (node_name root) include_exts) (walk exclude_dirs [] root).

Definition build_tree (root : node) (include_exts exclude_dirs : gset string) : string :=
  Py.join (String "010" EmptyString) (build_tree_lines root include_exts exclude_dirs).

(** The files that have a line in the tree, as paths below the root. *)
Definition tree_files (root : node) (include_exts exclude_dirs : gset string)
    : list path :=
  flat_map (fun w => map (fun filename => dirpath w ++ [filename]) (tree_listed include_exts w))
           (walk exclude_dirs [] root).

(** ** [collect_files] *)

(** [n / 1024] on integers is the float nearest to the quotient, ties to the
    one with an even mantissa. A division by a power of two only changes the
    exponent, so that float is [round53 n / 1024], where [round53] rounds a
    whole number to 53 significant bits. (The sizes of files are far below
    the range in which the division overflows.) *)
Definition round53 (n : Z) : Z :=
  if (Z.abs n <? 2 ^ 53)%Z then n
  else
    let dropped := (Z.log2 (Z.abs n) - 52)%Z in
    let q := (Z.abs n / 2 ^ dropped)%Z in
    let r := (Z.abs n mod 2 ^ dropped)%Z in
    let half := (2 ^ (dropped - 1))%Z in
    let mantissa :=
      if (r <? half)%Z then q
      else if (half <? r)%Z then (q + 1)%Z
      else if Z.even q then q else (q + 1)%Z in
    (Z.sgn n * (mantissa * 2 ^ dropped))%Z.

(** [size_kb > max_size_kb] with [size_kb = st_size / 1024]: a float and an
    int are compared by their values. *)
Definition over_ceiling (st_size max_size_kb : Z) : bool :=
  (1024 * max_size_kb <? round53 st_size)%Z.

Definition collect_keep (root : node) (include_exts : gset string) (max_size_kb : Z)
    (p : path) : bool :=
  let ext := Py.lower (Py.suffix (List.last p EmptyString)) in
  if bool_decide (ext ∉ include_exts) then false
  else match stat root p with
       | None => false
       | Some st_size => negb (over_ceiling st_size max_size_kb)
       end.

Definition collect_files (root : node) (include_exts exclude_dirs : gset string)
    (max_size_kb : Z) : list path :=
  flat_map
    (fun w =>
       List.filter (collect_keep root include_exts max_size_kb)
                   (map (fun filename => dirpath w ++ [filename]) (Py.sorted (filenames w))))
    (walk exclude_dirs [] root).

(** ** Markup rendering *)

(** A pygments token type is a tuple of names, here most specific name
    first: [Token.Name.Function] is [["Function"; "Name"]], [Token] is [[]].
    [token_type.parent] drops the most specific name; [Token] has none. *)
Definition token_type := list string.

Definition parent (t : token_type) : option token_type :=
  match t with [] => None | _ :: t' => Some t' end.

(** A style definition, reduced to its ["color"] entry. *)
Record style_def := StyleDef { color : option string }.

(** What [pygments] offers once imported. [None] stands for the exception
    the call raises ([KeyError] from [style_for_token], any from
    [get_lexer_for_filename]). *)
Record pygments := Pygments {
  lexer : Type;
  get_lexer_for_filename : string -> string -> option lexer;
  TextLexer : lexer;
  lex : string -> lexer -> list (token_type * string);
  style_for_token : token_type -> option style_def;
}.

(** The [while parent is not None] loop, entered with [parent = t]. *)
Fixpoint nearest_style (style : token_type -> option style_def) (t : token_type)
    : style_def :=
  match style t with
  | Some d => d
  | None =>
      match t with
      | [] => StyleDef None
      | _ :: t' => nearest_style style t'
      end
  end.

Definition _token_color (style : token_type -> option style_def) (t : token_type)
    : option string :=
  let style_def :=
    match style t with
    | Some d => d
    | None =>
        match parent t with
        | None => StyleDef None
        | Some p => nearest_style style p
        end
    end in
  color style_def.

Definition newline : string := String "010" EmptyString.
Definition dquote : string := String "034" EmptyString.

(** [lines[-1] += s]. *)
Fixpoint append_last (lines : list string) (s : string) : list string :=
  match lines with
  | [] => []
  | [l] => [l +:+ s]
  | l :: ls => l :: append_last ls s
  end.

(** The inner loop over [enumerate(parts)]: [idx < len(parts) - 1] holds at
    every part but the last. [if color:] holds for a non-empty string. *)
Fixpoint add_parts (col : option string) (lines : list string) (parts : list string)
    : list string :=
  match parts with
  | [] => lines
  | part :: rest =>
      let lines :=
        if bool_decide (part = EmptyString) then lines
        else
          let escaped := Py.escape part in
          match col with
          | Some (String _ _ as c) =>
              append_last lines
                ("<font color=" +:+ dquote +:+ "#" +:+ c +:+ dquote +:+ ">"
                 +:+ escaped +:+ "</font>")
          | _ => append_last lines escaped
          end in
      match rest with
      | [] => lines
      | _ :: _ => add_parts col (lines ++ [EmptyString]) rest
      end
  end.

Definition add_token (style : token_type -> option style_def)
    (lines : list string) (tok : token_type * string) : list string :=
  let '(ttype, value) := tok in
  if bool_decide (value = EmptyString) then lines
  else add_parts (_token_color style ttype) lines (Py.split "010" value).

(** [build_code_lines]; [pyg = None] when [import pygments] raises
    [ImportError]. *)
Definition build_code_lines (pyg : option pygments) (text filename : string)
    (highlight : bool) : list string :=
  if negb highlight then map Py.escape (Py.split "010" text)
  else
    match pyg with
    | None => map Py.escape (Py.split "010" text)
    | Some P =>
        let lexer :=
          match get_lexer_for_filename P filename text with
          | Some l => l
          | None => TextLexer P
          end in
        foldl (add_token (style_for_token P)) [EmptyString] (lex P text lexer)
    end.

Definition add_line_numbers (lines : list string) : list string :=
  let width := String.length (Py.str (length lines)) in
  imap (fun i line => Py.rjust width (Py.str (i + 1)) +:+ "  " +:+ line) lines.

(** ** Document assembly *)

(** The flowables the story is made of; a style is known by its name. *)
Inductive flowable : Type :=
| Paragraph (text : string) (style : string)
| Preformatted (text : string) (style : string)
| XPreformatted (text : string) (style : string)
| Spacer (width height : Z)
| PageBreak
| TableOfContents.

(** [hasattr(flowable, "style")] and [flowable.style.name]. *)
Definition flowable_style (f : flowable) : option string :=
  match f with
  | Paragraph _ s | Preformatted _ s | XPreformatted _ s => Some s
  | Spacer _ _ | PageBreak | TableOfContents => None
  end.

(** The text a flowable was made of. The program asks for the plain text of
    paragraphs only: its code blocks have the style [CodeBlock], which is no
    heading style. *)
Definition flowable_text (f : flowable) : string :=
  match f with
  | Paragraph t _ | Preformatted t _ | XPreformatted t _ => t
  | Spacer _ _ | PageBreak | TableOfContents => EmptyString
  end.

Definition level_map (name : string) : option Z :=
  if bool_decide (name = "Heading1"%string) then Some 0%Z
  else if bool_decide (name = "Heading2"%string) then Some 1%Z
  else if bool_decide (name = "Heading3"%string) then Some 2%Z
  else None.

(** [str(z)] for an integer. *)
Definition str_int (z : Z) : string :=
  if (z <? 0)%Z then "-" +:+ Py.str (Z.to_nat (- z)) else Py.str (Z.to_nat z).

(** What [afterFlowable] hands to the canvas and to [self.notify]. *)
Record outline_entry := OutlineEntry {
  outline_text : string;
  outline_key : string;
  outline_level : Z;
}.

Record toc_entry := TOCEntry {
  toc_level : Z;
  toc_text : string;
  toc_page : Z;
}.

(** The state of a [TOCDocTemplate], with the calls it has made so far. *)
Record doc := Doc {
  _heading_count : nat;
  _last_outline_level : Z;
  outline : list outline_entry;
  notified : list toc_entry;
}.

(** [TOCDocTemplate.__init__]. *)
Definition doc_init : doc := Doc 0 (-1) [] [].

Section Layout.

(** [Paragraph.getPlainText]: the heading's text with its markup read. *)
Variable getPlainText : string -> string.

(** [self.page] when the [i]-th flowable of the story has been placed. *)
Variable page_of : nat -> Z.

Definition afterFlowable (page : Z) (self : doc) (f : flowable) : doc :=
  match flowable_style f with
  | None => self
  | Some name =>
      match level_map name with
      | None => self
      | Some level =>
          let text := getPlainText (flowable_text f) in
          let heading_count := _heading_count self + 1 in
          let level :=
            if (level >? _last_outline_level self + 1)%Z
            then (_last_outline_level self + 1)%Z else level in
          let bookmark_key := "h" +:+ str_int level +:+ "_" +:+ Py.str heading_count in
          Doc heading_count level
              (outline self ++ [OutlineEntry text bookmark_key level])
              (notified self ++ [TOCEntry level text page])
      end
  end.

(** [doc.build(story)], as far as the template sees it: every flowable of
    the story is placed once, in order, and [afterFlowable] follows. *)
Fixpoint handle_flowables (i : nat) (self : doc) (story : list flowable) : doc :=
  match story with
  | [] => self
  | f :: rest => handle_flowables (S i) (afterFlowable (page_of i) self f) rest
  end.

Definition build (story : list flowable) : doc := handle_flowables 0 doc_init story.

(** Where [self.notify] goes. [BaseDocTemplate.notify] hands a notification
    to the flowables of [self._indexingFlowables]. [__init__] makes that list
    empty and [build] leaves it so; it is [multiBuild] that puts the indexing
    flowables of the story there, of which a [TableOfContents] is one. *)
Definition isIndexing (f : flowable) : bool :=
  match f with TableOfContents => true | _ => false end.

Inductive build_call : Type := Build | MultiBuild.

Definition _indexingFlowables (call : build_call) (story : list flowable)
    : list flowable :=
  match call with
  | Build => []
  | MultiBuild => List.filter isIndexing story
  end.

(** The entries that every table of contents of the story is given in one
    pass over the story: [TableOfContents.notify] adds an entry for each
    [TOCEntry] it is handed. *)
Definition toc_received (call : build_call) (story : list flowable)
    : list (list toc_entry) :=
  map (fun _ => notified (build story)) (_indexingFlowables call story).

(** Line 352 is [doc.build(story)]. *)
Definition table_of_contents (story : list flowable) : list (list toc_entry) :=
  toc_received Build story.

End Layout.

(** The pages before the files. *)
Definition front_matter (title source_label now tree_text : string) : list flowable :=
  [ Paragraph ("Repository: " +:+ title) "Title";
    Paragraph ("Source: " +:+ source_label) "Normal";
    Paragraph ("Generated: " +:+ now) "Normal";
    Spacer 1 12;
    Paragraph "Directory" "Heading1";
    Preformatted tree_text "CodeBlock";
    PageBreak;
    Paragraph "Table of Contents" "Heading1";
    TableOfContents;
    PageBreak ].

(** The state of the loop over [files]. *)
Record assembly := Assembly {
  current_dir_parts : list string;
  story : list flowable;
}.

(** One turn of [for idx, part in enumerate(dir_parts)]. *)
Definition dir_step (dir_parts : list string) (a : assembly) (ip : nat * string)
    : assembly :=
  let '(idx, part) := ip in
  if (idx <? length (current_dir_parts a))%nat
     && bool_decide (current_dir_parts a !! idx = Some part)
  then a
  else
    let current_dir_parts := take (idx + 1) dir_parts in
    let heading_text := Py.join "/" current_dir_parts in
    let style_name := if (idx =? 0)%nat then "Heading1"%string else "Heading2"%string in
    Assembly current_dir_parts (story a ++ [Paragraph heading_text style_name]).

(** [enumerate(l)]. *)
Definition enumerate {A} (l : list A) : list (nat * A) := imap (fun i x => (i, x)) l.

Definition dir_headings (dir_parts : list string) (a : assembly) : assembly :=
  foldl (dir_step dir_parts) a (enumerate dir_parts).

Definition file_heading_style (dir_parts : list string) : string :=
  if (2 <=? length dir_parts)%nat then "Heading3"%string else "Heading2"%string.

Definition tab : ascii := "009"%char.

(** The code block of one file. *)
Definition file_block (pyg : option pygments) (repo_root : string) (fs : node)
    (highlight show_line_numbers : bool) (rel : path) : flowable :=
  let text :=
    match read_text fs rel with
    | Some t => t
    | None => "[Error reading file]"%string
    end in
  let text := Py.replace tab "    " text in
  let lines := build_code_lines pyg text (repo_root +:+ "/" +:+ Py.join "/" rel) highlight in
  let lines := if show_line_numbers then add_line_numbers lines else lines in
  let joined := Py.join newline lines in
  if highlight then XPreformatted joined "CodeBlock" else Preformatted joined "CodeBlock".

(** One turn of [for path in files]. *)
Definition file_step (pyg : option pygments) (repo_root : string) (fs : node)
    (highlight show_line_numbers : bool) (a : assembly) (rel : path) : assembly :=
  let dir_parts := removelast rel in
  let a := dir_headings dir_parts a in
  Assembly (current_dir_parts a)
           (story a ++ [ Paragraph (Py.join "/" rel) (file_heading_style dir_parts);
                         file_block pyg repo_root fs highlight show_line_numbers rel;
                         PageBreak ]).

(** The story that [generate_pdf] hands to [doc.build]. [repo_root] is
    [str(repo_root)], [fs] the tree found there, [now] today's date. *)
Definition generate_pdf_story (pyg : option pygments) (repo_root : string) (fs : node)
    (now : string) (files : list path) (tree_text source_label : string)
    (highlight show_line_numbers : bool) : list flowable :=
  story
    (foldl (file_step pyg repo_root fs highlight show_line_numbers)
           (Assembly [] (front_matter (node_name fs) source_label now tree_text))
           files).

(** ** The run: [main] and what it does to the world *)

Inductive exception : Type :=
| RuntimeError (msg : string)
| OSError (msg : string)
| OtherError (msg : string).

Inductive result (A : Type) : Type :=
| Ok (a : A)
| Raise (e : exception).
Arguments Ok {A} a.
Arguments Raise {A} e.

(** What a run does that outlives it. [removed] tells whether [rmtree]
    managed to remove the directory. *)
Inductive event : Type :=
| EvMkdtemp (dir : string)
| EvRun (cmd : list string)
| EvWritePdf (output_path : string) (story : list flowable)
| EvPrint (line : string)
| EvRmtree (dir : string) (ignore_errors : bool) (removed : bool).

(** What the surroundings answer during one run. *)
Record world := World {
  subprocess_run : list string -> result (Z * string * string);
      (* returncode, stdout, stderr; or the exception of [subprocess.run] *)
  cloned : string -> list node;
      (* the entries git leaves in the target when it exits with 0 *)
  gettempdir : string;
  mkdtemp_random : string;
  mkdtemp_error : option exception;
  resolve : string -> string;
      (* [str(Path(p).expanduser().resolve())], when that raises nothing *)
  tree_at : string -> option node;
      (* the tree at a resolved path; [None]: it does not exist *)
  pygments_module : option pygments;
  reportlab_installed : bool;
  build_error : option exception;
      (* the exception [doc.build] raises, if it does *)
  today : string;
  rmtree_removes : bool;
  resolve_error : string -> option exception;
      (* the exception [Path(p).expanduser().resolve()] raises, if it does *)
  exists_error : string -> option exception;
      (* the exception [exists()] raises at a resolved path, if it does *)
  markup_error : string -> option exception;
      (* the exception reportlab's paragraph parser raises on a text, if it
         does *)
  print_error : string -> option exception;
      (* the exception [print] raises on a line, if it does *)
}.

(** The local variable [temp_dir] of [main] and the events so far. *)
Record run_state := RunState {
  temp_dir : option string;
  trace : list event;
}.

(** Computations that may raise, over the run state. *)
Definition M (A : Type) : Type := run_state -> result A * run_state.

Definition ret {A} (a : A) : M A := fun s => (Ok a, s).

Definition bind {A B} (c : M A) (k : A -> M B) : M B :=
  fun s =>
    match c s with
    | (Ok a, s') => k a s'
    | (Raise e, s') => (Raise e, s')
    end.

Definition raise {A} (e : exception) : M A := fun s => (Raise e, s).

Definition emit (ev : event) : M unit :=
  fun s => (Ok tt, RunState (temp_dir s) (trace s ++ [ev])).

Definition set_temp_dir (t : option string) : M unit :=
  fun s => (Ok tt, RunState t (trace s)).

Definition get_temp_dir : M (option string) := fun s => (Ok (temp_dir s), s).

(** [try: body finally: fin]: [fin] runs however [body] ends; the outcome
    is [body]'s unless [fin] itself raises. *)
Definition try_finally {A} (body : M A) (fin : M unit) : M A :=
  fun s =>
    let '(r, s1) := body s in
    match fin s1 with
    | (Ok _, s2) => (r, s2)
    | (Raise e, s2) => (Raise e, s2)
    end.

Declare Scope run_scope.
Delimit Scope run_scope with run.
Notation "x <- c ;; k" := (bind c (fun x => k))
  (at level 100, c at next level, right associativity) : run_scope.
Notation "c ;; k" := (bind c (fun _ => k))
  (at level 100, right associativity) : run_scope.
Local Open Scope run_scope.

Definition is_github_url (value : string) : bool :=
  let after_scheme :=
    match Py.strip_prefix "http" value with
    | None => None
    | Some r =>
        match Py.strip_prefix "s://" r with
        | Some r' => Some r'
        | None => Py.strip_prefix "://" r
        end
    end in
  match after_scheme with
  | None => false
  | Some r =>
      let with_www :=
        match Py.strip_prefix "www." r with
        | Some r' => bool_decide (is_Some (Py.strip_prefix "github.com/" r'))
        | None => false
        end in
      with_www || bool_decide (is_Some (Py.strip_prefix "github.com/" r))
  end.

Definition run (w : world) (cmd : list string) : M string :=
  emit (EvRun cmd) ;;
  match subprocess_run w cmd with
  | Raise e => raise e
  | Ok (returncode, stdout, stderr) =>
      if bool_decide (returncode <> 0%Z)
      then raise (RuntimeError ("Command failed: " +:+ Py.join " " cmd +:+ newline
                                +:+ stdout +:+ newline +:+ stderr))
      else ret (Py.strip stdout)
  end.

Definition clone_repo (w : world) (url target_dir : string) : M string :=
  run w ["git"; "clone"; "--depth"; "1"; url; target_dir]%string ;;
  ret target_dir.

(** [tempfile.mkdtemp(prefix=prefix)]. *)
Definition mkdtemp (w : world) (prefix : string) : M string :=
  match mkdtemp_error w with
  | Some e => raise e
  | None =>
      let dir := gettempdir w +:+ "/" +:+ prefix +:+ mkdtemp_random w in
      emit (EvMkdtemp dir) ;; ret dir
  end.

(** [shutil.rmtree(path, ignore_errors=ignore_errors)]. *)
Definition rmtree (w : world) (dir : string) (ignore_errors : bool) : M unit :=
  emit (EvRmtree dir ignore_errors (rmtree_removes w)) ;;
  if rmtree_removes w || ignore_errors then ret tt
  else raise (OSError ("cannot remove " +:+ dir)).

(** A [Paragraph] and an [XPreformatted] read their text as markup when they
    are made, a [Preformatted] takes it as it is. *)
Definition parses_markup (f : flowable) : bool :=
  match f with
  | Paragraph _ _ | XPreformatted _ _ => true
  | _ => false
  end.

(** The exception that stops the making of the story: that of the first
    flowable whose text is not read as markup. *)
Fixpoint story_error (w : world) (story : list flowable) : option exception :=
  match story with
  | [] => None
  | f :: rest =>
      match (if parses_markup f then markup_error w (flowable_text f) else None) with
      | Some e => Some e
      | None => story_error w rest
      end
  end.

Definition generate_pdf (w : world) (output_path repo_root : string) (fs : node)
    (files : list path) (tree_text source_label : string)
    (highlight show_line_numbers : bool) : M unit :=
  if negb (reportlab_installed w)
  then raise (RuntimeError
                "Missing dependency: reportlab. Install with: pip install -r requirements.txt")
  else
    let story :=
      generate_pdf_story (pygments_module w) repo_root fs (today w) files tree_text
                         source_label highlight show_line_numbers in
    match story_error w story with
    | Some e => raise e
    | None =>
        match build_error w with
        | Some e => raise e
        | None => emit (EvWritePdf output_path story)
        end
    end.

(** [Path(p).expanduser().resolve()]. *)
Definition resolved (w : world) (p : string) : M string :=
  match resolve_error w p with
  | Some e => raise e
  | None => ret (resolve w p)
  end.

(** [print(line)]. *)
Definition print (w : world) (line : string) : M unit :=
  match print_error w line with
  | Some e => raise e
  | None => emit (EvPrint line)
  end.

(** The parsed command line. *)
Record args := Args {
  source : string;
  output : string;
  include_ext : string;
  exclude_dirs_arg : string;
  max_file_size_kb : Z;
  no_highlight : bool;
  no_line_numbers : bool;
}.

(** [parse_args([source])]: every option at its default. *)
Definition parse_args_defaults (source : string) : args :=
  Args source "repo.pdf" (Py.join "," DEFAULT_EXTS)
       (Py.join "," (Py.sorted DEFAULT_EXCLUDE_DIR_NAMES)) 512 false false.

(** [{f(e.strip()) for e in s.split(",") if e.strip()}]. *)
Definition comma_set (f : string -> string) (s : string) : gset string :=
  list_to_set
    (map (fun e => f (Py.strip e))
         (List.filter (fun e => negb (bool_decide (Py.strip e = EmptyString)))
                      (Py.split "," s))).

(** The body of the [try]. *)
Definition main_try (w : world) (a : args) (include_exts exclude_dirs : gset string)
    : M unit :=
  acquired <-
    (if is_github_url (source a) then
       t <- mkdtemp w "gh2pdf_" ;;
       set_temp_dir (Some t) ;;
       let repo_root := t +:+ "/repo" in
       clone_repo w (source a) repo_root ;;
       ret (repo_root, Dir "repo" (cloned w (source a)), source a)
     else
       repo_root <- resolved w (source a) ;;
       match exists_error w repo_root with
       | Some e => raise e
       | None =>
           match tree_at w repo_root with
           | None => raise (RuntimeError ("Path does not exist: " +:+ repo_root))
           | Some fs => ret (repo_root, fs, repo_root)
           end
       end) ;;
  let '(repo_root, fs, source_label) := acquired in
  let tree_text := build_tree fs include_exts exclude_dirs in
  let files := collect_files fs include_exts exclude_dirs (max_file_size_kb a) in
  match files with
  | [] => raise (RuntimeError "No files found with the selected extensions.")
  | _ :: _ =>
      output_path <- resolved w (output a) ;;
      generate_pdf w output_path repo_root fs files tree_text source_label
                   (negb (no_highlight a)) (negb (no_line_numbers a)) ;;
      print w ("PDF created: " +:+ output_path)
  end.

(** The [finally]: [if temp_dir: shutil.rmtree(temp_dir, ignore_errors=True)]. *)
Definition main_finally (w : world) : M unit :=
  t <- get_temp_dir ;;
  match t with
  | Some (String _ _ as dir) => rmtree w dir true
  | _ => ret tt
  end.

Definition main (w : world) (a : args) : M unit :=
  let include_exts := comma_set Py.lower (include_ext a) in
  let exclude_dirs := comma_set (fun d => d) (exclude_dirs_arg a) in
  set_temp_dir None ;;
  try_finally (main_try w a include_exts exclude_dirs) (main_finally w).

(** A run starts with nothing done. *)
Definition run_main (w : world) (a : args) : result unit * run_state :=
  main w a (RunState None []).

(** Whether [dir] exists once the events have happened, given whether it
    did before. *)
Fixpoint exists_after (dir : string) (before : bool) (evs : list event) : bool :=
  match evs with
  | [] => before
  | EvMkdtemp d :: evs' =>
      exists_after dir (if bool_decide (d = dir) then true else before) evs'
  | EvRmtree d _ true :: evs' =>
      exists_after dir (if bool_decide (d = dir) then false else before) evs'
  | _ :: evs' => exists_after dir before evs'
  end.

Definition writes_pdf (ev : event) : bool :=
  match ev with EvWritePdf _ _ => true | _ => false end.

(** ** Vocabulary of the properties *)

(** The characters [escape] rewrites. *)
Definition reserved (c : ascii) : bool :=
  bool_decide (c = "&"%char) || bool_decide (c = ">"%char) || bool_decide (c = "<"%char).

Fixpoint has_reserved (s : string) : bool :=
  match s with
  | EmptyString => false
  | String c s' => reserved c || has_reserved s'
  end.

(** No entry is more than one level below the one before it; [prev] is the
    level before the first. *)
Fixpoint bounded_steps (prev : Z) (levels : list Z) : Prop :=
  match levels with
  | [] => True
  | l :: rest => (l <= prev + 1)%Z /\ bounded_steps l rest
  end.

(** The flowables [afterFlowable] takes for headings. *)
Definition is_heading (f : flowable) : bool :=
  match f with
  | Paragraph _ s => bool_decide (is_Some (level_map s))
  | Preformatted _ s | XPreformatted _ s => bool_decide (is_Some (level_map s))
  | _ => false
  end.

Definition is_paragraph (f : flowable) : bool :=
  match f with Paragraph _ _ => true | _ => false end.

(** The length of the longest common prefix: the first point of divergence. *)
Fixpoint lcp (xs ys : list string) : nat :=
  match xs, ys with
  | x :: xs', y :: ys' => if bool_decide (x = y) then S (lcp xs' ys') else 0
  | _, _ => 0
  end.

(** The directories entered on the way from a file in [prev] to a file in
    [cur]: the prefixes of [cur] beyond the common prefix, shortest first. *)
Definition new_dirs (prev cur : path) : list path :=
  map (fun k => take k cur) (seq (S (lcp prev cur)) (length cur - lcp prev cur)).

(** The heading of the directory [d]. *)
Definition dir_heading (d : path) : flowable :=
  Paragraph (Py.join "/" d)
            (if (length d =? 1)%nat then "Heading1"%string else "Heading2"%string).

(** The heading of the file [rel]. *)
Definition file_heading (rel : path) : flowable :=
  Paragraph (Py.join "/" rel) (file_heading_style (removelast rel)).

(** The part of the story that the loop over [files] appends. *)
Definition per_file_story (pyg : option pygments) (repo_root : string) (fs : node)
    (highlight show_line_numbers : bool) (files : list path) : list flowable :=
  story (foldl (file_step pyg repo_root fs highlight show_line_numbers)
               (Assembly [] []) files).

(** The directory and file headings emitted for [files]. *)
Definition emitted_headings (pyg : option pygments) (repo_root : string) (fs : node)
    (highlight show_line_numbers : bool) (files : list path) : list flowable :=
  List.filter is_paragraph
              (per_file_story pyg repo_root fs highlight show_line_numbers files).

(** What holds of a template that has placed some flowables: its outline
    never steps more than one level down, it remembers the last level, and
    the notifications sent are those of the outline. *)
Definition doc_ok (d : doc) : Prop :=
  bounded_steps (-1) (map outline_level (outline d))
  /\ List.last (map outline_level (outline d)) (-1)%Z = _last_outline_level d
  /\ map toc_level (notified d) = map outline_level (outline d)
  /\ map toc_text (notified d) = map outline_text (outline d)
  /\ length (outline d) = _heading_count d.

(** A small repository: one file in the directory [a]. *)
Definition repo_one_file : node :=
  Dir "r" [ Dir "a" [ File "one.py" (Some 1%Z) (Some "x = 1"%string) ] ].

(** The directory that [mkdtemp] makes in the world [w]. *)
Definition temp_dir_of (w : world) : string :=
  gettempdir w +:+ "/" +:+ "gh2pdf_" +:+ mkdtemp_random w.

(** The tree a run works on, when the acquisition succeeds: the clone, made
    by a git that exits with 0 in a fresh temporary directory, or the local
    directory, whose path resolves and which exists. *)
Definition acquired (w : world) (a : args) : option node :=
  if is_github_url (source a) then
    match mkdtemp_error w with
    | Some _ => None
    | None =>
        match subprocess_run w ["git"; "clone"; "--depth"; "1"; source a;
                                temp_dir_of w +:+ "/repo"]%string with
        | Ok (0%Z, _, _) => Some (Dir "repo" (cloned w (source a)))
        | _ => None
        end
    end
  else
    match resolve_error w (source a), exists_error w (resolve w (source a)) with
    | None, None => tree_at w (resolve w (source a))
    | _, _ => None
    end.

(** The error of a run that selects no file; the program raises it as a
    [RuntimeError] with this message. *)
Definition NoMatchingFilesError : exception :=
  RuntimeError "No files found with the selected extensions.".

(** The sets that [main] makes of its arguments. *)
Definition include_exts_of (a : args) : gset string := comma_set Py.lower (include_ext a).
Definition exclude_dirs_of (a : args) : gset string := comma_set (fun d => d) (exclude_dirs_arg a).

(** What the [finally] of [main] adds to the events: the removal of the
    temporary directory, if one was made. *)
Definition cleanup (w : world) (s : run_state) : list event :=
  match temp_dir s with
  | Some (String _ _ as dir) => [EvRmtree dir true (rmtree_removes w)]
  | _ => []
  end.

(** A world in which nothing goes wrong: git exits with 0 and leaves the
    entries of [fs], every local path leads to [fs], reportlab is there,
    pygments is not. *)
Definition quiet_world (fs : node) : world :=
  World (fun _ => Ok (0%Z, EmptyString, EmptyString))
        (fun _ => match fs with Dir _ entries => entries | File _ _ _ => [] end)
        "/tmp" "k3x9q2ab" None
        (fun p => p) (fun _ => Some fs)
        None true None "2026-01-01" true
        (fun _ => None) (fun _ => None) (fun _ => None) (fun _ => None).

(** A repository with nothing to select. *)
Definition repo_no_source : node :=
  Dir "r" [ File "README.md" (Some 5%Z) (Some "hello"%string);
            Dir "vendor" [ File "v.py" (Some 1%Z) (Some "v = 1"%string) ] ].

(** Two directories with one file each; the second file is over a
    ceiling of 512 KB. *)
Definition repo_big_file : node :=
  Dir "r" [ Dir "a" [ File "one.py" (Some 10240%Z) (Some "x = 1"%string) ];
            Dir "b" [ File "two.go" (Some 1048576%Z) (Some "package two"%string) ] ].

(** A tree as a file system has it: no two entries of a directory share a
    name. *)
Fixpoint wf (n : node) : bool :=
  match n with
  | File _ _ _ => true
  | Dir _ entries =>
      bool_decide (NoDup (map node_name entries)) && forallb wf entries
  end.

(** The order of a top-down walk, on the directories of the files it
    yields: a directory never comes after a directory below it, and once
    the walk has left a directory it does not come back to it. *)
Definition top_down (dirs : list path) : Prop :=
  forall x y, [x; y] `sublist_of` dirs -> y `prefix_of` x -> y = x.

Definition no_return (dirs : list path) : Prop :=
  forall x y z d, [x; y; z] `sublist_of` dirs ->
                  d `prefix_of` x -> d `prefix_of` z -> d `prefix_of` y.

(** The open parts never have to shrink to a proper prefix. *)
Fixpoint adjacent_ok (prev : path) (dirs : list path) : Prop :=
  match dirs with
  | [] => True
  | d :: rest => (d `prefix_of` prev -> d = prev) /\ adjacent_ok d rest
  end.

(** The story of the files by the state machine of the specification:
    before every file a heading for each directory from the first point at
    which its directory parts differ from those of the file before it. *)
Fixpoint sections (pyg : option pygments) (repo_root : string) (fs : node)
    (highlight show_line_numbers : bool) (prev : path) (files : list path)
    : list flowable :=
  match files with
  | [] => []
  | rel :: rest =>
      map dir_heading (new_dirs prev (removelast rel))
      ++ [ file_heading rel;
           file_block pyg repo_root fs highlight show_line_numbers rel;
           PageBreak ]
      ++ sections pyg repo_root fs highlight show_line_numbers (removelast rel) rest
  end.

(** The directories that get a heading, in order, for files in the
    directories [dirs] after a file in [prev]. *)
Fixpoint heading_dirs (prev : path) (dirs : list path) : list path :=
  match dirs with
  | [] => []
  | d :: rest => new_dirs prev d ++ heading_dirs d rest
  end.

(** The directories of the files kept in the directories walked, once for
    each file. *)
Definition dirs_of {X} (kept : walked -> list X) (ws : list walked) : list path :=
  flat_map (fun w => map (fun _ => dirpath w) (kept w)) ws.

(** A repository with files in the root, in nested directories, in an
    excluded directory, and one that [stat] fails on. *)
Definition repo_nested : node :=
  Dir "proj"
    [ File "z.py" (Some 10%Z) (Some "x = 1"%string);
      Dir "a" [ File "one.py" (Some 100%Z) (Some "print(1)"%string);
                File "big.py" (Some 1000000%Z) (Some "big = 1"%string);
                Dir "b" [ File "t.go" (Some 1%Z) (Some "package t"%string) ] ];
      Dir "vendor" [ File "v.py" (Some 1%Z) (Some "v = 1"%string) ];
      File "README.md" (Some 5%Z) (Some "hello"%string);
      Dir "c" [ Dir "d" [ Dir "e" [ File "deep.py" None (Some "d = 1"%string);
                                    File "deep2.py" (Some 2%Z) None ] ] ] ].

(** The level a heading has by its style, before any clamping. *)
Definition nominal_level (f : flowable) : Z :=
  match flowable_style f with
  | Some name => match level_map name with Some level => level | None => 0%Z end
  | None => 0%Z
  end.

(** The nominal levels of the headings of a story, in order. *)
Definition nominal_levels (story : list flowable) : list Z :=
  map nominal_level (List.filter is_heading story).

(** The tokens [build_code_lines] works on: those of the lexer found for
    the file name, or of the plain text lexer. *)
Definition lexed (P : pygments) (text filename : string) : list (token_type * string) :=
  lex P text
      match get_lexer_for_filename P filename text with
      | Some l => l
      | None => TextLexer P
      end.

(** The values of the tokens, one after the other. *)
Definition token_text (tokens : list (token_type * string)) : string :=
  foldr (fun tok acc => snd tok +:+ acc) EmptyString tokens.

(** The newlines in the values of the tokens. *)
Definition token_newlines (tokens : list (token_type * string)) : nat :=
  list_sum (map (fun tok => Py.count "010" (snd tok)) tokens).

(** No token gets a colour: [if color:] fails for each. *)
Definition uncoloured (style : token_type -> option style_def)
    (tokens : list (token_type * string)) : Prop :=
  Forall (fun tok => match _token_color style (fst tok) with
                     | Some (String _ _) => False
                     | _ => True
                     end) tokens.

(** A pygments that knows one lexer, which makes one token of the text, and
    a style without colours. *)
Definition plain_pygments : pygments :=
  Pygments unit (fun _ _ => Some tt) tt (fun text _ => [([], text)])
           (fun _ => Some (StyleDef None)).

(** What holds of the bookmarks of a template: the levels stay within the
    three levels of the table of contents, the headings are counted, and
    the key of the [i]-th bookmark is made of its level and of [i]. *)
Definition keys_ok (d : doc) : Prop :=
  (-1 <= _last_outline_level d <= 2)%Z
  /\ _heading_count d = length (outline d)
  /\ length (notified d) = length (outline d)
  /\ forall i e, outline d !! i = Some e ->
       (0 <= outline_level e <= 2)%Z
       /\ outline_key e
          = "h" +:+ str_int (outline_level e) +:+ "_" +:+ Py.str (i + 1).

(** The root of the repository and the label of its source in a run. *)
Definition repo_root_of (w : world) (a : args) : string :=
  if is_github_url (source a) then temp_dir_of w +:+ "/repo" else resolve w (source a).

Definition source_label_of (w : world) (a : args) : string :=
  if is_github_url (source a) then source a else resolve w (source a).

(** The story of a run that works on the tree [fs]. *)
Definition story_of_run (w : world) (a : args) (fs : node) : list flowable :=
  generate_pdf_story (pygments_module w) (repo_root_of w a) fs (today w)
    (collect_files fs (include_exts_of a) (exclude_dirs_of a) (max_file_size_kb a))
    (build_tree fs (include_exts_of a) (exclude_dirs_of a))
    (source_label_of w a) (negb (no_highlight a)) (negb (no_line_numbers a)).

(** The command of the clone. *)
Definition clone_command (w : world) (a : args) : list string :=
  ["git"; "clone"; "--depth"; "1"; source a; temp_dir_of w +:+ "/repo"]%string.

(** The events that touch neither git nor a temporary directory. *)
Definition is_output (ev : event) : bool :=
  match ev with EvWritePdf _ _ | EvPrint _ => true | _ => false end.

(** A world like [quiet_world] whose git fails with exit code 128. *)
Definition failing_git_world : world :=
  World (fun _ => Ok (128%Z, EmptyString, "fatal: repository not found"%string))
        (fun _ => [])
        "/tmp" "k3x9q2ab" None
        (fun p => p) (fun _ => None)
        None true None "2026-01-01" false
        (fun _ => None) (fun _ => None) (fun _ => None) (fun _ => None).

(** The text of a file as the loop over the files takes it: what
    [read_text] answers, or the note of the failure. *)
Definition text_shown (fs : node) (rel : path) : string :=
  match read_text fs rel with
  | Some t => t
  | None => "[Error reading file]"%string
  end.

(** A repository with a file that cannot be read. *)
Definition repo_unreadable : node :=
  Dir "proj" [ File "locked.py" (Some 10%Z) None ].




(** A string of ASCII characters. *)
Fixpoint is_ascii (s : string) : bool :=
  match s with
  | EmptyString => true
  | String c s' => (nat_of_ascii c <? 128)%nat && is_ascii s'
  end.

(** Every entry below the root has a name of ASCII characters. *)
Fixpoint ascii_names (n : node) : bool :=
  match n with
  | File _ _ _ => true
  | Dir _ entries => forallb (fun c => is_ascii (node_name c) && ascii_names c) entries
  end.

(** The line that a run prints at its end. *)
Definition created_line (w : world) (a : args) : string :=
  "PDF created: " +:+ resolve w (output a).

(** What a run needs once it has its tree, to get to the end: the output
    path resolves, reportlab is there, the texts of the story are read as
    markup, the layout goes through. *)
Definition renders (w : world) (a : args) (fs : node) : Prop :=
  resolve_error w (output a) = None
  /\ reportlab_installed w = true
  /\ story_error w (story_of_run w a fs) = None
  /\ build_error w = None.

(** A world like [quiet_world] in which the paragraph parser refuses every
    text that holds a [<]. *)
Definition strict_markup_world (fs : node) : world :=
  World (fun _ => Ok (0%Z, EmptyString, EmptyString))
        (fun _ => match fs with Dir _ entries => entries | File _ _ _ => [] end)
        "/tmp" "k3x9q2ab" None
        (fun p => p) (fun _ => Some fs)
        None true None "2026-01-01" true
        (fun _ => None) (fun _ => None)
        (fun text => if (0 <? Py.count "<" text)%nat
                     then Some (OtherError "ValueError: paragraph text is not markup")
                     else None)
        (fun _ => None).

(** A repository whose one file has a name that is no markup. *)
Definition repo_markup_name : node :=
  Dir "r" [ File "a<b.py" (Some 1%Z) (Some "x = 1"%string) ].

(** The state of a run that has its tree: after a clone the temporary
    directory is made and git has run, on a local path nothing is done. *)
Definition acquired_state (w : world) (a : args) : run_state :=
  if is_github_url (source a)
  then RunState (Some (temp_dir_of w))
                [EvMkdtemp (temp_dir_of w); EvRun (clone_command w a)]
  else RunState None [].

(** How the body of the [try] ends once it has the tree [fs] and a file is
    selected: the first of the output path, reportlab, the markup of the
    story and the layout that fails stops it; otherwise the PDF is written
    and the line is printed, if [print] does not fail. *)
Definition rendering (w : world) (a : args) (fs : node) : result unit * run_state :=
  let s0 := acquired_state w a in
  match resolve_error w (output a) with
  | Some e => (Raise e, s0)
  | None =>
      if reportlab_installed w then
        match story_error w (story_of_run w a fs) with
        | Some e => (Raise e, s0)
        | None =>
            match build_error w with
            | Some e => (Raise e, s0)
            | None =>
                let written :=
                  trace s0 ++ [EvWritePdf (resolve w (output a)) (story_of_run w a fs)] in
                match print_error w (created_line w a) with
                | Some e => (Raise e, RunState (temp_dir s0) written)
                | None =>
                    (Ok tt, RunState (temp_dir s0) (written ++ [EvPrint (created_line w a)]))
                end
            end
        end
      else
        (Raise (RuntimeError
                  "Missing dependency: reportlab. Install with: pip install -r requirements.txt"),
         s0)
  end.

(** ** Strings *)

Section StringFacts.

Lemma length_append (a b : string) :
  String.length (a +:+ b) = String.length a + String.length b.
Proof. induction a as [|c a IH]; simpl; [reflexivity | now rewrite IH]. Qed.

Lemma count_append (c : ascii) (a b : string) :
  Py.count c (a +:+ b) = Py.count c a + Py.count c b.
Proof. induction a as [|x a IH]; simpl; [reflexivity | rewrite IH; lia]. Qed.

Lemma length_replace (c : ascii) (r s : string) :
  String.length (Py.replace c r s) + Py.count c s
  = String.length s + Py.count c s * String.length r.
Proof.
  induction s as [|a s IH]; simpl; [reflexivity|].
  case_bool_decide; simpl.
  - rewrite length_append. lia.
  - lia.
Qed.

Lemma count_replace (d c : ascii) (r s : string) :
  Py.count d (Py.replace c r s)
  = (if bool_decide (d = c) then 0 else Py.count d s) + Py.count c s * Py.count d r.
Proof.
  induction s as [|a s IH]; simpl.
  - now case_bool_decide.
  - destruct (bool_decide (a = c)) eqn:Hac; simpl.
    + apply bool_decide_eq_true in Hac. subst a.
      rewrite count_append, IH.
      repeat case_bool_decide; subst; try congruence; lia.
    + apply bool_decide_eq_false in Hac.
      rewrite IH. repeat case_bool_decide; subst; try congruence; lia.
Qed.

Lemma replace_absent (c : ascii) (r s : string) :
  Py.count c s = 0 -> Py.replace c r s = s.
Proof.
  induction s as [|a s IH]; simpl; [reflexivity|].
  case_bool_decide; simpl; [lia|]. intros Hc. now rewrite IH.
Qed.

Lemma has_reserved_count (s : string) :
  has_reserved s = false <->
  Py.count "&" s = 0 /\ Py.count ">" s = 0 /\ Py.count "<" s = 0.
Proof.
  induction s as [|a s IH]; simpl; [tauto|].
  unfold reserved. rewrite !orb_false_iff, IH.
  repeat case_bool_decide; subst; simpl; intuition (try discriminate; try lia).
Qed.

(** Every reserved character costs [escape] three or four more. *)
Lemma length_escape (s : string) :
  String.length (Py.escape s)
  = String.length s + 4 * Py.count "&" s + 3 * Py.count ">" s + 3 * Py.count "<" s.
Proof.
  unfold Py.escape.
  pose proof (length_replace "<" "&lt;" (Py.replace ">" "&gt;" (Py.replace "&" "&amp;" s))) as H1.
  pose proof (length_replace ">" "&gt;" (Py.replace "&" "&amp;" s)) as H2.
  pose proof (length_replace "&" "&amp;" s) as H3.
  rewrite !count_replace in H1. rewrite !count_replace in H2.
  simpl in *. lia.
Qed.

Lemma count_amp_escape (s : string) :
  Py.count "&" (Py.escape s) = Py.count "&" s + Py.count ">" s + Py.count "<" s.
Proof. unfold Py.escape. rewrite !count_replace. simpl. lia. Qed.

Lemma count_lt_escape (s : string) : Py.count "<" (Py.escape s) = 0.
Proof. unfold Py.escape. rewrite !count_replace. simpl. lia. Qed.

Lemma count_gt_escape (s : string) : Py.count ">" (Py.escape s) = 0.
Proof. unfold Py.escape. rewrite !count_replace. simpl. lia. Qed.

Lemma escape_plain (s : string) : has_reserved s = false -> Py.escape s = s.
Proof.
  intros H. apply has_reserved_count in H as (Ha & Hg & Hl).
  unfold Py.escape. now rewrite (replace_absent "&"), (replace_absent ">"), (replace_absent "<").
Qed.

Lemma escape_fixed_iff (s : string) : Py.escape s = s <-> has_reserved s = false.
Proof.
  split; [|apply escape_plain].
  intros H. apply has_reserved_count.
  pose proof (length_escape s) as Hl. rewrite H in Hl. lia.
Qed.

Lemma split_nonempty (sep : ascii) (s : string) : Py.split sep s <> [].
Proof.
  induction s as [|c s IH]; simpl; [discriminate|].
  case_bool_decide; [discriminate|]. destruct (Py.split sep s); discriminate.
Qed.

Lemma length_split (sep : ascii) (s : string) :
  length (Py.split sep s) = S (Py.count sep s).
Proof.
  induction s as [|c s IH]; simpl; [reflexivity|].
  case_bool_decide; simpl; [now rewrite IH|].
  destruct (Py.split sep s) eqn:E; simpl in *; [discriminate | exact IH].
Qed.

End StringFacts.

(** C2, as amended: [escape] is not idempotent on escaped text. It returns its
    argument unchanged exactly when the argument holds none of [&], [>], [<];
    it is idempotent exactly on such strings; and escaping once more an
    already escaped string lengthens it by four characters for every entity
    it holds. *)
Theorem escape_unchanged_iff_no_reserved (s : string) :
  (Py.escape s = s <-> has_reserved s = false)
  /\ (Py.escape (Py.escape s) = Py.escape s <-> has_reserved s = false)
  /\ String.length (Py.escape (Py.escape s))
     = String.length (Py.escape s)
       + 4 * (Py.count "&" s + Py.count ">" s + Py.count "<" s).
Proof.
  split; [apply escape_fixed_iff|]. split.
  - rewrite escape_fixed_iff, !has_reserved_count.
    rewrite count_amp_escape, count_lt_escape, count_gt_escape.
    split; [lia | intros (-> & -> & ->); auto].
  - rewrite (length_escape (Py.escape s)).
    rewrite count_amp_escape, count_lt_escape, count_gt_escape. lia.
Qed.

(** C2, as stated, fails: the escaped form of [<] is [&lt;], and escaping it
    again gives [&amp;lt;], not [&lt;]. *)
Lemma escape_twice_differs :
  Py.escape "<" = "&lt;"%string
  /\ Py.escape "&lt;" = "&amp;lt;"%string
  /\ Py.escape (Py.escape "<") <> Py.escape "<".
Proof. repeat split; [reflexivity .. | discriminate]. Qed.

(** C7: with highlighting off, or with pygments missing, [build_code_lines]
    returns the text split at newlines, every line escaped; there are as many
    lines as [text.split] has elements, one more than the text has newlines,
    and no line holds a [<], so none carries a colour annotation. *)
Theorem build_code_lines_plain (pyg : option pygments) (text filename : string)
    (highlight : bool) :
  build_code_lines pyg text filename false = map Py.escape (Py.split "010" text)
  /\ build_code_lines None text filename highlight = map Py.escape (Py.split "010" text)
  /\ length (build_code_lines pyg text filename false) = length (Py.split "010" text)
  /\ length (build_code_lines None text filename highlight) = length (Py.split "010" text)
  /\ length (Py.split "010" text) = S (Py.count "010" text)
  /\ Forall (fun line => Py.count "<" line = 0)
            (map Py.escape (Py.split "010" text)).
Proof.
  assert (H1 : build_code_lines pyg text filename false
               = map Py.escape (Py.split "010" text)) by reflexivity.
  assert (H2 : build_code_lines None text filename highlight
               = map Py.escape (Py.split "010" text)) by (now destruct highlight).
  repeat split; trivial.
  - now rewrite H1, length_map.
  - now rewrite H2, length_map.
  - apply length_split.
  - apply Forall_map, Forall_forall. intros line _. apply count_lt_escape.
Qed.

(** ** The loop over the directory parts *)

Section DirLoop.

Variable dir_parts : list string.

(** The heading emitted at index [k - 1]. *)
Let heading_at (k : nat) : flowable :=
  Paragraph (Py.join "/" (take k dir_parts))
            (if (k =? 1)%nat then "Heading1"%string else "Heading2"%string).

(** Once a heading has been emitted, every later part gets one. *)
Lemma dir_loop_diverged (rest pre : list string) (a : assembly) :
  dir_parts = pre ++ rest ->
  current_dir_parts a = pre ->
  foldl (dir_step dir_parts) a (imap (fun i x => (length pre + i, x)) rest)
  = Assembly dir_parts
             (story a ++ map heading_at (seq (S (length pre)) (length rest))).
Proof.
  revert pre a. induction rest as [|x rest IH]; intros pre a Hdp Hcur.
  - simpl. rewrite app_nil_r in Hdp. rewrite app_nil_r.
    destruct a as [c s]. simpl in *. congruence.
  - rewrite imap_cons. cbn [foldl].
    assert (Hstep : dir_step dir_parts a (length pre + 0, x)
                    = Assembly (pre ++ [x]) (story a ++ [heading_at (S (length pre))])).
    { unfold dir_step. rewrite Hcur.
      replace (length pre + 0 <? length pre)%nat with false
        by (symmetry; apply Nat.ltb_ge; lia).
      simpl andb. cbv iota. unfold heading_at.
      replace (length pre + 0 + 1) with (S (length pre)) by lia.
      assert (Ht : take (S (length pre)) dir_parts = pre ++ [x]).
      { subst dir_parts. rewrite take_app_ge by lia.
        replace (S (length pre) - length pre) with 1 by lia. reflexivity. }
      rewrite Ht.
      replace (length pre + 0 =? 0)%nat with (S (length pre) =? 1)%nat
        by (destruct (length pre); simpl; try reflexivity;
            now replace (S n + 0) with (S n) by lia).
      reflexivity. }
    rewrite Hstep.
    specialize (IH (pre ++ [x]) (Assembly (pre ++ [x]) (story a ++ [heading_at (S (length pre))]))).
    rewrite length_app in IH. simpl length in IH.
    rewrite (imap_ext _ (fun i y => (length pre + 1 + i, y))) by (intros; simpl; f_equal; lia).
    rewrite IH; [| subst; now rewrite <- app_assoc | reflexivity].
    simpl story. rewrite <- app_assoc. simpl.
    now replace (length pre + 1) with (S (length pre)) by lia.
Qed.

(** While the parts agree with the open ones nothing is emitted; at the
    first that differs the headings start. *)
Lemma dir_loop_from (rest pre : list string) (a : assembly) :
  dir_parts = pre ++ rest ->
  take (length pre) (current_dir_parts a) = pre ->
  foldl (dir_step dir_parts) a (imap (fun i x => (length pre + i, x)) rest)
  = let j := lcp (drop (length pre) (current_dir_parts a)) rest in
    if (j <? length rest)%nat
    then Assembly dir_parts
           (story a ++ map heading_at (seq (S (length pre + j)) (length rest - j)))
    else a.
Proof.
  revert pre a. induction rest as [|x rest IH]; intros pre a Hdp Hcur.
  - simpl. now destruct (drop (length pre) (current_dir_parts a)).
  - rewrite imap_cons. cbn [foldl].
    destruct (current_dir_parts a !! length pre) as [y|] eqn:Hy.
    + destruct (decide (y = x)) as [->|Hne].
      * (* the part is open already *)
        assert (Hstep : dir_step dir_parts a (length pre + 0, x) = a).
        { unfold dir_step. replace (length pre + 0) with (length pre) by lia.
          rewrite Hy. rewrite bool_decide_eq_true_2 by reflexivity.
          apply lookup_lt_Some in Hy.
          now replace (length pre <? length (current_dir_parts a))%nat with true
            by (symmetry; apply Nat.ltb_lt; lia). }
        rewrite Hstep.
        specialize (IH (pre ++ [x]) a).
        rewrite length_app in IH. simpl length in IH.
        rewrite (imap_ext _ (fun i y => (length pre + 1 + i, y))) by (intros; simpl; f_equal; lia).
        rewrite IH.
        -- rewrite (drop_S _ _ _ Hy). simpl lcp.
           rewrite bool_decide_eq_true_2 by reflexivity.
           replace (length pre + 1) with (S (length pre)) by lia.
           cbv zeta. simpl length.
           replace (S (lcp (drop (S (length pre)) (current_dir_parts a)) rest)
                    <? S (length rest))%nat
             with (lcp (drop (S (length pre)) (current_dir_parts a)) rest
                    <? length rest)%nat by reflexivity.
           destruct (_ <? _)%nat; [|reflexivity].
           f_equal. f_equal. f_equal. f_equal; lia.
        -- subst. now rewrite <- app_assoc.
        -- replace (length pre + 1) with (S (length pre)) by lia.
           rewrite (take_S_r _ _ _ Hy). now rewrite Hcur.
      * (* another directory *)
        assert (Hstep : dir_step dir_parts a (length pre + 0, x)
                        = Assembly (pre ++ [x]) (story a ++ [heading_at (S (length pre))])).
        { unfold dir_step. replace (length pre + 0) with (length pre) by lia.
          rewrite Hy. rewrite bool_decide_eq_false_2 by congruence.
          rewrite andb_false_r. unfold heading_at.
          replace (length pre + 1) with (S (length pre)) by lia.
          assert (Ht : take (S (length pre)) dir_parts = pre ++ [x]).
          { subst dir_parts. rewrite take_app_ge by lia.
            replace (S (length pre) - length pre) with 1 by lia. reflexivity. }
          rewrite Ht. now destruct (length pre). }
        rewrite Hstep.
        pose proof (dir_loop_diverged rest (pre ++ [x])
                      (Assembly (pre ++ [x]) (story a ++ [heading_at (S (length pre))]))) as HB.
        rewrite length_app in HB. simpl length in HB.
        rewrite (imap_ext _ (fun i y => (length pre + 1 + i, y))) by (intros; simpl; f_equal; lia).
        rewrite HB; [| subst; now rewrite <- app_assoc | reflexivity].
        rewrite (drop_S _ _ _ Hy). simpl lcp.
        rewrite bool_decide_eq_false_2 by congruence.
        cbv zeta. simpl. rewrite <- app_assoc. simpl.
        replace (length pre + 0) with (length pre) by lia.
        now replace (length pre + 1) with (S (length pre)) by lia.
    + (* no part is open at this depth *)
      assert (Hstep : dir_step dir_parts a (length pre + 0, x)
                      = Assembly (pre ++ [x]) (story a ++ [heading_at (S (length pre))])).
      { unfold dir_step. replace (length pre + 0) with (length pre) by lia.
        rewrite Hy. rewrite bool_decide_eq_false_2 by discriminate.
        rewrite andb_false_r. unfold heading_at.
        replace (length pre + 1) with (S (length pre)) by lia.
        assert (Ht : take (S (length pre)) dir_parts = pre ++ [x]).
        { subst dir_parts. rewrite take_app_ge by lia.
          replace (S (length pre) - length pre) with 1 by lia. reflexivity. }
        rewrite Ht. now destruct (length pre). }
      rewrite Hstep.
      pose proof (dir_loop_diverged rest (pre ++ [x])
                    (Assembly (pre ++ [x]) (story a ++ [heading_at (S (length pre))]))) as HB.
      rewrite length_app in HB. simpl length in HB.
      rewrite (imap_ext _ (fun i y => (length pre + 1 + i, y))) by (intros; simpl; f_equal; lia).
      rewrite HB; [| subst; now rewrite <- app_assoc | reflexivity].
      apply lookup_ge_None in Hy. rewrite (drop_ge _ _ Hy). simpl lcp.
      cbv zeta. simpl. rewrite <- app_assoc. simpl.
      replace (length pre + 0) with (length pre) by lia.
      now replace (length pre + 1) with (S (length pre)) by lia.
Qed.

End DirLoop.

Lemma lcp_le_r (xs ys : list string) : lcp xs ys <= length ys.
Proof.
  revert ys. induction xs as [|x xs IH]; intros [|y ys]; simpl; try lia.
  case_bool_decide; [specialize (IH ys)|]; lia.
Qed.

Lemma lcp_le_l (xs ys : list string) : lcp xs ys <= length xs.
Proof.
  revert ys. induction xs as [|x xs IH]; intros [|y ys]; simpl; try lia.
  case_bool_decide; [specialize (IH ys)|]; lia.
Qed.

(** What the loop over [enumerate(dir_parts)] comes to: a heading for every
    directory beyond the common prefix with the open parts, which then
    become [dir_parts]; nothing when [dir_parts] is a prefix of them. *)
Lemma dir_headings_spec (dir_parts : list string) (a : assembly) :
  dir_headings dir_parts a
  = Assembly (if (lcp (current_dir_parts a) dir_parts <? length dir_parts)%nat
              then dir_parts else current_dir_parts a)
             (story a ++ map dir_heading (new_dirs (current_dir_parts a) dir_parts)).
Proof.
  unfold dir_headings, enumerate.
  pose proof (dir_loop_from dir_parts dir_parts [] a eq_refl eq_refl) as H.
  simpl in H. rewrite drop_0 in H. rewrite H. clear H.
  unfold new_dirs. rewrite map_map.
  pose proof (lcp_le_r (current_dir_parts a) dir_parts) as Hle.
  destruct (_ <? _)%nat eqn:Hlt.
  - f_equal. f_equal. apply map_ext_in. intros k Hk.
    apply in_seq in Hk. unfold dir_heading.
    rewrite length_take. now replace (k `min` length dir_parts) with k by lia.
  - apply Nat.ltb_ge in Hlt.
    replace (length dir_parts - lcp (current_dir_parts a) dir_parts) with 0 by lia.
    simpl. rewrite app_nil_r. now destruct a.
Qed.

Lemma new_dirs_prefix (prev cur d : path) :
  d ∈ new_dirs prev cur ->
  d <> [] /\ d `prefix_of` cur /\ lcp prev cur < length d.
Proof.
  unfold new_dirs. rewrite list_elem_of_fmap. intros (k & -> & Hk).
  apply list_elem_of_In, in_seq in Hk.
  pose proof (lcp_le_r prev cur).
  assert (Hlen : length (take k cur) = k) by (rewrite length_take; lia).
  repeat split.
  - intros E. rewrite E in Hlen. simpl in Hlen. lia.
  - apply prefix_take.
  - lia.
Qed.

(** The story of one file: the directory headings, the file heading, the
    code and a page break. *)
Lemma file_step_spec (pyg : option pygments) (repo_root : string) (fs : node)
    (highlight show_line_numbers : bool) (a : assembly) (rel : path) :
  file_step pyg repo_root fs highlight show_line_numbers a rel
  = Assembly (if (lcp (current_dir_parts a) (removelast rel) <? length (removelast rel))%nat
              then removelast rel else current_dir_parts a)
             (story a ++ map dir_heading (new_dirs (current_dir_parts a) (removelast rel))
              ++ [ file_heading rel;
                   file_block pyg repo_root fs highlight show_line_numbers rel;
                   PageBreak ]).
Proof.
  unfold file_step. rewrite dir_headings_spec. simpl. now rewrite <- app_assoc.
Qed.

(** C9: every directory heading carries the whole relative path of its
    directory, joined by [/]: the headings that [dir_headings] appends are
    those of the prefixes of [dir_parts] beyond the open ones, each a
    non-empty prefix of [dir_parts], and the text of the heading of [d] is
    ["/".join(d)], as in [a/b] for [b] inside [a]. *)
Theorem dir_heading_text_is_joined_path (dir_parts : list string) (a : assembly) :
  story (dir_headings dir_parts a)
  = story a ++ map dir_heading (new_dirs (current_dir_parts a) dir_parts)
  /\ Forall (fun d => d <> [] /\ d `prefix_of` dir_parts)
            (new_dirs (current_dir_parts a) dir_parts)
  /\ (forall d, flowable_text (dir_heading d) = Py.join "/" d)
  /\ map flowable_text (story (dir_headings ["a"; "b"]%string (Assembly [] [])))
     = ["a"; "a/b"]%string.
Proof.
  split; [now rewrite dir_headings_spec|]. split; [|split].
  - apply Forall_forall. intros d Hd.
    apply new_dirs_prefix in Hd. tauto.
  - reflexivity.
  - reflexivity.
Qed.

(** ** The outline and the table of contents *)

Section LayoutFacts.

Variable getPlainText : string -> string.
Variable page_of : nat -> Z.

Lemma last_cons_default {A} (x : A) (l : list A) (d d' : A) :
  List.last (x :: l) d = List.last (x :: l) d'.
Proof.
  revert x. induction l as [|y l IH]; intros x; [reflexivity|].
  change (List.last (y :: l) d = List.last (y :: l) d'). apply IH.
Qed.

Lemma bounded_steps_snoc (prev x : Z) (levels : list Z) :
  bounded_steps prev levels ->
  (x <= List.last levels prev + 1)%Z ->
  bounded_steps prev (levels ++ [x]).
Proof.
  revert prev. induction levels as [|l levels IH]; intros prev Hb Hx; simpl in *.
  - auto.
  - destruct Hb as [Hl Hb]. split; [exact Hl|].
    apply IH; [exact Hb|]. destruct levels as [|z levels]; [exact Hx|].
    now rewrite (last_cons_default z levels l prev).
Qed.

Lemma doc_ok_init : doc_ok doc_init.
Proof. repeat split. Qed.

(** A heading is recorded at its nominal level or one below the last. *)
Lemma afterFlowable_heading (page : Z) (self : doc) (f : flowable)
    (name : string) (level : Z) :
  flowable_style f = Some name ->
  level_map name = Some level ->
  afterFlowable getPlainText page self f
  = let clamped := Z.min level (_last_outline_level self + 1) in
    Doc (_heading_count self + 1) clamped
        (outline self
         ++ [OutlineEntry (getPlainText (flowable_text f))
                          ("h" +:+ str_int clamped +:+ "_" +:+ Py.str (_heading_count self + 1))
                          clamped])
        (notified self ++ [TOCEntry clamped (getPlainText (flowable_text f)) page]).
Proof.
  intros Hs Hl. unfold afterFlowable. rewrite Hs, Hl. cbv zeta.
  destruct (Z.gtb_spec level (_last_outline_level self + 1)).
  - now replace (Z.min level (_last_outline_level self + 1))
      with (_last_outline_level self + 1)%Z by lia.
  - now replace (Z.min level (_last_outline_level self + 1)) with level by lia.
Qed.

Lemma afterFlowable_other (page : Z) (self : doc) (f : flowable) :
  is_heading f = false -> afterFlowable getPlainText page self f = self.
Proof.
  unfold afterFlowable, is_heading.
  destruct f as [t s|t s|t s| | |]; simpl; try reflexivity;
    destruct (level_map s); try reflexivity;
    rewrite bool_decide_eq_true_2 by eauto; discriminate.
Qed.

Lemma is_heading_level (f : flowable) :
  is_heading f = true ->
  exists name level, flowable_style f = Some name /\ level_map name = Some level.
Proof.
  destruct f as [t s|t s|t s| | |]; simpl; try discriminate;
    intros H; apply bool_decide_eq_true in H as [l Hl]; eauto.
Qed.

Lemma afterFlowable_ok (page : Z) (self : doc) (f : flowable) :
  doc_ok self -> doc_ok (afterFlowable getPlainText page self f).
Proof.
  intros (Hb & Hlast & Hlev & Htxt & Hcnt).
  destruct (is_heading f) eqn:Hh.
  - apply is_heading_level in Hh as (name & level & Hs & Hl).
    rewrite (afterFlowable_heading _ _ _ _ _ Hs Hl). cbv zeta.
    unfold doc_ok. simpl.
    rewrite !map_app. simpl. rewrite last_last.
    repeat split.
    + apply bounded_steps_snoc; [exact Hb|]. rewrite Hlast. lia.
    + now rewrite Hlev.
    + now rewrite Htxt.
    + rewrite length_app. simpl. lia.
  - rewrite afterFlowable_other by exact Hh. repeat split; assumption.
Qed.

Lemma handle_flowables_ok (story : list flowable) (i : nat) (self : doc) :
  doc_ok self -> doc_ok (handle_flowables getPlainText page_of i self story).
Proof.
  revert i self. induction story as [|f story IH]; intros i self Hok; simpl.
  - exact Hok.
  - apply IH. now apply afterFlowable_ok.
Qed.

(** The listeners hear of the headings of the story, and of nothing else. *)
Lemma handle_flowables_notified (story : list flowable) (i : nat) (self : doc) :
  map toc_text (notified (handle_flowables getPlainText page_of i self story))
  = map toc_text (notified self)
    ++ map (fun f => getPlainText (flowable_text f)) (List.filter is_heading story).
Proof.
  revert i self. induction story as [|f story IH]; intros i self; simpl.
  - now rewrite app_nil_r.
  - rewrite IH. destruct (is_heading f) eqn:Hh.
    + destruct (is_heading_level _ Hh) as (name & level & Hs & Hl).
      rewrite (afterFlowable_heading _ _ _ _ _ Hs Hl). cbv zeta. simpl.
      rewrite map_app, <- app_assoc. reflexivity.
    + now rewrite afterFlowable_other.
Qed.

End LayoutFacts.

(** C4: every entry of the outline, and of the table of contents, is at
    most one level below the entry before it, whatever the story; the first
    is at the top level. A heading whose nominal level is more than one below
    the last recorded level is recorded one below it. *)
Theorem outline_levels_step_by_one (getPlainText : string -> string)
    (page_of : nat -> Z) (story : list flowable) :
  bounded_steps (-1) (map outline_level (outline (build getPlainText page_of story)))
  /\ bounded_steps (-1) (map toc_level (notified (build getPlainText page_of story)))
  /\ (forall page self f name level,
        flowable_style f = Some name ->
        level_map name = Some level ->
        let self' := afterFlowable getPlainText page self f in
        _last_outline_level self' = Z.min level (_last_outline_level self + 1)
        /\ map outline_level (outline self')
           = map outline_level (outline self)
             ++ [Z.min level (_last_outline_level self + 1)]
        /\ map toc_level (notified self')
           = map toc_level (notified self)
             ++ [Z.min level (_last_outline_level self + 1)]).
Proof.
  destruct (handle_flowables_ok getPlainText page_of story 0 doc_init
              (doc_ok_init)) as (Hb & _ & Hlev & _).
  unfold build. split; [exact Hb|]. split; [now rewrite Hlev|].
  intros page self f name level Hs Hl. cbv zeta.
  rewrite (afterFlowable_heading _ _ _ _ _ _ Hs Hl). cbv zeta. simpl.
  rewrite !map_app. simpl. auto.
Qed.

(** ** The story and the table of contents *)

Section StoryFacts.

Variable pyg : option pygments.
Variable repo_root : string.
Variable fs : node.
Variables highlight show_line_numbers : bool.

Local Abbreviation step := (file_step pyg repo_root fs highlight show_line_numbers).

(** The loop only ever appends to the story. *)
Lemma file_loop_appends (files : list path) (c : list string) (s : list flowable) :
  foldl step (Assembly c s) files
  = Assembly (current_dir_parts (foldl step (Assembly c []) files))
             (s ++ story (foldl step (Assembly c []) files)).
Proof.
  revert c s. induction files as [|rel files IH]; intros c s; cbn [foldl].
  - simpl. now rewrite app_nil_r.
  - rewrite !file_step_spec. cbn [current_dir_parts story]. rewrite IH.
    rewrite (IH _ ([] ++ _)). cbn [current_dir_parts story].
    now rewrite <- !app_assoc.
Qed.

Lemma generate_pdf_story_split (now : string) (files : list path)
    (tree_text source_label : string) :
  generate_pdf_story pyg repo_root fs now files tree_text source_label
                     highlight show_line_numbers
  = front_matter (node_name fs) source_label now tree_text
    ++ per_file_story pyg repo_root fs highlight show_line_numbers files.
Proof.
  unfold generate_pdf_story, per_file_story.
  now rewrite file_loop_appends.
Qed.

Lemma file_block_not_heading (rel : path) :
  is_heading (file_block pyg repo_root fs highlight show_line_numbers rel) = false
  /\ is_paragraph (file_block pyg repo_root fs highlight show_line_numbers rel) = false.
Proof. unfold file_block. now destruct highlight. Qed.

Lemma dir_heading_is_heading (d : path) :
  is_heading (dir_heading d) = true /\ is_paragraph (dir_heading d) = true.
Proof. unfold dir_heading. now destruct (length d =? 1)%nat. Qed.

Lemma file_heading_is_heading (rel : path) :
  is_heading (file_heading rel) = true /\ is_paragraph (file_heading rel) = true.
Proof.
  unfold file_heading, file_heading_style. now destruct (2 <=? _)%nat.
Qed.

Lemma filter_dir_headings (f : flowable -> bool) (ds : list path) :
  (forall d, f (dir_heading d) = true) ->
  List.filter f (map dir_heading ds) = map dir_heading ds.
Proof.
  intros Hf. induction ds as [|d ds IH]; simpl; [reflexivity|].
  now rewrite Hf, IH.
Qed.

(** In the story of the files the paragraphs are the headings. *)
Lemma per_file_headings (files : list path) (c : list string) :
  List.filter is_heading (story (foldl step (Assembly c []) files))
  = List.filter is_paragraph (story (foldl step (Assembly c []) files)).
Proof.
  revert c. induction files as [|rel files IH]; intros c; cbn [foldl]; [reflexivity|].
  rewrite file_step_spec. rewrite file_loop_appends. cbn [current_dir_parts story].
  rewrite app_nil_l, !List.filter_app, IH. f_equal.
  rewrite !filter_dir_headings by apply dir_heading_is_heading.
  f_equal. cbn [List.filter].
  destruct (file_heading_is_heading rel) as [-> ->].
  destruct (file_block_not_heading rel) as [-> ->].
  reflexivity.
Qed.

End StoryFacts.

(** The notifications that [afterFlowable] sends for a story of
    [generate_pdf]: those of the two headings of the front matter,
    [Directory] and [Table of Contents], and then of every directory heading
    and file heading emitted for the files, in order, and of nothing else. *)
Lemma notified_front_and_emitted_headings
    (getPlainText : string -> string) (page_of : nat -> Z)
    (pyg : option pygments) (repo_root : string) (fs : node) (now : string)
    (files : list path) (tree_text source_label : string)
    (highlight show_line_numbers : bool) :
  let sent :=
    notified (build getPlainText page_of
                (generate_pdf_story pyg repo_root fs now files tree_text
                                    source_label highlight show_line_numbers)) in
  let headings := emitted_headings pyg repo_root fs highlight show_line_numbers files in
  map toc_text sent
  = map getPlainText
        ("Directory"%string :: "Table of Contents"%string :: map flowable_text headings)
  /\ length sent = 2 + length headings
  /\ Forall (fun f => is_heading f = true) headings.
Proof.
  cbv zeta.
  assert (Htoc : map toc_text
            (notified (build getPlainText page_of
               (generate_pdf_story pyg repo_root fs now files tree_text
                                   source_label highlight show_line_numbers)))
          = map getPlainText
              ("Directory"%string :: "Table of Contents"%string
               :: map flowable_text
                    (emitted_headings pyg repo_root fs highlight show_line_numbers files))).
  { unfold build. rewrite handle_flowables_notified. simpl.
    rewrite generate_pdf_story_split, List.filter_app.
    unfold emitted_headings, per_file_story.
    rewrite per_file_headings. simpl. now rewrite !map_map. }
  split; [exact Htoc|]. split.
  - apply (f_equal (@length string)) in Htoc.
    rewrite !length_map in Htoc. simpl in Htoc. now rewrite length_map in Htoc.
  - unfold emitted_headings, per_file_story. rewrite <- per_file_headings.
    apply Forall_forall. intros f Hf. apply list_elem_of_In, filter_In in Hf. tauto.
Qed.

(** Whatever the story, [doc.build] gives no table of contents an entry:
    nothing listens to the notifications. *)
Lemma build_reaches_no_table (getPlainText : string -> string) (page_of : nat -> Z)
    (story : list flowable) :
  table_of_contents getPlainText page_of story = []
  /\ length (toc_received getPlainText page_of MultiBuild story)
     = length (List.filter isIndexing story).
Proof. split; [reflexivity|]. unfold toc_received. now rewrite length_map. Qed.

(** C5: the code does not do what the claim says. For the repository with
    the one file [a/one.py], the headings emitted for the file are [a] and
    [a/one.py], and [afterFlowable] sends a notification for each of them
    (and for [Directory] and [Table of Contents] before them). But the story
    is laid out by [doc.build], which leaves [_indexingFlowables] empty: the
    table of contents is given no entry. Laid out by [multiBuild], the one
    table of the story would have been given the four. *)
Theorem table_of_contents_gets_no_entry :
  let story :=
    generate_pdf_story None "/r" repo_one_file "2026-01-01" [["a"; "one.py"]%string]
                       "r/" "/r" false false in
  collect_files repo_one_file (list_to_set DEFAULT_EXTS) DEFAULT_EXCLUDE_DIRS 512
  = [["a"; "one.py"]%string]
  /\ map flowable_text
         (emitted_headings None "/r" repo_one_file false false [["a"; "one.py"]%string])
     = ["a"; "a/one.py"]%string
  /\ map toc_text (notified (build (fun s => s) (fun _ => 1%Z) story))
     = ["Directory"; "Table of Contents"; "a"; "a/one.py"]%string
  /\ table_of_contents (fun s => s) (fun _ => 1%Z) story = []
  /\ map (map toc_text) (toc_received (fun s => s) (fun _ => 1%Z) MultiBuild story)
     = [["Directory"; "Table of Contents"; "a"; "a/one.py"]%string].
Proof. cbv zeta. repeat split; vm_compute; reflexivity. Qed.

(** ** The run *)

Ltac run_steps :=
  cbv [main_try bind ret raise emit set_temp_dir get_temp_dir mkdtemp
       clone_repo run generate_pdf resolved print temp_dir trace fst snd
       include_exts_of exclude_dirs_of temp_dir_of].

Lemma temp_dir_of_nonempty (w : world) :
  exists c r, temp_dir_of w = String c r.
Proof. unfold temp_dir_of. destruct (gettempdir w); simpl; eauto. Qed.

(** The [finally] never raises: it removes the temporary directory, if
    there is one, and ignores what goes wrong. *)
Lemma main_finally_spec (w : world) (s : run_state) :
  main_finally w s = (Ok tt, RunState (temp_dir s) (trace s ++ cleanup w s)).
Proof.
  unfold main_finally, cleanup, bind, get_temp_dir, rmtree, emit, ret.
  destruct s as [[[|c r]|] evs]; simpl; rewrite ?app_nil_r; try reflexivity.
  now rewrite orb_true_r.
Qed.

(** A run is the body of the [try], then the clean-up; the outcome is the
    body's. *)
Lemma run_main_spec (w : world) (a : args) :
  let body := main_try w a (include_exts_of a) (exclude_dirs_of a) (RunState None []) in
  run_main w a
  = (fst body, RunState (temp_dir (snd body)) (trace (snd body) ++ cleanup w (snd body))).
Proof.
  cbv zeta. unfold run_main, main, bind, set_temp_dir, try_finally. simpl.
  fold (include_exts_of a). fold (exclude_dirs_of a).
  destruct (main_try w a _ _ _) as [r s1]. rewrite main_finally_spec. reflexivity.
Qed.

(** C6: when the tree the run works on selects no file, the run fails with
    [NoMatchingFilesError] (the [RuntimeError] that says that no files were
    found) and writes no PDF. *)
Theorem no_files_no_pdf (w : world) (a : args) (fs : node) :
  acquired w a = Some fs ->
  collect_files fs (include_exts_of a) (exclude_dirs_of a) (max_file_size_kb a) = [] ->
  fst (run_main w a) = Raise NoMatchingFilesError
  /\ Forall (fun ev => writes_pdf ev = false) (trace (snd (run_main w a))).
Proof.
  unfold acquired. intros Hacq Hnone.
  rewrite run_main_spec. cbv zeta. cbn [fst snd trace].
  assert (Hfin : forall s, Forall (fun ev => writes_pdf ev = false) (cleanup w s)).
  { intros s. unfold cleanup. destruct (temp_dir s) as [[|c r]|]; repeat constructor. }
  rewrite Forall_app.
  destruct (is_github_url (source a)) eqn:Hurl.
  - destruct (mkdtemp_error w) eqn:Hmk; [discriminate|].
    unfold temp_dir_of in Hacq.
    destruct (subprocess_run w _) as [[[rc out] err]|e] eqn:Hrun; [|discriminate].
    destruct rc; try discriminate. injection Hacq as <-.
    revert Hnone. run_steps. rewrite Hurl, Hmk, Hrun. intros Hnone.
    rewrite bool_decide_eq_false_2 by (intros H; now apply H).
    cbv beta iota. rewrite Hnone. cbv beta iota.
    split; [reflexivity|]. split; [repeat constructor | apply Hfin].
  - destruct (resolve_error w (source a)) eqn:Hres; [discriminate|].
    destruct (exists_error w (resolve w (source a))) eqn:Hex; [discriminate|].
    revert Hnone. run_steps. rewrite Hurl, Hres. cbv beta iota.
    rewrite Hex, Hacq. intros Hnone.
    cbv beta iota. rewrite Hnone. cbv beta iota.
    split; [reflexivity|]. split; [repeat constructor | apply Hfin].
Qed.

(** C6 at work: a local directory that holds a README and a vendored file
    only selects nothing, and the run fails. *)
Lemma no_files_no_pdf_witness :
  acquired (quiet_world repo_no_source) (parse_args_defaults "/r") = Some repo_no_source
  /\ fst (run_main (quiet_world repo_no_source) (parse_args_defaults "/r"))
     = Raise NoMatchingFilesError.
Proof.
  split; [reflexivity|].
  apply (no_files_no_pdf (quiet_world repo_no_source) (parse_args_defaults "/r")
                         repo_no_source);
    vm_compute; reflexivity.
Defined.

Lemma exists_after_app (dir : string) (before : bool) (evs1 evs2 : list event) :
  exists_after dir before (evs1 ++ evs2)
  = exists_after dir (exists_after dir before evs1) evs2.
Proof.
  revert before. induction evs1 as [|ev evs1 IH]; intros before; [reflexivity|].
  destruct ev as [d|cmd|o st|l|d i [|]]; simpl; apply IH.
Qed.

(** The body of the [try], for a remote source and a [mkdtemp] that
    succeeds: the directory is made first, and [temp_dir] holds it at the
    end, however the body ends. *)
Lemma main_try_remote (w : world) (a : args) (inc exc : gset string) :
  is_github_url (source a) = true ->
  mkdtemp_error w = None ->
  temp_dir (snd (main_try w a inc exc (RunState None []))) = Some (temp_dir_of w)
  /\ head (trace (snd (main_try w a inc exc (RunState None []))))
     = Some (EvMkdtemp (temp_dir_of w)).
Proof.
  intros Hurl Hmk. run_steps. rewrite Hurl, Hmk.
  destruct (subprocess_run w _) as [[[rc out] err]|e]; [|split; reflexivity].
  destruct (bool_decide (rc <> 0%Z)); [split; reflexivity|].
  cbv beta iota.
  destruct (collect_files _ _ _ _); [split; reflexivity|].
  destruct (resolve_error w (output a)); [split; reflexivity|]. cbv beta iota.
  destruct (reportlab_installed w); cbn [negb]; [|split; reflexivity].
  destruct (story_error w _); [split; reflexivity|].
  destruct (build_error w); [split; reflexivity|]. cbv beta iota.
  destruct (print_error w _); split; reflexivity.
Qed.

(** C8: for a remote source, the temporary directory that the run makes is
    removed at its end however the body of the run ends: the removal, with
    [ignore_errors=True], is the last thing the run does; the outcome of the
    run is that of the body, so a removal that fails is not seen; and when
    the removal works the directory is gone. *)
Theorem temp_dir_removed_on_every_exit (w : world) (a : args) :
  is_github_url (source a) = true ->
  mkdtemp_error w = None ->
  head (trace (snd (run_main w a))) = Some (EvMkdtemp (temp_dir_of w))
  /\ last (trace (snd (run_main w a)))
     = Some (EvRmtree (temp_dir_of w) true (rmtree_removes w))
  /\ fst (run_main w a)
     = fst (main_try w a (include_exts_of a) (exclude_dirs_of a) (RunState None []))
  /\ (rmtree_removes w = true ->
      exists_after (temp_dir_of w) false (trace (snd (run_main w a))) = false).
Proof.
  intros Hurl Hmk. rewrite run_main_spec. cbv zeta. cbn [fst snd trace].
  destruct (main_try_remote w a (include_exts_of a) (exclude_dirs_of a) Hurl Hmk)
    as [Htmp Hhead].
  destruct (temp_dir_of_nonempty w) as (c & r & Hne).
  assert (Hclean : cleanup w (snd (main_try w a (include_exts_of a) (exclude_dirs_of a)
                                            (RunState None [])))
                   = [EvRmtree (temp_dir_of w) true (rmtree_removes w)]).
  { unfold cleanup. rewrite Htmp, Hne. reflexivity. }
  rewrite Hclean. repeat split.
  - destruct (trace _); [discriminate | exact Hhead].
  - apply last_snoc.
  - intros Hrm. rewrite exists_after_app, Hrm. simpl.
    now rewrite bool_decide_eq_true_2.
Qed.

(** C8 at work: a clone into [/tmp/gh2pdf_k3x9q2ab] that goes well ends
    with the removal of that directory. *)
Lemma temp_dir_removed_witness :
  is_github_url "https://github.com/org/repo" = true
  /\ last (trace (snd (run_main (quiet_world repo_one_file)
                                (parse_args_defaults "https://github.com/org/repo"))))
     = Some (EvRmtree "/tmp/gh2pdf_k3x9q2ab" true true).
Proof.
  split; [reflexivity|].
  apply (temp_dir_removed_on_every_exit (quiet_world repo_one_file)
           (parse_args_defaults "https://github.com/org/repo")); reflexivity.
Defined.

(** ** File selection *)

Lemma node_ind_nested (P : node -> Prop) :
  (forall name sz txt, P (File name sz txt)) ->
  (forall name entries, Forall P entries -> P (Dir name entries)) ->
  forall n, P n.
Proof.
  intros HF HD. fix IH 1. intros [name sz txt|name entries].
  - apply HF.
  - apply HD. induction entries as [|c entries IHes]; constructor.
    + apply IH.
    + exact IHes.
Qed.

(** [os.walk] only reports directories below [top] that are reached through
    directories that are not excluded. *)
Lemma walk_dirpath (exclude_dirs : gset string) (n : node) :
  forall top w, In w (walk exclude_dirs top n) ->
  exists segs, dirpath w = top ++ segs /\ Forall (fun d => d ∉ exclude_dirs) segs.
Proof.
  induction n as [name sz txt|name entries IH] using node_ind_nested;
    intros top w Hw; simpl in Hw; [contradiction|].
  destruct Hw as [<-|Hw].
  - exists []. simpl. now rewrite app_nil_r.
  - apply in_flat_map in Hw as (c & Hc & Hw).
    destruct (is_dir c && bool_decide (node_name c ∉ exclude_dirs)) eqn:Hok;
      [|contradiction].
    apply andb_true_iff in Hok as [_ Hex]. apply bool_decide_eq_true in Hex.
    rewrite Forall_forall in IH.
    destruct (IH c (proj2 (list_elem_of_In _ _) Hc) _ _ Hw) as (segs & Hp & Hs).
    exists (node_name c :: segs). split.
    + now rewrite Hp, <- app_assoc.
    + now constructor.
Qed.

(** Below 2^53 bytes a size is a float as it is, and the test of the
    ceiling is the test on the bytes. *)
Lemma over_ceiling_exact (st_size max_size_kb : Z) :
  (Z.abs st_size < 2 ^ 53)%Z ->
  over_ceiling st_size max_size_kb = false <-> (st_size <= 1024 * max_size_kb)%Z.
Proof.
  intros Hsmall. unfold over_ceiling, round53.
  rewrite (proj2 (Z.ltb_lt _ _) Hsmall). apply Z.ltb_ge.
Qed.

Lemma collect_keep_spec (root : node) (include_exts : gset string) (max_size_kb : Z)
    (p : path) :
  collect_keep root include_exts max_size_kb p = true
  <-> Py.lower (Py.suffix (List.last p EmptyString)) ∈ include_exts
      /\ exists st_size, stat root p = Some st_size
                         /\ over_ceiling st_size max_size_kb = false.
Proof.
  unfold collect_keep. case_bool_decide as Hext.
  - split; [discriminate | tauto].
  - destruct (stat root p) as [sz|].
    + rewrite negb_true_iff. split.
      * intros Hsz. split; [exact Hext|]. now exists sz.
      * intros (_ & sz' & [= <-] & Hsz). exact Hsz.
    + split; [discriminate|]. now intros (_ & sz' & [=] & _).
Qed.

Lemma in_tree_files (root : node) (include_exts exclude_dirs : gset string) (p : path) :
  In p (tree_files root include_exts exclude_dirs)
  <-> exists w filename,
        In w (walk exclude_dirs [] root)
        /\ In filename (Py.sorted (filenames w))
        /\ Py.lower (Py.suffix filename) ∈ include_exts
        /\ p = dirpath w ++ [filename].
Proof.
  unfold tree_files, tree_listed. rewrite in_flat_map. split.
  - intros (w & Hw & Hp). apply in_map_iff in Hp as (filename & <- & Hf).
    apply filter_In in Hf as [Hf Hext]. apply bool_decide_eq_true in Hext.
    now exists w, filename.
  - intros (w & filename & Hw & Hf & Hext & ->). exists w. split; [exact Hw|].
    apply in_map_iff. exists filename. split; [reflexivity|].
    apply filter_In. split; [exact Hf|]. now apply bool_decide_eq_true.
Qed.

Lemma in_collect_files (root : node) (include_exts exclude_dirs : gset string)
    (max_size_kb : Z) (p : path) :
  In p (collect_files root include_exts exclude_dirs max_size_kb)
  <-> exists w filename,
        In w (walk exclude_dirs [] root)
        /\ In filename (Py.sorted (filenames w))
        /\ p = dirpath w ++ [filename]
        /\ collect_keep root include_exts max_size_kb p = true.
Proof.
  unfold collect_files. rewrite in_flat_map. split.
  - intros (w & Hw & Hp). apply filter_In in Hp as [Hp Hkeep].
    apply in_map_iff in Hp as (filename & <- & Hf). now exists w, filename.
  - intros (w & filename & Hw & Hf & -> & Hkeep). exists w. split; [exact Hw|].
    apply filter_In. split; [|exact Hkeep].
    apply in_map_iff. now exists filename.
Qed.

Lemma tree_files_not_excluded (root : node) (include_exts exclude_dirs : gset string)
    (p : path) :
  In p (tree_files root include_exts exclude_dirs) ->
  Forall (fun d => d ∉ exclude_dirs) (removelast p).
Proof.
  rewrite in_tree_files. intros (w & filename & Hw & _ & _ & ->).
  rewrite removelast_last.
  destruct (walk_dirpath _ _ _ _ Hw) as (segs & -> & Hs). exact Hs.
Qed.

(** C1, as amended: the files of the file list are the files of the tree
    whose size [stat] can tell and whose size in kilobytes, the float
    [st_size / 1024], is not greater than the ceiling; below 2^53 bytes that
    is [st_size <= 1024 * max_size_kb], above it the float is the rounded
    quotient. The tree applies no ceiling, so it may list more. No file below
    an excluded directory is in either, and every line of the tree is that of
    a directory walked or of a listed file. *)
Theorem file_list_is_tree_within_ceiling (root : node)
    (include_exts exclude_dirs : gset string) (max_size_kb : Z) :
  (forall p,
     In p (collect_files root include_exts exclude_dirs max_size_kb)
     <-> In p (tree_files root include_exts exclude_dirs)
         /\ exists st_size, stat root p = Some st_size
                            /\ over_ceiling st_size max_size_kb = false)
  /\ (forall st_size,
        (0 <= st_size < 2 ^ 53)%Z ->
        over_ceiling st_size max_size_kb = false <-> (st_size <= 1024 * max_size_kb)%Z)
  /\ over_ceiling (2 ^ 53 + 1) (2 ^ 43) = false
  /\ (forall p, In p (tree_files root include_exts exclude_dirs) ->
                Forall (fun d => d ∉ exclude_dirs) (removelast p))
  /\ (forall p, In p (collect_files root include_exts exclude_dirs max_size_kb) ->
                Forall (fun d => d ∉ exclude_dirs) (removelast p))
  /\ length (build_tree_lines root include_exts exclude_dirs)
     = length (walk exclude_dirs [] root)
       + length (tree_files root include_exts exclude_dirs).
Proof.
  assert (Hiff : forall p,
     In p (collect_files root include_exts exclude_dirs max_size_kb)
     <-> In p (tree_files root include_exts exclude_dirs)
         /\ exists st_size, stat root p = Some st_size
                            /\ over_ceiling st_size max_size_kb = false).
  { intros p. rewrite in_collect_files, in_tree_files. split.
    - intros (w & filename & Hw & Hf & -> & Hkeep).
      apply collect_keep_spec in Hkeep as [Hext Hsz].
      rewrite last_last in Hext. split; [|exact Hsz]. now exists w, filename.
    - intros ((w & filename & Hw & Hf & Hext & ->) & Hsz).
      exists w, filename. repeat split; try assumption.
      apply collect_keep_spec. now rewrite last_last. }
  split; [exact Hiff|]. split; [|split; [|split; [|split]]].
  - intros st_size Hsz. apply over_ceiling_exact. lia.
  - vm_compute. reflexivity.
  - intros p. apply tree_files_not_excluded.
  - intros p Hp. apply Hiff in Hp as [Hp _]. revert Hp. apply tree_files_not_excluded.
  - unfold build_tree_lines, tree_files.
    induction (walk exclude_dirs [] root) as [|w ws IH]; [reflexivity|].
    cbn [flat_map]. rewrite !length_app, IH. unfold tree_lines_of.
    cbn [length]. rewrite !length_map.
    cbn [Nat.add]. f_equal. rewrite !Nat.add_assoc. f_equal. apply Nat.add_comm.
Qed.

(** C1, as stated, fails: of two files with a selected extension the one
    over the ceiling has a line in the tree and is not in the file list. *)
Lemma tree_lists_file_over_ceiling :
  tree_files repo_big_file (list_to_set DEFAULT_EXTS) DEFAULT_EXCLUDE_DIRS
  = [["a"; "one.py"]; ["b"; "two.go"]]%string
  /\ collect_files repo_big_file (list_to_set DEFAULT_EXTS) DEFAULT_EXCLUDE_DIRS 512
     = [["a"; "one.py"]]%string
  /\ build_tree_lines repo_big_file (list_to_set DEFAULT_EXTS) DEFAULT_EXCLUDE_DIRS
     = ["r/"; "  a/"; "    one.py"; "  b/"; "    two.go"]%string
  /\ ~ (forall p,
          In p (tree_files repo_big_file (list_to_set DEFAULT_EXTS) DEFAULT_EXCLUDE_DIRS)
          <-> In p (collect_files repo_big_file (list_to_set DEFAULT_EXTS)
                                  DEFAULT_EXCLUDE_DIRS 512)).
Proof.
  assert (Ht : tree_files repo_big_file (list_to_set DEFAULT_EXTS) DEFAULT_EXCLUDE_DIRS
               = [["a"; "one.py"]; ["b"; "two.go"]]%string) by (vm_compute; reflexivity).
  assert (Hc : collect_files repo_big_file (list_to_set DEFAULT_EXTS) DEFAULT_EXCLUDE_DIRS 512
               = [["a"; "one.py"]]%string) by (vm_compute; reflexivity).
  split; [exact Ht|]. split; [exact Hc|]. split; [vm_compute; reflexivity|].
  rewrite Ht, Hc. intros H.
  destruct (proj1 (H ["b"; "two.go"]%string)) as [E|[]]; [right; now left | discriminate].
Qed.

(** ** Directory headings along a list of files *)

Lemma lcp_take (xs ys : list string) :
  take (lcp xs ys) xs = take (lcp xs ys) ys.
Proof.
  revert ys. induction xs as [|x xs IH]; intros [|y ys]; simpl; try reflexivity.
  case_bool_decide; [subst; simpl; now rewrite IH | reflexivity].
Qed.

Lemma prefix_take_length (d l : list string) : d `prefix_of` l -> d = take (length d) l.
Proof. intros [k ->]. now rewrite take_app_length. Qed.

Lemma lcp_prefix_le (d xs ys : list string) :
  d `prefix_of` xs -> d `prefix_of` ys -> length d <= lcp xs ys.
Proof.
  revert xs ys. induction d as [|a d IH]; intros xs ys Hx Hy; simpl; [lia|].
  destruct xs as [|x xs]; [now apply prefix_nil_not in Hx|].
  destruct ys as [|y ys]; [now apply prefix_nil_not in Hy|].
  pose proof (prefix_cons_inv_1 _ _ _ _ Hx). pose proof (prefix_cons_inv_1 _ _ _ _ Hy).
  subst. simpl. rewrite bool_decide_eq_true_2 by reflexivity.
  apply prefix_cons_inv_2 in Hx, Hy. specialize (IH _ _ Hx Hy). lia.
Qed.

Lemma prefix_of_lcp (d xs ys : list string) :
  d `prefix_of` ys -> length d <= lcp xs ys -> d `prefix_of` xs.
Proof.
  intros Hy Hle. rewrite (prefix_take_length _ _ Hy).
  replace (take (length d) ys) with (take (length d) (take (lcp xs ys) ys))
    by (rewrite take_take; f_equal; lia).
  rewrite <- lcp_take, take_take.
  replace (length d `min` lcp xs ys) with (length d) by lia.
  apply prefix_take.
Qed.

Lemma new_dirs_iff (prev cur d : path) :
  d ∈ new_dirs prev cur <-> d <> [] /\ d `prefix_of` cur /\ ~ d `prefix_of` prev.
Proof.
  split.
  - intros Hd. apply new_dirs_prefix in Hd as (Hne & Hp & Hlt).
    repeat split; try assumption. intros Hprev.
    pose proof (lcp_prefix_le _ _ _ Hprev Hp). lia.
  - intros (Hne & Hp & Hprev). unfold new_dirs.
    apply list_elem_of_fmap. exists (length d). split.
    + now apply prefix_take_length.
    + apply list_elem_of_In, in_seq.
      pose proof (prefix_length _ _ Hp).
      destruct (le_lt_dec (length d) (lcp prev cur)) as [Hle|Hlt]; [|lia].
      exfalso. apply Hprev. now apply (prefix_of_lcp d prev cur).
Qed.

Lemma NoDup_new_dirs (prev cur : path) : NoDup (new_dirs prev cur).
Proof.
  unfold new_dirs. apply NoDup_fmap_2_strong; [|apply NoDup_seq].
  intros j k Hj Hk E.
  apply list_elem_of_In, in_seq in Hj. apply list_elem_of_In, in_seq in Hk.
  pose proof (lcp_le_r prev cur).
  apply (f_equal (@length string)) in E. rewrite !length_take in E. lia.
Qed.

Section Loop.

Variable pyg : option pygments.
Variable repo_root : string.
Variable fs : node.
Variables highlight show_line_numbers : bool.

Local Abbreviation step := (file_step pyg repo_root fs highlight show_line_numbers).

(** When no file lies in a proper prefix of the open parts, the open parts
    are the directory of the file before, and the loop is the state machine
    of the specification. *)
Lemma loop_sections (files : list path) (a : assembly) :
  adjacent_ok (current_dir_parts a) (map (@removelast string) files) ->
  foldl step a files
  = Assembly (List.last (map (@removelast string) files) (current_dir_parts a))
             (story a ++ sections pyg repo_root fs highlight show_line_numbers
                                  (current_dir_parts a) files).
Proof.
  revert a. induction files as [|rel files IH]; intros a Hadj; cbn [foldl].
  - simpl. rewrite app_nil_r. now destruct a.
  - destruct Hadj as [Hrel Hadj]. fold (map (@removelast string) files) in Hadj.
    rewrite file_step_spec.
    assert (Hcur : (if (lcp (current_dir_parts a) (removelast rel)
                        <? length (removelast rel))%nat
                    then removelast rel else current_dir_parts a) = removelast rel).
    { destruct (_ <? _)%nat eqn:Hlt; [reflexivity|]. apply Nat.ltb_ge in Hlt.
      symmetry. apply Hrel.
      apply (prefix_of_lcp _ (current_dir_parts a) (removelast rel)); [reflexivity | lia]. }
    rewrite Hcur, IH by exact Hadj.
    cbn [current_dir_parts story sections map].
    f_equal.
    + destruct (map (@removelast string) files) as [|d ds]; [reflexivity|].
      change (List.last (d :: ds) (removelast rel) = List.last (d :: ds) (current_dir_parts a)).
      apply last_cons_default.
    + now rewrite <- !app_assoc.
Qed.

End Loop.

Lemma top_down_adjacent (prev : path) (dirs : list path) :
  top_down (prev :: dirs) -> adjacent_ok prev dirs.
Proof.
  revert prev. induction dirs as [|d dirs IH]; intros prev Htd; simpl; [exact I|].
  split.
  - apply Htd. apply sublist_skip, sublist_skip, sublist_nil_l.
  - apply IH. intros x y Hs. apply Htd. now apply sublist_cons.
Qed.

Lemma top_down_nil_cons (dirs : list path) : top_down dirs -> top_down ([] :: dirs).
Proof.
  intros Htd x y Hs Hp. apply sublist_cons_r in Hs as [Hs|(l' & E & Hs)].
  - now apply Htd.
  - injection E as -> <-. now apply prefix_nil_inv in Hp.
Qed.

Lemma heading_dirs_app (prev : path) (before after : list path) :
  heading_dirs prev (before ++ after)
  = heading_dirs prev before ++ heading_dirs (List.last before prev) after.
Proof.
  revert prev. induction before as [|d before IH]; intros prev; [reflexivity|].
  simpl heading_dirs. rewrite IH, <- app_assoc. do 2 f_equal.
  destruct before as [|p before]; [reflexivity|].
  change (heading_dirs (List.last (p :: before) d) after
          = heading_dirs (List.last (p :: before) prev) after).
  now rewrite (last_cons_default p before d prev).
Qed.

Lemma in_heading_dirs_prefix (e prev : path) (dirs : list path) :
  e ∈ heading_dirs prev dirs -> e <> [] /\ exists g, g ∈ dirs /\ e `prefix_of` g.
Proof.
  revert prev. induction dirs as [|d dirs IH]; intros prev He; simpl in He.
  - now apply elem_of_nil in He.
  - apply elem_of_app in He as [He|He].
    + apply new_dirs_iff in He as (Hne & Hp & _). split; [exact Hne|].
      exists d. split; [left | exact Hp].
    + destruct (IH _ He) as (Hne & g & Hg & Hp). split; [exact Hne|].
      exists g. split; [now right | exact Hp].
Qed.

Lemma in_heading_dirs_first (e prev : path) (dirs : list path) :
  (exists g, g ∈ dirs /\ e `prefix_of` g) -> ~ e `prefix_of` prev ->
  e ∈ heading_dirs prev dirs.
Proof.
  revert prev. induction dirs as [|d dirs IH]; intros prev (g & Hg & Hp) Hprev.
  - now apply elem_of_nil in Hg.
  - simpl. apply elem_of_app.
    destruct (decide (e `prefix_of` d)) as [Hd|Hd].
    + left. apply new_dirs_iff. repeat split; try assumption.
      intros ->. apply Hprev, prefix_nil.
    + right. apply IH; [|exact Hd]. exists g. split; [|exact Hp].
      apply elem_of_cons in Hg as [->|Hg]; [contradiction | exact Hg].
Qed.

Lemma no_return_app_l (before after : list path) :
  no_return (before ++ after) -> no_return before.
Proof. intros H x y z d Hs. apply H. now apply sublist_inserts_r. Qed.

(** A directory gets its heading before the first file below it. *)
Lemma new_dirs_first_time (before after : list path) (d e : path) :
  no_return (before ++ d :: after) ->
  e ∈ new_dirs (List.last before []) d
  <-> e <> [] /\ e `prefix_of` d /\ forall g, g ∈ before -> ~ e `prefix_of` g.
Proof.
  intros Hnr. rewrite new_dirs_iff.
  induction before as [|prev before' _] using rev_ind.
  - simpl. split.
    + intros (Hne & Hp & _). repeat split; try assumption.
      intros g Hg. now apply elem_of_nil in Hg.
    + intros (Hne & Hp & _). repeat split; try assumption.
      intros Hn. apply prefix_nil_inv in Hn. contradiction.
  - rewrite last_last. split.
    + intros (Hne & Hp & Hprev). repeat split; try assumption.
      intros g Hg Hpg. apply Hprev.
      apply elem_of_app in Hg as [Hg|Hg].
      * apply (Hnr g prev d e); try assumption.
        rewrite <- app_assoc. simpl.
        apply (sublist_app [g] before' [prev; d] (prev :: d :: after)).
        -- apply list_elem_of_split in Hg as (l1 & l2 & ->).
           apply sublist_inserts_l, sublist_skip, sublist_nil_l.
        -- apply sublist_skip, sublist_skip, sublist_nil_l.
      * apply list_elem_of_singleton in Hg. now subst.
    + intros (Hne & Hp & Hall). repeat split; try assumption.
      apply Hall. apply elem_of_app. right. now left.
Qed.

Lemma NoDup_heading_dirs (dirs : list path) :
  no_return dirs -> NoDup (heading_dirs [] dirs).
Proof.
  induction dirs as [|d dirs IH] using rev_ind; intros Hnr; [constructor|].
  rewrite heading_dirs_app. simpl. rewrite app_nil_r.
  apply NoDup_app. repeat split.
  - apply IH. now apply no_return_app_l in Hnr.
  - intros e He Hn.
    apply in_heading_dirs_prefix in He as (_ & g & Hg & Hp).
    apply (new_dirs_first_time dirs [] d e Hnr) in Hn as (_ & _ & Hall).
    now apply (Hall g).
  - apply NoDup_new_dirs.
Qed.

(** ** The order of the walk *)

Lemma prefix_diverge (top d r r' : list string) (a b : string) :
  d `prefix_of` top ++ a :: r -> d `prefix_of` top ++ b :: r' -> a <> b ->
  d `prefix_of` top.
Proof.
  revert d. induction top as [|t top IH]; intros d Ha Hb Hne; simpl in *.
  - destruct d as [|x d]; [apply prefix_nil|].
    apply prefix_cons_inv_1 in Ha, Hb. congruence.
  - destruct d as [|x d]; [apply prefix_nil|].
    pose proof (prefix_cons_inv_1 _ _ _ _ Ha) as ->.
    apply prefix_cons_inv_2 in Ha, Hb. apply prefix_cons. now apply IH.
Qed.

Lemma top_down_nil : top_down [].
Proof. intros x y Hs. now apply sublist_nil_r in Hs. Qed.

Lemma no_return_nil : no_return [].
Proof. intros x y z d Hs. now apply sublist_nil_r in Hs. Qed.

(** Two runs of directories, one after the other, that share nothing below
    [top]. *)
Lemma ordered_app (top : path) (A B : list path) :
  top_down A -> no_return A -> top_down B -> no_return B ->
  (forall x, x ∈ A -> top `prefix_of` x) ->
  (forall z, z ∈ B -> top `prefix_of` z) ->
  (forall x z d, x ∈ A -> z ∈ B -> d `prefix_of` x -> d `prefix_of` z ->
                 d `prefix_of` top) ->
  (forall x z, x ∈ A -> z ∈ B -> z `prefix_of` x -> z = x) ->
  top_down (A ++ B) /\ no_return (A ++ B).
Proof.
  intros HtA HnA HtB HnB HA HB Hdiv Hanti. split.
  - intros x y Hs Hp.
    apply sublist_app_r in Hs as (l1 & l2 & E & H1 & H2).
    destruct l1 as [|a [|b [|c l1]]]; simpl in E.
    + subst l2. now apply HtB.
    + injection E as <- <-. apply Hanti; [| |exact Hp].
      * apply (elem_of_sublist [x]); [left | exact H1].
      * apply (elem_of_sublist [y]); [left | exact H2].
    + injection E as <- <- <-. now apply HtA.
    + discriminate E.
  - intros x y z d Hs Hx Hz.
    apply sublist_app_r in Hs as (l1 & l2 & E & H1 & H2).
    destruct l1 as [|a [|b [|c [|e l1]]]]; simpl in E.
    + subst l2. now apply (HnB x y z).
    + injection E as <- <-.
      assert (Hxa : x ∈ A) by (apply (elem_of_sublist [x]); [left | exact H1]).
      assert (Hzb : z ∈ B) by (apply (elem_of_sublist [y; z]); [right; left | exact H2]).
      assert (Hyb : y ∈ B) by (apply (elem_of_sublist [y; z]); [left | exact H2]).
      transitivity top; [now apply (Hdiv x z) | now apply HB].
    + injection E as <- <- <-.
      assert (Hxa : x ∈ A) by (apply (elem_of_sublist [x; y]); [left | exact H1]).
      assert (Hya : y ∈ A) by (apply (elem_of_sublist [x; y]); [right; left | exact H1]).
      assert (Hzb : z ∈ B) by (apply (elem_of_sublist [z]); [left | exact H2]).
      transitivity top; [now apply (Hdiv x z) | now apply HA].
    + injection E as <- <- <- <-. now apply (HnA x y z).
    + discriminate E.
Qed.

Section WalkOrder.

Context {X : Type}.
Variable kept : walked -> list X.
Variable exclude_dirs : gset string.

Lemma dirs_of_app (ws1 ws2 : list walked) :
  dirs_of kept (ws1 ++ ws2) = dirs_of kept ws1 ++ dirs_of kept ws2.
Proof. unfold dirs_of. apply flat_map_app. Qed.

Lemma dirs_of_flat_map {C} (g : C -> list walked) (cs : list C) :
  dirs_of kept (flat_map g cs) = flat_map (fun c => dirs_of kept (g c)) cs.
Proof.
  induction cs as [|c cs IH]; [reflexivity|].
  simpl. now rewrite dirs_of_app, IH.
Qed.

Lemma in_dirs_of (x : path) (ws : list walked) :
  x ∈ dirs_of kept ws -> exists w, In w ws /\ x = dirpath w.
Proof.
  unfold dirs_of. rewrite list_elem_of_In, in_flat_map.
  intros (w & Hw & Hx). apply in_map_iff in Hx as (_ & <- & _). now exists w.
Qed.

Lemma dirs_of_walk_below (n : node) (top x : path) :
  x ∈ dirs_of kept (walk exclude_dirs top n) -> top `prefix_of` x.
Proof.
  intros Hx. apply in_dirs_of in Hx as (w & Hw & ->).
  destruct (walk_dirpath _ _ _ _ Hw) as (segs & -> & _). now exists segs.
Qed.

(** The walk of the sub-directories of one directory. *)
Lemma walk_children_ordered (top : path) (entries : list node) :
  NoDup (map node_name entries) ->
  Forall (fun c => forall top', top_down (dirs_of kept (walk exclude_dirs top' c))
                                /\ no_return (dirs_of kept (walk exclude_dirs top' c)))
         entries ->
  let below :=
    flat_map (fun c => dirs_of kept
                         (if is_dir c && bool_decide (node_name c ∉ exclude_dirs)
                          then walk exclude_dirs (top ++ [node_name c]) c else []))
             entries in
  top_down below /\ no_return below
  /\ forall x, x ∈ below ->
               exists c, c ∈ entries /\ top ++ [node_name c] `prefix_of` x.
Proof.
  cbv zeta. induction entries as [|c entries IH]; intros Hnd Hall.
  - simpl. split; [apply top_down_nil|]. split; [apply no_return_nil|].
    intros x Hx. now apply elem_of_nil in Hx.
  - simpl in Hnd. apply NoDup_cons in Hnd as [Hc Hnd].
    apply Forall_cons in Hall as [Hhere Hall].
    destruct (IH Hnd Hall) as (Htd & Hnr & Hbelow). clear IH.
    simpl flat_map.
    set (A := dirs_of kept
                (if is_dir c && bool_decide (node_name c ∉ exclude_dirs)
                 then walk exclude_dirs (top ++ [node_name c]) c else [])).
    assert (HA : forall x, x ∈ A -> top ++ [node_name c] `prefix_of` x).
    { intros x Hx. subst A. destruct (_ && _).
      - now apply dirs_of_walk_below in Hx.
      - now apply elem_of_nil in Hx. }
    assert (HordA : top_down A /\ no_return A).
    { subst A. destruct (_ && _); [apply Hhere|].
      split; [apply top_down_nil | apply no_return_nil]. }
    destruct HordA as [HtA HnA].
    destruct (ordered_app top A _ HtA HnA Htd Hnr) as [Ht Hn].
    + intros x Hx. apply HA in Hx. eapply prefix_app_l, Hx.
    + intros z Hz. apply Hbelow in Hz as (c' & _ & Hz). eapply prefix_app_l, Hz.
    + intros x z d Hx Hz Hdx Hdz.
      apply HA in Hx as [r ->]. apply Hbelow in Hz as (c' & Hc' & [r' ->]).
      rewrite <- app_assoc in Hdx, Hdz. simpl in Hdx, Hdz.
      apply (prefix_diverge _ _ _ _ _ _ Hdx Hdz).
      intros E. apply Hc. rewrite E. apply list_elem_of_fmap. now exists c'.
    + intros x z Hx Hz Hzx. exfalso.
      apply HA in Hx as [r ->]. apply Hbelow in Hz as (c' & Hc' & [r' ->]).
      rewrite <- !app_assoc in Hzx. simpl in Hzx.
      apply prefix_app_inv, prefix_cons_inv_1 in Hzx.
      apply Hc. rewrite <- Hzx. apply list_elem_of_fmap. now exists c'.
    + split; [exact Ht|]. split; [exact Hn|].
      intros x Hx. apply elem_of_app in Hx as [Hx|Hx].
      * exists c. split; [left | now apply HA].
      * apply Hbelow in Hx as (c' & Hc' & Hp). exists c'. split; [now right | exact Hp].
Qed.

(** In a tree whose directories have no two entries of one name, the walk
    is top down and never returns. *)
Lemma walk_ordered (n : node) :
  wf n = true ->
  forall top, top_down (dirs_of kept (walk exclude_dirs top n))
              /\ no_return (dirs_of kept (walk exclude_dirs top n)).
Proof.
  induction n as [name sz txt|name entries IH] using node_ind_nested; intros Hwf top.
  - simpl. split; [apply top_down_nil | apply no_return_nil].
  - simpl in Hwf. apply andb_true_iff in Hwf as [Hnd Hwf].
    apply bool_decide_eq_true in Hnd. rewrite forallb_forall in Hwf.
    assert (Hall : Forall (fun c => forall top',
                     top_down (dirs_of kept (walk exclude_dirs top' c))
                     /\ no_return (dirs_of kept (walk exclude_dirs top' c))) entries).
    { rewrite Forall_forall in IH |- *. intros c Hc. apply IH; [exact Hc|].
      apply Hwf. now apply list_elem_of_In. }
    destruct (walk_children_ordered top entries Hnd Hall) as (Htd & Hnr & Hbelow).
    cbn [walk]. unfold dirs_of at 1 2. cbn [flat_map dirpath].
    change (flat_map (fun w => map (fun _ => dirpath w) (kept w))) with (dirs_of kept).
    rewrite dirs_of_flat_map.
    set (here := map (fun _ => top) _).
    assert (Hhere : forall x, x ∈ here -> x = top).
    { intros x Hx. subst here. apply list_elem_of_fmap in Hx as (? & -> & _). reflexivity. }
    apply (ordered_app top).
    + intros x y Hs _.
      rewrite (Hhere x), (Hhere y); [reflexivity | |].
      * apply (elem_of_sublist [x; y]); [right; left | exact Hs].
      * apply (elem_of_sublist [x; y]); [left | exact Hs].
    + intros x y z d Hs Hx _.
      rewrite (Hhere y); [rewrite <- (Hhere x); [exact Hx|] |].
      * apply (elem_of_sublist [x; y; z]); [left | exact Hs].
      * apply (elem_of_sublist [x; y; z]); [right; left | exact Hs].
    + exact Htd.
    + exact Hnr.
    + intros x Hx. now rewrite (Hhere x Hx).
    + intros z Hz. apply Hbelow in Hz as (c & _ & Hp). eapply prefix_app_l, Hp.
    + intros x z d Hx _ Hd _. now rewrite <- (Hhere x Hx).
    + intros x z Hx Hz Hzx. rewrite (Hhere x Hx) in *.
      apply Hbelow in Hz as (c & _ & Hp). apply prefix_app_l in Hp.
      apply prefix_length_eq; [exact Hzx|]. now apply prefix_length.
Qed.

End WalkOrder.

(** ** One heading for every directory *)

Lemma collect_files_dirs (root : node) (include_exts exclude_dirs : gset string)
    (max_size_kb : Z) :
  map (@removelast string) (collect_files root include_exts exclude_dirs max_size_kb)
  = dirs_of (fun w => List.filter (collect_keep root include_exts max_size_kb)
                        (map (fun filename => dirpath w ++ [filename])
                             (Py.sorted (filenames w))))
            (walk exclude_dirs [] root).
Proof.
  unfold collect_files, dirs_of.
  induction (walk exclude_dirs [] root) as [|w ws IH]; [reflexivity|].
  cbn [flat_map]. rewrite List.map_app. f_equal; [|exact IH].
  apply map_ext_in. intros p Hp.
  apply filter_In in Hp as [Hp _]. apply in_map_iff in Hp as (filename & <- & _).
  apply removelast_last.
Qed.

(** C3: for the files in the order of the selector, in a tree whose
    directories have no two entries of one name, the story is that of the
    state machine: before every file a heading for each directory from the
    first point at which its directory parts differ from those of the file
    before it, the open parts being those of that file. No directory gets
    two headings; the directories with a heading are those with a selected
    file below them; and a directory gets its heading at the first file
    below it. *)
Theorem directory_headings_once_in_walk_order (pyg : option pygments)
    (repo_root : string) (root : node) (now : string)
    (include_exts exclude_dirs : gset string) (max_size_kb : Z)
    (tree_text source_label : string) (highlight show_line_numbers : bool) :
  wf root = true ->
  let files := collect_files root include_exts exclude_dirs max_size_kb in
  let dirs := map (@removelast string) files in
  generate_pdf_story pyg repo_root root now files tree_text source_label
                     highlight show_line_numbers
  = front_matter (node_name root) source_label now tree_text
    ++ sections pyg repo_root root highlight show_line_numbers [] files
  /\ NoDup (heading_dirs [] dirs)
  /\ (forall d, d ∈ heading_dirs [] dirs
                <-> d <> [] /\ exists rel, rel ∈ files /\ d `prefix_of` removelast rel)
  /\ (forall before rel after d,
        files = before ++ rel :: after ->
        d ∈ new_dirs (List.last (map (@removelast string) before) []) (removelast rel)
        <-> d <> [] /\ d `prefix_of` removelast rel
            /\ forall g, g ∈ before -> ~ d `prefix_of` removelast g).
Proof.
  intros Hwf. cbv zeta.
  remember (collect_files root include_exts exclude_dirs max_size_kb) as files eqn:Hfiles.
  assert (Hord : top_down (map (@removelast string) files)
                 /\ no_return (map (@removelast string) files)).
  { subst files. rewrite collect_files_dirs. now apply walk_ordered. }
  destruct Hord as [Htd Hnr]. split; [|split; [|split]].
  - rewrite generate_pdf_story_split. f_equal. unfold per_file_story.
    rewrite loop_sections; [reflexivity|].
    apply top_down_adjacent, top_down_nil_cons, Htd.
  - now apply NoDup_heading_dirs.
  - intros d. split.
    + intros Hd. apply in_heading_dirs_prefix in Hd as (Hne & g & Hg & Hp).
      split; [exact Hne|]. apply list_elem_of_fmap in Hg as (rel & -> & Hrel).
      now exists rel.
    + intros (Hne & rel & Hrel & Hp). apply in_heading_dirs_first.
      * exists (removelast rel). split; [|exact Hp].
        apply list_elem_of_fmap. now exists rel.
      * intros Hn. now apply prefix_nil_inv in Hn.
  - intros before rel after d E.
    rewrite E, List.map_app in Hnr. cbn [map] in Hnr.
    rewrite (new_dirs_first_time _ _ _ _ Hnr). split.
    + intros (Hne & Hp & Hall). repeat split; try assumption.
      intros g Hg. apply Hall. apply list_elem_of_fmap. now exists g.
    + intros (Hne & Hp & Hall). repeat split; try assumption.
      intros g Hg. apply list_elem_of_fmap in Hg as (g' & -> & Hg'). now apply Hall.
Qed.

(** C3 at work: the repository with files in the root, in [a], [a/b] and
    [c/d/e] gets the five directory headings once each. *)
Lemma directory_headings_once_witness :
  wf repo_nested = true
  /\ heading_dirs [] (map (@removelast string)
                         (collect_files repo_nested (list_to_set DEFAULT_EXTS)
                                        DEFAULT_EXCLUDE_DIRS 512))
     = [["a"]; ["a"; "b"]; ["c"]; ["c"; "d"]; ["c"; "d"; "e"]]%string
  /\ NoDup (heading_dirs [] (map (@removelast string)
                                 (collect_files repo_nested (list_to_set DEFAULT_EXTS)
                                                DEFAULT_EXCLUDE_DIRS 512))).
Proof.
  split; [vm_compute; reflexivity|]. split; [vm_compute; reflexivity|].
  apply (directory_headings_once_in_walk_order None "/proj" repo_nested "2026-01-01"
           (list_to_set DEFAULT_EXTS) DEFAULT_EXCLUDE_DIRS 512 "proj/" "/proj" true true).
  vm_compute; reflexivity.
Defined.

(** Outside the order of the selector the loop is not that state machine:
    a file in [a] after a file in [a/b] leaves [a/b] open, so a later file
    in [a/b] gets no second heading for it. *)
Example headings_off_walk_order :
  map flowable_text
      (emitted_headings None "/r" repo_one_file false false
         [ ["a"; "b"; "f.py"]; ["a"; "g.py"]; ["a"; "b"; "h.py"] ]%string)
  = ["a"; "a/b"; "a/b/f.py"; "a/g.py"; "a/b/h.py"]%string.
Proof. vm_compute. reflexivity. Qed.

(** ** The clamp never fires on a story of the program *)

Lemma bounded_steps_app (prev : Z) (l1 l2 : list Z) :
  bounded_steps prev (l1 ++ l2)
  <-> bounded_steps prev l1 /\ bounded_steps (List.last l1 prev) l2.
Proof.
  revert prev. induction l1 as [|x l1 IH]; intros prev; simpl.
  - tauto.
  - rewrite IH. destruct l1 as [|y l1]; [simpl; tauto|].
    rewrite (last_cons_default y l1 x prev). tauto.
Qed.

Section NoClamp.

Variable getPlainText : string -> string.
Variable page_of : nat -> Z.

(** A story whose nominal levels never step down by more than one is
    recorded at its nominal levels. *)
Lemma handle_flowables_nominal (story : list flowable) (i : nat) (self : doc) :
  bounded_steps (_last_outline_level self) (nominal_levels story) ->
  map toc_level (notified (handle_flowables getPlainText page_of i self story))
  = map toc_level (notified self) ++ nominal_levels story.
Proof.
  revert i self. induction story as [|f story IH]; intros i self Hb.
  - simpl. now rewrite app_nil_r.
  - cbn [handle_flowables]. unfold nominal_levels in *. cbn [List.filter] in *.
    destruct (is_heading f) eqn:Hh.
    + destruct (is_heading_level _ Hh) as (name & level & Hs & Hl).
      cbn [map] in Hb. destruct Hb as [Hle Hb].
      assert (Hnom : nominal_level f = level) by (unfold nominal_level; now rewrite Hs, Hl).
      rewrite Hnom in *.
      rewrite (afterFlowable_heading _ _ _ _ _ _ Hs Hl) in *. cbv zeta in *.
      replace (Z.min level (_last_outline_level self + 1)) with level in * by lia.
      rewrite IH by exact Hb. cbn [notified map]. rewrite map_app, <- app_assoc.
      cbn [map]. now rewrite Hnom.
    + rewrite afterFlowable_other by exact Hh. now apply IH.
Qed.

End NoClamp.

Section StoryLevels.

Variable pyg : option pygments.
Variable repo_root : string.
Variable fs : node.
Variables highlight show_line_numbers : bool.

Local Abbreviation step := (file_step pyg repo_root fs highlight show_line_numbers).

Lemma nominal_levels_app (s1 s2 : list flowable) :
  nominal_levels (s1 ++ s2) = nominal_levels s1 ++ nominal_levels s2.
Proof. unfold nominal_levels. now rewrite List.filter_app, List.map_app. Qed.

Lemma nominal_levels_dirs (ds : list path) :
  nominal_levels (map dir_heading ds)
  = map (fun d => if (length d =? 1)%nat then 0%Z else 1%Z) ds.
Proof.
  unfold nominal_levels.
  rewrite filter_dir_headings by (intros d; apply dir_heading_is_heading).
  rewrite map_map. apply map_ext. intros d. unfold dir_heading, nominal_level.
  now destruct (length d =? 1)%nat.
Qed.

Lemma nominal_levels_file (rel : path) :
  nominal_levels [ file_heading rel;
                   file_block pyg repo_root fs highlight show_line_numbers rel;
                   PageBreak ]
  = [if (2 <=? length (removelast rel))%nat then 2%Z else 1%Z].
Proof.
  unfold nominal_levels. cbn [List.filter].
  rewrite (proj1 (file_heading_is_heading rel)).
  rewrite (proj1 (file_block_not_heading pyg repo_root fs highlight show_line_numbers rel)).
  cbn [is_heading List.filter map].
  unfold file_heading, file_heading_style, nominal_level. cbn [flowable_style].
  now destruct (2 <=? length (removelast rel))%nat.
Qed.

(** The headings of the directories entered: the last is that of the
    directory of the file. *)
Lemma dir_levels_bounded (prev cur : path) (p : Z) :
  (0 <= p)%Z ->
  let levels := map (fun d => if (length d =? 1)%nat then 0%Z else 1%Z)
                    (new_dirs prev cur) in
  bounded_steps p levels
  /\ (0 <= List.last levels p)%Z
  /\ (new_dirs prev cur <> [] -> 2 <= length cur -> List.last levels p = 1%Z).
Proof.
  intros Hp. cbv zeta. unfold new_dirs. rewrite map_map.
  pose proof (lcp_le_r prev cur) as Hle.
  remember (length cur - lcp prev cur) as n eqn:Hn.
  assert (Hend : S (lcp prev cur) + n = S (length cur)) by lia.
  clear Hn. revert p Hp Hend. generalize (S (lcp prev cur)) as j.
  induction n as [|n IH]; intros j p Hp Hend; cbn [seq map].
  - cbn. repeat split; try lia. intros H. now contradiction H.
  - assert (Hlen : length (take j cur) = j) by (rewrite length_take; lia).
    rewrite Hlen.
    set (l := if (j =? 1)%nat then 0%Z else 1%Z).
    assert (Hl : (0 <= l <= 1)%Z) by (subst l; destruct (j =? 1)%nat; lia).
    destruct (IH (S j) l) as (Hb & Hlast & Hcur); [lia | lia |].
    cbn [bounded_steps]. split; [split; [lia | exact Hb]|].
    destruct n as [|n].
    + cbn in *. split; [lia|]. intros _ H2. subst l.
      replace j with (length cur) by lia.
      destruct (length cur =? 1)%nat eqn:E; [apply Nat.eqb_eq in E; lia | reflexivity].
    + cbn [seq map] in *.
      rewrite (last_cons_default _ _ p l). split; [exact Hlast|].
      intros _ H2. apply Hcur; [discriminate | exact H2].
Qed.

Lemma new_dirs_from_root (cur : path) : 1 <= length cur -> new_dirs [] cur <> [].
Proof.
  unfold new_dirs. simpl. rewrite Nat.sub_0_r.
  destruct (length cur); [lia|]. discriminate.
Qed.

(** After a file the last level is that of a file heading; before the
    first file it is that of the front matter and no directory is open. *)
Lemma per_file_levels_bounded (files : list path) (c : list string) (p : Z) :
  (1 <= p)%Z \/ (c = [] /\ (0 <= p)%Z) ->
  bounded_steps p (nominal_levels (story (foldl step (Assembly c []) files))).
Proof.
  revert c p. induction files as [|rel files IH]; intros c p Hinv; cbn [foldl].
  - exact I.
  - rewrite file_step_spec, file_loop_appends. cbn [current_dir_parts story].
    rewrite app_nil_l, !nominal_levels_app, nominal_levels_dirs, nominal_levels_file.
    assert (Hp : (0 <= p)%Z) by lia.
    destruct (dir_levels_bounded c (removelast rel) p Hp) as (Hb & Hlast & Hcur).
    set (levels := map (fun d : list string => if (length d =? 1)%nat then 0%Z else 1%Z)
                       (new_dirs c (removelast rel))) in *.
    set (fl := if (2 <=? length (removelast rel))%nat then 2%Z else 1%Z).
    assert (Hfl : (1 <= fl)%Z) by (subst fl; destruct (2 <=? _)%nat; lia).
    assert (Hstep : (fl <= List.last levels p + 1)%Z).
    { subst fl. destruct (2 <=? length (removelast rel))%nat eqn:E; [|lia].
      apply Nat.leb_le in E.
      destruct (new_dirs c (removelast rel)) as [|d ds] eqn:Hnd.
      - subst levels. cbn. destruct Hinv as [Hinv|[-> _]]; [lia|].
        exfalso. revert Hnd. apply new_dirs_from_root. lia.
      - rewrite Hcur; [lia | discriminate | exact E]. }
    rewrite <- app_assoc. apply bounded_steps_app. split; [exact Hb|].
    apply (bounded_steps_app _ [fl]). split; [cbn; lia|].
    cbn [List.last]. apply IH. left. exact Hfl.
Qed.

End StoryLevels.

Lemma nominal_levels_front (title source_label now tree_text : string) :
  nominal_levels (front_matter title source_label now tree_text) = [0%Z; 0%Z].
Proof. vm_compute. reflexivity. Qed.

(** Every story of [generate_pdf] is recorded at the nominal levels of its
    headings: the clamp of [afterFlowable] never changes a level. *)
Lemma story_levels_are_nominal (getPlainText : string -> string) (page_of : nat -> Z)
    (pyg : option pygments) (repo_root : string) (fs : node) (now : string)
    (files : list path) (tree_text source_label : string)
    (highlight show_line_numbers : bool) :
  map toc_level
      (notified (build getPlainText page_of
                   (generate_pdf_story pyg repo_root fs now files tree_text
                                       source_label highlight show_line_numbers)))
  = nominal_levels (generate_pdf_story pyg repo_root fs now files tree_text
                                       source_label highlight show_line_numbers).
Proof.
  unfold build. rewrite handle_flowables_nominal; [reflexivity|].
  rewrite generate_pdf_story_split, nominal_levels_app, nominal_levels_front.
  apply bounded_steps_app. split.
  - cbn. lia.
  - unfold per_file_story. apply per_file_levels_bounded. right. split; [reflexivity|].
    cbn. lia.
Qed.

(** ** The level of a file heading *)

(** C10: the level of a file's heading depends on its directory depth only:
    [Heading3], the third level, for two directory parts or more, and
    [Heading2], the second level, for one or none. A file in the root gets
    its [Heading2] heading with no directory heading before it. The outline
    and the table of contents record every heading of the story at the level
    of its style: the clamp of [afterFlowable] never changes it. *)
Theorem file_heading_level_by_depth (getPlainText : string -> string)
    (page_of : nat -> Z) (pyg : option pygments) (repo_root : string)
    (fs : node) (now : string) (files : list path) (tree_text source_label : string)
    (highlight show_line_numbers : bool) (a : assembly) (rel : path) :
  story (file_step pyg repo_root fs highlight show_line_numbers a rel)
  = story a
    ++ map dir_heading (new_dirs (current_dir_parts a) (removelast rel))
    ++ [ Paragraph (Py.join "/" rel) (file_heading_style (removelast rel));
         file_block pyg repo_root fs highlight show_line_numbers rel;
         PageBreak ]
  /\ (2 <= length (removelast rel) ->
      file_heading_style (removelast rel) = "Heading3"%string
      /\ level_map (file_heading_style (removelast rel)) = Some 2%Z)
  /\ (length (removelast rel) <= 1 ->
      file_heading_style (removelast rel) = "Heading2"%string
      /\ level_map (file_heading_style (removelast rel)) = Some 1%Z)
  /\ (forall name,
      story (file_step pyg repo_root fs highlight show_line_numbers a [name])
      = story a
        ++ [ Paragraph name "Heading2";
             file_block pyg repo_root fs highlight show_line_numbers [name];
             PageBreak ])
  /\ map toc_level
         (notified (build getPlainText page_of
                      (generate_pdf_story pyg repo_root fs now files tree_text
                                          source_label highlight show_line_numbers)))
     = nominal_levels (generate_pdf_story pyg repo_root fs now files tree_text
                                          source_label highlight show_line_numbers).
Proof.
  split; [now rewrite file_step_spec|]. split; [|split; [|split]].
  - intros H. unfold file_heading_style.
    replace (2 <=? length (removelast rel))%nat with true
      by (symmetry; apply Nat.leb_le; lia).
    split; reflexivity.
  - intros H. unfold file_heading_style.
    replace (2 <=? length (removelast rel))%nat with false
      by (symmetry; apply Nat.leb_gt; lia).
    split; reflexivity.
  - intros name. rewrite file_step_spec. simpl.
    unfold new_dirs. simpl.
    destruct (current_dir_parts a); reflexivity.
  - apply story_levels_are_nominal.
Qed.

(** ** Recognising a GitHub address *)

Lemma strip_prefix_spec (p s r : string) :
  Py.strip_prefix p s = Some r <-> s = p +:+ r.
Proof.
  revert s. induction p as [|a p IH]; intros s; simpl.
  - split; [now intros [= ->] | now intros ->].
  - destruct s as [|b s]; [split; discriminate|].
    case_bool_decide as Hab.
    + subst b. rewrite IH. split; [now intros -> | now intros [= ->]].
    + split; [discriminate | intros E; injection E as E1 E2; congruence].
Qed.

(** [is_github_url] accepts exactly the strings that start with the scheme
    [http://] or [https://], then [www.] or nothing, then [github.com/];
    other hosts, other schemes and a missing slash after the host are
    refused. *)
Theorem is_github_url_iff (value : string) :
  is_github_url value = true
  <-> exists rest,
        value = "http://github.com/" +:+ rest
        \/ value = "https://github.com/" +:+ rest
        \/ value = "http://www.github.com/" +:+ rest
        \/ value = "https://www.github.com/" +:+ rest.
Proof.
  split.
  - unfold is_github_url.
    destruct (Py.strip_prefix "http" value) as [r0|] eqn:E0; [|discriminate].
    apply strip_prefix_spec in E0. subst value.
    assert (Hhost : forall r pre,
              (match Py.strip_prefix "www." r with
               | Some r' => bool_decide (is_Some (Py.strip_prefix "github.com/" r'))
               | None => false
               end || bool_decide (is_Some (Py.strip_prefix "github.com/" r))) = true ->
              exists rest, pre +:+ r = pre +:+ "github.com/" +:+ rest
                           \/ pre +:+ r = pre +:+ "www.github.com/" +:+ rest).
    { intros r pre H. apply orb_true_iff in H as [H|H].
      - destruct (Py.strip_prefix "www." r) as [r'|] eqn:Ew; [|discriminate].
        apply strip_prefix_spec in Ew. subst r.
        apply bool_decide_eq_true in H as [rest H%strip_prefix_spec]. subst r'.
        exists rest. now right.
      - apply bool_decide_eq_true in H as [rest H%strip_prefix_spec]. subst r.
        exists rest. now left. }
    destruct (Py.strip_prefix "s://" r0) as [r|] eqn:Es.
    + apply strip_prefix_spec in Es. subst r0. intros H.
      destruct (Hhost r "https://"%string H) as (rest & [E|E]); exists rest.
      * right. left. exact E.
      * right. right. right. exact E.
    + destruct (Py.strip_prefix "://" r0) as [r|] eqn:Ec; [|discriminate].
      apply strip_prefix_spec in Ec. subst r0. intros H.
      destruct (Hhost r "http://"%string H) as (rest & [E|E]); exists rest.
      * left. exact E.
      * right. right. left. exact E.
  - intros (rest & [-> | [-> | [-> | ->]]]); vm_compute; reflexivity.
Qed.

(** ** Colours and highlighted lines *)

Lemma nearest_style_first (style : token_type -> option style_def) (k : nat) :
  forall (t : token_type) (d : style_def),
    k <= length t ->
    style (drop k t) = Some d ->
    (forall j, j < k -> style (drop j t) = None) ->
    nearest_style style t = d.
Proof.
  induction k as [|k IH]; intros t d Hk Hd Hnone.
  - rewrite drop_0 in Hd. destruct t; simpl; now rewrite Hd.
  - destruct t as [|x t]; [simpl in Hk; lia|].
    pose proof (Hnone 0 ltac:(lia)) as H0. rewrite drop_0 in H0.
    cbn [nearest_style]. rewrite H0. apply IH.
    + simpl in Hk. lia.
    + exact Hd.
    + intros j Hj. apply (Hnone (S j)). lia.
Qed.

Lemma nearest_style_none (style : token_type -> option style_def) (t : token_type) :
  (forall j, j <= length t -> style (drop j t) = None) ->
  nearest_style style t = StyleDef None.
Proof.
  induction t as [|x t IH]; intros Hnone.
  - pose proof (Hnone 0 ltac:(simpl; lia)) as H0. rewrite drop_0 in H0.
    simpl. now rewrite H0.
  - pose proof (Hnone 0 ltac:(simpl; lia)) as H0. rewrite drop_0 in H0.
    cbn [nearest_style]. rewrite H0. apply IH.
    intros j Hj. apply (Hnone (S j)). simpl. lia.
Qed.

Lemma token_color_nearest (style : token_type -> option style_def) (t : token_type) :
  _token_color style t = color (nearest_style style t).
Proof.
  unfold _token_color, parent. destruct t as [|x t]; simpl; destruct (style _); reflexivity.
Qed.

(** [_token_color] gives the colour entry of the nearest type, from the
    token type itself up through its parents, that the style defines, and
    no colour when the style defines none of them. *)
Theorem token_color_of_nearest_ancestor (style : token_type -> option style_def)
    (t : token_type) :
  (forall k d,
     k <= length t ->
     style (drop k t) = Some d ->
     (forall j, j < k -> style (drop j t) = None) ->
     _token_color style t = color d)
  /\ ((forall j, j <= length t -> style (drop j t) = None) ->
      _token_color style t = None).
Proof.
  split.
  - intros k d Hk Hd Hnone. rewrite token_color_nearest.
    now rewrite (nearest_style_first style k t d).
  - intros Hnone. rewrite token_color_nearest. now rewrite nearest_style_none.
Qed.

Lemma length_append_last (lines : list string) (s : string) :
  length (append_last lines s) = length lines.
Proof.
  induction lines as [|l lines IH]; [reflexivity|].
  destruct lines as [|l' lines]; [reflexivity|].
  change (S (length (append_last (l' :: lines) s)) = S (length (l' :: lines))).
  now rewrite IH.
Qed.

Lemma length_add_parts (col : option string) (parts lines : list string) :
  length (add_parts col lines parts) = length lines + (length parts - 1).
Proof.
  revert lines. induction parts as [|part rest IH]; intros lines.
  - simpl. lia.
  - cbn [add_parts].
    set (lines' := if bool_decide (part = EmptyString) then lines else _).
    assert (Hl : length lines' = length lines).
    { subst lines'. case_bool_decide; [reflexivity|].
      destruct col as [[|c s]|]; apply length_append_last. }
    destruct rest as [|r rest]; [simpl; lia|].
    rewrite IH, length_app, Hl. simpl. lia.
Qed.

Lemma length_add_token (style : token_type -> option style_def)
    (lines : list string) (tok : token_type * string) :
  length (add_token style lines tok) = length lines + Py.count "010" (snd tok).
Proof.
  destruct tok as [ttype value]. unfold add_token. simpl snd.
  case_bool_decide as Hv.
  - subst value. simpl. lia.
  - rewrite length_add_parts, length_split. lia.
Qed.

(** With highlighting on and pygments there, the lines are one more than
    the newlines in the values of the tokens, whatever their colours. *)
Theorem highlighted_line_count (P : pygments) (text filename : string) :
  length (build_code_lines (Some P) text filename true)
  = S (token_newlines (lexed P text filename)).
Proof.
  unfold build_code_lines, lexed, token_newlines. cbn [negb].
  generalize (lex P text match get_lexer_for_filename P filename text with
                          | Some l => l
                          | None => TextLexer P
                          end) as tokens.
  intros tokens.
  assert (H : forall lines,
            length (foldl (add_token (style_for_token P)) lines tokens)
            = length lines
              + list_sum (map (fun tok => Py.count "010" (snd tok)) tokens)).
  { unfold list_sum.
    induction tokens as [|tok tokens IH]; intros lines; cbn [foldl map fold_right].
    - lia.
    - rewrite IH, length_add_token. lia. }
  rewrite H. reflexivity.
Qed.

Lemma append_cons (c : ascii) (a b : string) : String c a +:+ b = String c (a +:+ b).
Proof. reflexivity. Qed.

Lemma append_empty_r (s : string) : s +:+ EmptyString = s.
Proof. induction s as [|c s IH]; [reflexivity|]. now rewrite append_cons, IH. Qed.

Lemma append_assoc_str (a b c : string) : (a +:+ b) +:+ c = a +:+ (b +:+ c).
Proof. induction a as [|x a IH]; [reflexivity|]. now rewrite !append_cons, IH. Qed.

Lemma replace_append (c : ascii) (r a b : string) :
  Py.replace c r (a +:+ b) = Py.replace c r a +:+ Py.replace c r b.
Proof.
  induction a as [|x a IH]; [reflexivity|].
  rewrite append_cons. cbn [Py.replace].
  case_bool_decide; rewrite IH; [now rewrite append_assoc_str | reflexivity].
Qed.

(** Escaping goes through concatenation. *)
Lemma escape_append (a b : string) :
  Py.escape (a +:+ b) = Py.escape a +:+ Py.escape b.
Proof. unfold Py.escape. now rewrite !replace_append. Qed.

Lemma append_last_empty (lines : list string) : append_last lines EmptyString = lines.
Proof.
  induction lines as [|l lines IH]; [reflexivity|].
  destruct lines as [|l' lines]; [cbn [append_last]; now rewrite append_empty_r|].
  change (l :: append_last (l' :: lines) EmptyString = l :: l' :: lines).
  now rewrite IH.
Qed.

Lemma append_last_cons (l : string) (lines : list string) (s : string) :
  lines <> [] -> append_last (l :: lines) s = l :: append_last lines s.
Proof. destruct lines; [congruence | reflexivity]. Qed.

Lemma append_last_snoc (lines : list string) (l s : string) :
  append_last (lines ++ [l]) s = lines ++ [l +:+ s].
Proof.
  induction lines as [|x lines IH]; [reflexivity|].
  change (append_last (x :: (lines ++ [l])) s = x :: (lines ++ [l +:+ s])).
  rewrite append_last_cons by (destruct lines; discriminate). now rewrite IH.
Qed.

Lemma map_escape_append_last (lines : list string) (s : string) :
  map Py.escape (append_last lines s) = append_last (map Py.escape lines) (Py.escape s).
Proof.
  induction lines as [|l lines IH]; [reflexivity|].
  destruct lines as [|l' lines]; [cbn [append_last map]; now rewrite escape_append|].
  change (Py.escape l :: map Py.escape (append_last (l' :: lines) s)
          = append_last (Py.escape l :: map Py.escape (l' :: lines)) (Py.escape s)).
  rewrite IH. symmetry. apply append_last_cons. discriminate.
Qed.

(** Splitting a concatenation: the last piece of the first part and the
    first piece of the second are one piece. *)
Lemma split_append (sep : ascii) (a b : string) :
  Py.split sep (a +:+ b)
  = append_last (Py.split sep a) (hd EmptyString (Py.split sep b))
    ++ tl (Py.split sep b).
Proof.
  induction a as [|c a IH].
  - change (EmptyString +:+ b) with b.
    pose proof (split_nonempty sep b). destruct (Py.split sep b); [congruence | reflexivity].
  - rewrite append_cons. cbn [Py.split]. pose proof (split_nonempty sep a) as Hne.
    case_bool_decide.
    + rewrite IH, append_last_cons by exact Hne. reflexivity.
    + rewrite IH. destruct (Py.split sep a) as [|l0 [|l1 ls0]]; [congruence | reflexivity |].
      rewrite !append_last_cons by discriminate. reflexivity.
Qed.

Lemma add_parts_cons (col : option string) (lines : list string)
    (part r : string) (rest : list string) :
  add_parts col lines (part :: r :: rest)
  = add_parts col (add_parts col lines [part] ++ [EmptyString]) (r :: rest).
Proof. reflexivity. Qed.

Lemma add_parts_one_uncoloured (col : option string) (lines : list string) (p0 : string) :
  match col with Some (String _ _) => False | _ => True end ->
  add_parts col lines [p0] = append_last lines (Py.escape p0).
Proof.
  intros Hcol. cbn [add_parts]. case_bool_decide as Hp.
  - subst p0. now rewrite append_last_empty.
  - destruct col as [[|c s]|]; [reflexivity | contradiction | reflexivity].
Qed.

Lemma add_parts_uncoloured (col : option string) (rest : list string) :
  match col with Some (String _ _) => False | _ => True end ->
  forall (p0 : string) (lines : list string),
    add_parts col lines (p0 :: rest)
    = append_last lines (Py.escape p0) ++ map Py.escape rest.
Proof.
  intros Hcol. induction rest as [|r rest IH]; intros p0 lines.
  - rewrite add_parts_one_uncoloured by exact Hcol. cbn [map]. now rewrite app_nil_r.
  - rewrite add_parts_cons, add_parts_one_uncoloured by exact Hcol.
    rewrite IH, append_last_snoc. cbn [map]. now rewrite <- app_assoc.
Qed.

Lemma token_text_snoc (tokens : list (token_type * string)) (tok : token_type * string) :
  token_text (tokens ++ [tok]) = token_text tokens +:+ snd tok.
Proof.
  unfold token_text. induction tokens as [|t tokens IH]; simpl.
  - now rewrite append_empty_r.
  - now rewrite IH, append_assoc_str.
Qed.

Lemma uncoloured_lines (style : token_type -> option style_def)
    (tokens : list (token_type * string)) :
  uncoloured style tokens ->
  foldl (add_token style) [EmptyString] tokens
  = map Py.escape (Py.split "010" (token_text tokens)).
Proof.
  induction tokens as [|tok tokens IH] using rev_ind; intros Hun; [reflexivity|].
  apply Forall_app in Hun as [Hun Htok]. apply Forall_inv in Htok.
  rewrite foldl_snoc, IH by exact Hun. rewrite token_text_snoc.
  destruct tok as [ttype value]. cbn [fst snd] in *. unfold add_token.
  case_bool_decide as Hv.
  - subst value. now rewrite append_empty_r.
  - rewrite split_append. pose proof (split_nonempty "010" value) as Hne.
    destruct (Py.split "010" value) as [|p0 rest]; [congruence|].
    rewrite add_parts_uncoloured by exact Htok. cbn [hd tl].
    now rewrite List.map_app, map_escape_append_last.
Qed.

(** When no token gets a colour, the highlighted lines are the escaped
    lines of the text the tokens make; when the tokens make the text, they
    are the lines that come without highlighting. *)
Theorem uncoloured_highlight_is_plain (P : pygments) (text filename : string) :
  uncoloured (style_for_token P) (lexed P text filename) ->
  build_code_lines (Some P) text filename true
  = map Py.escape (Py.split "010" (token_text (lexed P text filename)))
  /\ (token_text (lexed P text filename) = text ->
      build_code_lines (Some P) text filename true
      = build_code_lines (Some P) text filename false).
Proof.
  intros Hun.
  assert (H : build_code_lines (Some P) text filename true
              = map Py.escape (Py.split "010" (token_text (lexed P text filename)))).
  { unfold build_code_lines. cbn [negb]. now apply uncoloured_lines. }
  split; [exact H|]. intros Htext. rewrite H, Htext. reflexivity.
Qed.

(** A text of two lines, lexed as one token without colour. *)
Lemma uncoloured_highlight_witness :
  build_code_lines (Some plain_pygments) ("a<b" +:+ newline +:+ "c") "x.py" true
  = ["a&lt;b"; "c"]%string.
Proof.
  rewrite (proj1 (uncoloured_highlight_is_plain plain_pygments
                    ("a<b" +:+ newline +:+ "c") "x.py"
                    ltac:(repeat constructor))).
  reflexivity.
Defined.

(** ** Line numbers *)

Lemma length_string_of_uint (d : Decimal.uint) :
  String.length (NilEmpty.string_of_uint d) = Decimal.nb_digits d.
Proof. induction d; simpl; congruence. Qed.

Lemma nb_digits_succ (d : Decimal.uint) :
  Decimal.nb_digits d <= Decimal.nb_digits (Decimal.Little.succ d).
Proof. induction d; simpl; lia. Qed.

Lemma to_little_uint_succ (n : nat) (acc : Decimal.uint) :
  Nat.to_little_uint n (Decimal.Little.succ acc)
  = Decimal.Little.succ (Nat.to_little_uint n acc).
Proof. revert acc. induction n as [|n IH]; intros acc; simpl; [reflexivity | apply IH]. Qed.

(** A larger number has no fewer digits. *)
Lemma length_str_mono (k n : nat) :
  k <= n -> String.length (Py.str k) <= String.length (Py.str n).
Proof.
  unfold Py.str, Nat.to_uint. rewrite !length_string_of_uint, !nb_digits_rev.
  induction 1 as [|n Hle IH]; [lia|].
  cbn [Nat.to_little_uint]. rewrite to_little_uint_succ.
  pose proof (nb_digits_succ (Nat.to_little_uint n Decimal.zero)). lia.
Qed.

Lemma length_repeat_str_space (n : nat) : String.length (Py.repeat_str " " n) = n.
Proof.
  induction n as [|n IH]; [reflexivity|].
  cbn [Py.repeat_str]. now rewrite length_append, IH.
Qed.

Lemma length_rjust (width : nat) (s : string) :
  String.length (Py.rjust width s) = Nat.max width (String.length s).
Proof. unfold Py.rjust. rewrite length_append, length_repeat_str_space. lia. Qed.

(** [add_line_numbers] keeps the lines in number and order; line [i + 1]
    gets its number, right-aligned, two spaces and the line. Every label is
    as wide as the number of the last line, so the code starts in the same
    column on every line. *)
Theorem add_line_numbers_labels (lines : list string) :
  length (add_line_numbers lines) = length lines
  /\ forall i line,
       lines !! i = Some line ->
       let width := String.length (Py.str (length lines)) in
       add_line_numbers lines !! i
       = Some (Py.rjust width (Py.str (i + 1)) +:+ "  " +:+ line)
       /\ String.length (Py.rjust width (Py.str (i + 1))) = width
       /\ String.length (Py.rjust width (Py.str (i + 1)) +:+ "  " +:+ line)
          = width + 2 + String.length line.
Proof.
  unfold add_line_numbers. split; [apply length_imap|].
  intros i line Hi. cbv zeta.
  assert (Hw : String.length (Py.rjust (String.length (Py.str (length lines)))
                                       (Py.str (i + 1)))
               = String.length (Py.str (length lines))).
  { rewrite length_rjust. apply lookup_lt_Some in Hi.
    pose proof (length_str_mono (i + 1) (length lines) ltac:(lia)). lia. }
  split; [|split].
  - rewrite list_lookup_imap, Hi. reflexivity.
  - exact Hw.
  - rewrite !length_append, Hw. simpl. lia.
Qed.

(** ** Bookmarks *)

Lemma str_inj (m n : nat) : Py.str m = Py.str n -> m = n.
Proof.
  unfold Py.str. intros E.
  assert (Hu : Nat.to_uint m = Nat.to_uint n).
  { pose proof (NilEmpty.usu (Nat.to_uint m)) as Hm.
    pose proof (NilEmpty.usu (Nat.to_uint n)) as Hn.
    rewrite E in Hm. congruence. }
  rewrite <- (DecimalNat.Unsigned.of_to m), <- (DecimalNat.Unsigned.of_to n).
  now rewrite Hu.
Qed.

Lemma level_map_range (name : string) (level : Z) :
  level_map name = Some level -> (0 <= level <= 2)%Z.
Proof. unfold level_map. repeat case_bool_decide; intros [= <-]; lia. Qed.

Section Bookmarks.

Variable getPlainText : string -> string.
Variable page_of : nat -> Z.

Lemma keys_ok_init : keys_ok doc_init.
Proof.
  unfold keys_ok, doc_init. simpl. repeat split; try lia; destruct i; discriminate.
Qed.

Lemma afterFlowable_keys_ok (page : Z) (self : doc) (f : flowable) :
  keys_ok self -> keys_ok (afterFlowable getPlainText page self f).
Proof.
  intros (Hlast & Hcnt & Hnot & Hkeys).
  destruct (is_heading f) eqn:Hh.
  - apply is_heading_level in Hh as (name & level & Hs & Hl).
    rewrite (afterFlowable_heading _ _ _ _ _ _ Hs Hl). cbv zeta.
    pose proof (level_map_range _ _ Hl) as Hrange.
    unfold keys_ok. cbn [_last_outline_level _heading_count outline notified].
    rewrite !length_app. cbn [length].
    split; [lia|]. split; [lia|]. split; [lia|].
    intros i e Hi. apply lookup_app_Some in Hi as [Hi|[Hge Hi]].
    + now apply Hkeys.
    + destruct (i - length (outline self)) as [|k] eqn:Hk; [|destruct k; discriminate].
      injection Hi as <-. cbn [outline_level outline_key]. split; [lia|].
      replace (_heading_count self + 1) with (i + 1) by lia. reflexivity.
  - rewrite afterFlowable_other by exact Hh.
    exact (conj Hlast (conj Hcnt (conj Hnot Hkeys))).
Qed.

Lemma handle_flowables_keys_ok (story : list flowable) (i : nat) (self : doc) :
  keys_ok self -> keys_ok (handle_flowables getPlainText page_of i self story).
Proof.
  revert i self. induction story as [|f story IH]; intros i self Hok; simpl.
  - exact Hok.
  - apply IH. now apply afterFlowable_keys_ok.
Qed.

End Bookmarks.

(** Whatever the story, every bookmark and entry of the table of contents
    is at one of the three levels 0, 1, 2 that the table has styles for; the
    template counts one heading for each bookmark; and no two bookmarks of a
    document have the same key. *)
Theorem bookmark_keys_unique (getPlainText : string -> string)
    (page_of : nat -> Z) (story : list flowable) :
  Forall (fun e => (0 <= outline_level e <= 2)%Z)
         (outline (build getPlainText page_of story))
  /\ Forall (fun e => (0 <= toc_level e <= 2)%Z)
            (notified (build getPlainText page_of story))
  /\ _heading_count (build getPlainText page_of story)
     = length (outline (build getPlainText page_of story))
  /\ length (notified (build getPlainText page_of story))
     = length (outline (build getPlainText page_of story))
  /\ NoDup (map outline_key (outline (build getPlainText page_of story))).
Proof.
  destruct (handle_flowables_keys_ok getPlainText page_of story 0 doc_init keys_ok_init)
    as (_ & Hcnt & Hnot & Hkeys).
  destruct (handle_flowables_ok getPlainText page_of story 0 doc_init doc_ok_init)
    as (_ & _ & Hlev & _).
  fold (build getPlainText page_of story) in Hcnt, Hnot, Hkeys, Hlev.
  assert (Hout : Forall (fun e => (0 <= outline_level e <= 2)%Z)
                        (outline (build getPlainText page_of story))).
  { apply Forall_lookup. intros i e Hi. now apply (Hkeys i e). }
  split; [exact Hout|]. split; [|split; [exact Hcnt|split; [exact Hnot|]]].
  - apply Forall_lookup. intros i e Hi.
    assert (Ht : map toc_level (notified (build getPlainText page_of story)) !! i
                 = Some (toc_level e)) by (rewrite list_lookup_fmap, Hi; reflexivity).
    rewrite Hlev, list_lookup_fmap in Ht.
    destruct (outline (build getPlainText page_of story) !! i) as [e'|] eqn:Ei;
      [|discriminate].
    injection Ht as <-. now apply (Hkeys i e').
  - apply NoDup_alt. intros i j key Hi Hj.
    rewrite list_lookup_fmap in Hi, Hj.
    destruct (outline (build getPlainText page_of story) !! i) as [ei|] eqn:Ei;
      [|discriminate].
    destruct (outline (build getPlainText page_of story) !! j) as [ej|] eqn:Ej;
      [|discriminate].
    injection Hi as Hi. injection Hj as Hj.
    destruct (Hkeys i ei Ei) as [Hri Hki]. destruct (Hkeys j ej Ej) as [Hrj Hkj].
    rewrite Hki in Hi. rewrite Hkj in Hj. subst key.
    assert (Hci : outline_level ei = 0%Z \/ outline_level ei = 1%Z
                  \/ outline_level ei = 2%Z) by lia.
    assert (Hcj : outline_level ej = 0%Z \/ outline_level ej = 1%Z
                  \/ outline_level ej = 2%Z) by lia.
    assert (E : Py.str (i + 1) = Py.str (j + 1)).
    { destruct Hci as [Li | [Li | Li]]; destruct Hcj as [Lj | [Lj | Lj]];
        rewrite Li, Lj in Hj;
        change (str_int 0) with "0"%string in Hj;
        change (str_int 1) with "1"%string in Hj;
        change (str_int 2) with "2"%string in Hj;
        cbv [String.append] in Hj;
        first [discriminate Hj | injection Hj as Hj; congruence]. }
    apply str_inj in E. lia.
Qed.

(** ** How a run ends *)

Lemma cleanup_writes_nothing (w : world) (s : run_state) :
  existsb writes_pdf (cleanup w s) = false.
Proof. unfold cleanup. destruct (temp_dir s) as [[|c r]|]; reflexivity. Qed.

(** What [acquired] says of a remote and of a local source. *)
Lemma acquired_remote (w : world) (a : args) (fs : node) :
  is_github_url (source a) = true ->
  acquired w a = Some fs ->
  mkdtemp_error w = None
  /\ (exists out err, subprocess_run w (clone_command w a) = Ok (0%Z, out, err))
  /\ fs = Dir "repo" (cloned w (source a)).
Proof.
  unfold acquired, clone_command. intros -> Hacq.
  destruct (mkdtemp_error w); [discriminate|].
  destruct (subprocess_run w _) as [[[rc out] err]|e]; [|discriminate].
  destruct rc; try discriminate. injection Hacq as <-. eauto.
Qed.

Lemma acquired_local (w : world) (a : args) (fs : node) :
  is_github_url (source a) = false ->
  acquired w a = Some fs ->
  resolve_error w (source a) = None
  /\ exists_error w (resolve w (source a)) = None
  /\ tree_at w (resolve w (source a)) = Some fs.
Proof.
  unfold acquired. intros -> Hacq.
  destruct (resolve_error w (source a)); [discriminate|].
  destruct (exists_error w _); [discriminate|]. auto.
Qed.

(** The body of the [try] on a tree that selects a file. *)
Lemma main_try_acquired (w : world) (a : args) (fs : node) :
  acquired w a = Some fs ->
  collect_files fs (include_exts_of a) (exclude_dirs_of a) (max_file_size_kb a) <> [] ->
  main_try w a (include_exts_of a) (exclude_dirs_of a) (RunState None [])
  = rendering w a fs.
Proof.
  intros Hacq Hfiles.
  unfold rendering, acquired_state, story_of_run, repo_root_of, source_label_of,
    created_line.
  destruct (is_github_url (source a)) eqn:Hurl.
  - destruct (acquired_remote w a fs Hurl Hacq) as (Hmk & (out & err & Hrun) & ->).
    revert Hfiles Hrun. unfold clone_command. run_steps. intros Hfiles Hrun.
    rewrite Hurl, Hmk, Hrun.
    rewrite bool_decide_eq_false_2 by (intros H; now apply H). cbv beta iota.
    destruct (collect_files _ _ _ _) as [|f files]; [congruence|]. cbv beta iota.
    destruct (resolve_error w (output a)); [reflexivity|]. cbv beta iota.
    destruct (reportlab_installed w); cbn [negb]; [|reflexivity].
    destruct (story_error w _); [reflexivity|].
    destruct (build_error w); [reflexivity|]. cbv beta iota.
    destruct (print_error w _); reflexivity.
  - destruct (acquired_local w a fs Hurl Hacq) as (Hres & Hex & Htree).
    revert Hfiles. run_steps. intros Hfiles.
    rewrite Hurl, Hres. cbv beta iota. rewrite Hex, Htree. cbv beta iota.
    destruct (collect_files _ _ _ _) as [|f files]; [congruence|]. cbv beta iota.
    destruct (resolve_error w (output a)); [reflexivity|]. cbv beta iota.
    destruct (reportlab_installed w); cbn [negb]; [|reflexivity].
    destruct (story_error w _); [reflexivity|].
    destruct (build_error w); [reflexivity|]. cbv beta iota.
    destruct (print_error w _); reflexivity.
Qed.

(** The body of the [try] on a tree that selects nothing. *)
Lemma main_try_no_files (w : world) (a : args) (fs : node) :
  acquired w a = Some fs ->
  collect_files fs (include_exts_of a) (exclude_dirs_of a) (max_file_size_kb a) = [] ->
  main_try w a (include_exts_of a) (exclude_dirs_of a) (RunState None [])
  = (Raise NoMatchingFilesError, acquired_state w a).
Proof.
  intros Hacq Hfiles. unfold acquired_state.
  destruct (is_github_url (source a)) eqn:Hurl.
  - destruct (acquired_remote w a fs Hurl Hacq) as (Hmk & (out & err & Hrun) & ->).
    revert Hfiles Hrun. unfold clone_command. run_steps. intros Hfiles Hrun.
    rewrite Hurl, Hmk, Hrun.
    rewrite bool_decide_eq_false_2 by (intros H; now apply H). cbv beta iota.
    now rewrite Hfiles.
  - destruct (acquired_local w a fs Hurl Hacq) as (Hres & Hex & Htree).
    revert Hfiles. run_steps. intros Hfiles.
    rewrite Hurl, Hres. cbv beta iota. rewrite Hex, Htree. cbv beta iota.
    now rewrite Hfiles.
Qed.

(** The body of the [try] when the tree is not acquired: it raises, and
    writes and prints nothing. *)
Lemma main_try_not_acquired (w : world) (a : args) (inc exc : gset string) :
  acquired w a = None ->
  (exists e, fst (main_try w a inc exc (RunState None [])) = Raise e)
  /\ forallb (fun ev => negb (is_output ev))
             (trace (snd (main_try w a inc exc (RunState None [])))) = true.
Proof.
  unfold acquired. intros Hacq. run_steps.
  destruct (is_github_url (source a)) eqn:Hurl.
  - destruct (mkdtemp_error w) as [e|]; [split; [now exists e | reflexivity]|].
    destruct (subprocess_run w _) as [[[rc out] err]|e];
      [|split; [now exists e | reflexivity]].
    destruct (decide (rc = 0%Z)) as [->|Hrc]; [discriminate|].
    rewrite bool_decide_eq_true_2 by exact Hrc. split; [eauto | reflexivity].
  - destruct (resolve_error w (source a)) as [e|];
      [split; [now exists e | reflexivity]|]. cbv beta iota.
    destruct (exists_error w _) as [e|]; [split; [now exists e | reflexivity]|].
    rewrite Hacq. split; [eauto | reflexivity].
Qed.

Lemma no_output_no_pdf (evs : list event) :
  forallb (fun ev => negb (is_output ev)) evs = true -> existsb writes_pdf evs = false.
Proof.
  induction evs as [|ev evs IH]; [reflexivity|]. simpl.
  intros H. apply andb_true_iff in H as [Hev H]. rewrite (IH H).
  destruct ev; try reflexivity. discriminate.
Qed.

Lemma acquired_state_no_output (w : world) (a : args) :
  forallb (fun ev => negb (is_output ev)) (trace (acquired_state w a)) = true.
Proof. unfold acquired_state. now destruct (is_github_url (source a)). Qed.

(** Of the failures that the surroundings can answer with (making the
    temporary directory, git, resolving a path, looking whether it exists,
    importing reportlab, reading a text as markup, the layout, printing): a
    run succeeds exactly when the tree is acquired, it selects a file, the
    output path resolves, reportlab is installed, the story is made, the
    layout goes through and the line is printed. A run that succeeds has
    written the PDF, and a PDF is written exactly when all but the printing
    holds. *)
Theorem run_succeeds_iff (w : world) (a : args) :
  (fst (run_main w a) = Ok tt
   <-> exists fs,
         acquired w a = Some fs
         /\ collect_files fs (include_exts_of a) (exclude_dirs_of a)
                          (max_file_size_kb a) <> []
         /\ renders w a fs
         /\ print_error w (created_line w a) = None)
  /\ (fst (run_main w a) = Ok tt ->
      existsb writes_pdf (trace (snd (run_main w a))) = true)
  /\ (existsb writes_pdf (trace (snd (run_main w a))) = true
      <-> exists fs,
            acquired w a = Some fs
            /\ collect_files fs (include_exts_of a) (exclude_dirs_of a)
                             (max_file_size_kb a) <> []
            /\ renders w a fs).
Proof.
  rewrite run_main_spec. cbv zeta. cbn [fst snd trace].
  rewrite existsb_app, cleanup_writes_nothing, orb_false_r.
  destruct (acquired w a) as [fs|] eqn:Hacq.
  - destruct (collect_files fs (include_exts_of a) (exclude_dirs_of a)
                            (max_file_size_kb a)) as [|f files] eqn:Hfiles.
    + rewrite (main_try_no_files w a fs Hacq Hfiles). cbn [fst snd].
      rewrite (no_output_no_pdf _ (acquired_state_no_output w a)).
      repeat split; try discriminate.
      * intros (fs' & [= <-] & Hne & _). congruence.
      * intros (fs' & [= <-] & Hne & _). congruence.
    + assert (Hne : collect_files fs (include_exts_of a) (exclude_dirs_of a)
                                  (max_file_size_kb a) <> []) by (rewrite Hfiles; discriminate).
      rewrite (main_try_acquired w a fs Hacq Hne).
      pose proof (no_output_no_pdf _ (acquired_state_no_output w a)) as Hquiet.
      unfold rendering, renders.
      destruct (resolve_error w (output a)) as [e|] eqn:Hres; cbn [fst snd];
        [rewrite Hquiet; repeat split; try discriminate;
         intros (fs' & [= <-] & _ & (Hn & _) & _) || intros (fs' & [= <-] & _ & (Hn & _));
         discriminate|].
      destruct (reportlab_installed w) eqn:Hrl; cbn [fst snd];
        [|rewrite Hquiet; repeat split; try discriminate;
          intros (fs' & [= <-] & _ & (_ & Hn & _) & _)
          || intros (fs' & [= <-] & _ & (_ & Hn & _));
          discriminate].
      destruct (story_error w (story_of_run w a fs)) as [e|] eqn:Hstory; cbn [fst snd];
        [rewrite Hquiet; repeat split; try discriminate;
         intros (fs' & [= <-] & _ & (_ & _ & Hn & _) & _)
         || intros (fs' & [= <-] & _ & (_ & _ & Hn & _));
         congruence|].
      destruct (build_error w) as [e|] eqn:Hbuild; cbn [fst snd];
        [rewrite Hquiet; repeat split; try discriminate;
         intros (fs' & [= <-] & _ & (_ & _ & _ & Hn) & _)
         || intros (fs' & [= <-] & _ & (_ & _ & _ & Hn));
         discriminate|].
      assert (Hwritten : existsb writes_pdf
                (trace (acquired_state w a)
                 ++ [EvWritePdf (resolve w (output a)) (story_of_run w a fs)]) = true).
      { rewrite existsb_app. simpl. apply orb_true_r. }
      destruct (print_error w (created_line w a)) as [e|] eqn:Hprint; cbn [fst snd trace].
      * rewrite Hwritten. repeat split; try discriminate.
        -- intros (fs' & _ & _ & _ & Hn). discriminate.
        -- intros _. exists fs. rewrite Hstory. now rewrite Hfiles.
      * rewrite existsb_app, Hwritten.
        repeat split; intros _; try reflexivity; exists fs; rewrite Hstory;
          now rewrite Hfiles.
  - destruct (main_try_not_acquired w a (include_exts_of a) (exclude_dirs_of a) Hacq)
      as [[e He] Hquiet].
    rewrite He, (no_output_no_pdf _ Hquiet).
    repeat split; try discriminate; intros (fs & Hn & _); discriminate.
Qed.

(** A run on a local path never runs a command and never makes or removes
    a temporary directory. When the path resolves and does not exist the
    run fails with the [RuntimeError] that says so, having done nothing;
    when resolving it, or looking whether it exists, raises, the run fails
    with that error, having done nothing. *)
Theorem local_run_leaves_no_trace (w : world) (a : args) :
  is_github_url (source a) = false ->
  forallb is_output (trace (snd (run_main w a))) = true
  /\ temp_dir (snd (run_main w a)) = None
  /\ (resolve_error w (source a) = None ->
      exists_error w (resolve w (source a)) = None ->
      tree_at w (resolve w (source a)) = None ->
      run_main w a
      = (Raise (RuntimeError ("Path does not exist: " +:+ resolve w (source a))),
         RunState None []))
  /\ (forall e, resolve_error w (source a) = Some e ->
                run_main w a = (Raise e, RunState None []))
  /\ (forall e, resolve_error w (source a) = None ->
                exists_error w (resolve w (source a)) = Some e ->
                run_main w a = (Raise e, RunState None [])).
Proof.
  intros Hurl. rewrite run_main_spec. cbv zeta. cbn [fst snd trace temp_dir].
  unfold cleanup. run_steps. rewrite Hurl.
  destruct (resolve_error w (source a)) as [e0|] eqn:Hres; cbv beta iota;
    [repeat split; try discriminate; now intros e [= <-]|].
  destruct (exists_error w (resolve w (source a))) as [e0|] eqn:Hex; cbv beta iota;
    [repeat split; try discriminate; now intros e _ [= <-]|].
  destruct (tree_at w (resolve w (source a))) as [fs|] eqn:Htree; cbv beta iota;
    [|repeat split; discriminate].
  destruct (collect_files _ _ _ _) as [|f files]; cbv beta iota;
    [repeat split; discriminate|].
  destruct (resolve_error w (output a)); cbv beta iota;
    [repeat split; discriminate|].
  destruct (reportlab_installed w); cbn [negb]; cbv beta iota;
    [|repeat split; discriminate].
  destruct (story_error w _); [repeat split; discriminate|].
  destruct (build_error w); cbv beta iota; [repeat split; discriminate|].
  destruct (print_error w _); repeat split; discriminate.
Qed.

(** A path that does not exist, in a world without local trees. *)
Lemma local_run_witness :
  run_main failing_git_world (parse_args_defaults "/nowhere")
  = (Raise (RuntimeError "Path does not exist: /nowhere"), RunState None []).
Proof.
  exact (proj1 (proj2 (proj2 (local_run_leaves_no_trace failing_git_world
                                (parse_args_defaults "/nowhere") eq_refl)))
               eq_refl eq_refl eq_refl).
Defined.

(** A remote run whose acquisition fails. When [mkdtemp] raises, nothing
    was made and nothing is removed. When git exits with another code than 0
    the run fails with the [RuntimeError] that holds the command and what git
    wrote; when the command cannot be run, with the error of that; in both
    the temporary directory is removed and nothing else is done. *)
Theorem remote_acquisition_failures (w : world) (a : args) :
  is_github_url (source a) = true ->
  (forall e, mkdtemp_error w = Some e -> run_main w a = (Raise e, RunState None []))
  /\ (forall rc out err,
        mkdtemp_error w = None ->
        subprocess_run w (clone_command w a) = Ok (rc, out, err) ->
        rc <> 0%Z ->
        run_main w a
        = (Raise (RuntimeError ("Command failed: " +:+ Py.join " " (clone_command w a)
                                +:+ newline +:+ out +:+ newline +:+ err)),
           RunState (Some (temp_dir_of w))
                    [ EvMkdtemp (temp_dir_of w); EvRun (clone_command w a);
                      EvRmtree (temp_dir_of w) true (rmtree_removes w) ]))
  /\ (forall e,
        mkdtemp_error w = None ->
        subprocess_run w (clone_command w a) = Raise e ->
        run_main w a
        = (Raise e,
           RunState (Some (temp_dir_of w))
                    [ EvMkdtemp (temp_dir_of w); EvRun (clone_command w a);
                      EvRmtree (temp_dir_of w) true (rmtree_removes w) ])).
Proof.
  intros Hurl. destruct (temp_dir_of_nonempty w) as (c & r & Hne).
  unfold clone_command. split; [|split].
  - intros e Hmk. rewrite run_main_spec. cbv zeta.
    unfold cleanup. run_steps. rewrite Hurl, Hmk. reflexivity.
  - intros rc out err Hmk Hrun Hrc. rewrite run_main_spec. cbv zeta.
    unfold cleanup. revert Hrun Hne. run_steps. intros Hrun Hne.
    rewrite Hurl, Hmk, Hrun.
    rewrite bool_decide_eq_true_2 by exact Hrc. cbv beta iota. now rewrite Hne.
  - intros e Hmk Hrun. rewrite run_main_spec. cbv zeta.
    unfold cleanup. revert Hrun Hne. run_steps. intros Hrun Hne.
    rewrite Hurl, Hmk, Hrun. cbv beta iota. now rewrite Hne.
Qed.

(** A clone that git refuses with exit code 128. *)
Lemma remote_acquisition_witness :
  fst (run_main failing_git_world (parse_args_defaults "https://github.com/org/none"))
  = Raise (RuntimeError
             ("Command failed: git clone --depth 1 https://github.com/org/none "
              +:+ "/tmp/gh2pdf_k3x9q2ab/repo" +:+ newline +:+ newline
              +:+ "fatal: repository not found")).
Proof.
  rewrite (proj1 (proj2 (remote_acquisition_failures failing_git_world
             (parse_args_defaults "https://github.com/org/none") eq_refl))
             128%Z EmptyString "fatal: repository not found"%string
             eq_refl eq_refl ltac:(discriminate)).
  reflexivity.
Defined.

(** A run on an acquired tree that selects a file ends by the first of
    these that applies. Resolving the output path raises: that error, before
    reportlab is looked for. Reportlab is missing: the [RuntimeError] that
    names the missing dependency. A text of the story is not read as markup:
    the error of the parser, before the layout. The layout raises: that
    error. In none of these is anything written or printed. Otherwise the
    PDF is written, at the resolved output path and with the story made of
    the tree text and the file list of that tree, nothing being written or
    printed before; then the line that it was created is printed and the run
    succeeds, or [print] raises and the run fails with the PDF written. *)
Theorem layout_outcomes (w : world) (a : args) (fs : node) :
  acquired w a = Some fs ->
  collect_files fs (include_exts_of a) (exclude_dirs_of a) (max_file_size_kb a) <> [] ->
  let body := main_try w a (include_exts_of a) (exclude_dirs_of a) (RunState None []) in
  let missing :=
    RuntimeError "Missing dependency: reportlab. Install with: pip install -r requirements.txt" in
  let pdf := EvWritePdf (resolve w (output a)) (story_of_run w a fs) in
  fst (run_main w a) = fst body
  /\ forallb (fun ev => negb (is_output ev)) (trace (acquired_state w a)) = true
  /\ (forall e, resolve_error w (output a) = Some e ->
                body = (Raise e, acquired_state w a))
  /\ (resolve_error w (output a) = None -> reportlab_installed w = false ->
      body = (Raise missing, acquired_state w a))
  /\ (resolve_error w (output a) = None -> reportlab_installed w = true ->
      forall e, story_error w (story_of_run w a fs) = Some e ->
                body = (Raise e, acquired_state w a))
  /\ (resolve_error w (output a) = None -> reportlab_installed w = true ->
      story_error w (story_of_run w a fs) = None ->
      forall e, build_error w = Some e -> body = (Raise e, acquired_state w a))
  /\ (renders w a fs ->
      (print_error w (created_line w a) = None ->
       fst body = Ok tt
       /\ trace (snd body) = trace (acquired_state w a) ++ [pdf; EvPrint (created_line w a)])
      /\ (forall e, print_error w (created_line w a) = Some e ->
            fst body = Raise e
            /\ trace (snd body) = trace (acquired_state w a) ++ [pdf])).
Proof.
  intros Hacq Hfiles. cbv zeta.
  rewrite run_main_spec. cbv zeta. cbn [fst].
  rewrite (main_try_acquired w a fs Hacq Hfiles). unfold rendering, renders.
  split; [reflexivity|]. split; [apply acquired_state_no_output|].
  split; [now intros e ->|]. split; [now intros -> ->|].
  split; [now intros -> -> e ->|]. split; [now intros -> -> -> e ->|].
  intros (-> & -> & -> & ->). split.
  - intros ->. cbn [fst snd trace]. split; [reflexivity|].
    now rewrite <- app_assoc.
  - intros e ->. split; reflexivity.
Qed.

(** The file [a<b.py] in a world whose parser refuses a [<]: the heading of
    the file stops the run before anything is written. *)
Lemma layout_outcomes_witness :
  main_try (strict_markup_world repo_markup_name) (parse_args_defaults "/r")
           (include_exts_of (parse_args_defaults "/r"))
           (exclude_dirs_of (parse_args_defaults "/r")) (RunState None [])
  = (Raise (OtherError "ValueError: paragraph text is not markup"), RunState None []).
Proof.
  pose proof (layout_outcomes (strict_markup_world repo_markup_name)
                (parse_args_defaults "/r") repo_markup_name) as H.
  cbv zeta in H.
  destruct H as (_ & _ & _ & _ & H & _);
    [vm_compute; reflexivity | vm_compute; discriminate |].
  apply H; vm_compute; reflexivity.
Defined.

(** ** The sets of extensions and of excluded directories *)

Lemma lower_char_idem (c : ascii) : Py.lower_char (Py.lower_char c) = Py.lower_char c.
Proof. destruct c as [[] [] [] [] [] [] [] []]; reflexivity. Qed.

Lemma lower_idem (s : string) : Py.lower (Py.lower s) = Py.lower s.
Proof.
  induction s as [|c s IH]; [reflexivity|].
  cbn [Py.lower]. now rewrite lower_char_idem, IH.
Qed.

Lemma lower_empty (s : string) : Py.lower s = EmptyString -> s = EmptyString.
Proof. destruct s; [reflexivity | discriminate]. Qed.

(** [split], [strip] and [lower] make ASCII strings of ASCII strings. *)
Lemma is_ascii_split (sep : ascii) (s : string) :
  is_ascii s = true -> Forall (fun x => is_ascii x = true) (Py.split sep s).
Proof.
  induction s as [|c s IH]; intros Hs; simpl; [repeat constructor|].
  simpl in Hs. apply andb_true_iff in Hs as [Hc Hs]. specialize (IH Hs).
  case_bool_decide; [now constructor|].
  destruct (Py.split sep s) as [|l ls]; [repeat constructor; simpl; now rewrite Hc|].
  apply Forall_cons in IH as [Hl Hls]. constructor; [|exact Hls].
  simpl. now rewrite Hc, Hl.
Qed.

Lemma is_ascii_lstrip (s : string) : is_ascii s = true -> is_ascii (Py.lstrip s) = true.
Proof.
  induction s as [|c s IH]; intros Hs; [reflexivity|]. simpl.
  destruct (Py.is_space c); [|exact Hs].
  simpl in Hs. apply andb_true_iff in Hs as [_ Hs]. now apply IH.
Qed.

Lemma is_ascii_rstrip (s : string) : is_ascii s = true -> is_ascii (Py.rstrip s) = true.
Proof.
  induction s as [|c s IH]; intros Hs; [reflexivity|]. simpl.
  simpl in Hs. apply andb_true_iff in Hs as [Hc Hs]. specialize (IH Hs).
  destruct (Py.rstrip s) as [|c' r].
  - destruct (Py.is_space c); [reflexivity|]. simpl. now rewrite Hc.
  - change (is_ascii (String c (String c' r)))
      with ((nat_of_ascii c <? 128)%nat && is_ascii (String c' r)).
    now rewrite Hc, IH.
Qed.

Lemma is_ascii_lower_char (c : ascii) :
  (nat_of_ascii c <? 128)%nat = true -> (nat_of_ascii (Py.lower_char c) <? 128)%nat = true.
Proof. destruct c as [[] [] [] [] [] [] [] []]; vm_compute; intros H; exact H || reflexivity. Qed.

Lemma is_ascii_lower (s : string) : is_ascii s = true -> is_ascii (Py.lower s) = true.
Proof.
  induction s as [|c s IH]; intros Hs; [reflexivity|].
  simpl in Hs. apply andb_true_iff in Hs as [Hc Hs].
  cbn [Py.lower is_ascii]. now rewrite (is_ascii_lower_char c Hc), IH.
Qed.

Lemma in_comma_set (f : string -> string) (s x : string) :
  x ∈ comma_set f s
  <-> exists e, In e (Py.split "," s) /\ Py.strip e <> EmptyString /\ x = f (Py.strip e).
Proof.
  unfold comma_set. rewrite elem_of_list_to_set, list_elem_of_In, in_map_iff. split.
  - intros (e & <- & He). apply filter_In in He as [He Hne].
    apply negb_true_iff, bool_decide_eq_false in Hne. now exists e.
  - intros (e & He & Hne & ->). exists e. split; [reflexivity|].
    apply filter_In. split; [exact He|].
    now apply negb_true_iff, bool_decide_eq_false.
Qed.

(** For options and names of ASCII characters (on which [strip] and [lower]
    are Python's): the extensions that [main] makes of [--include-ext] and
    the names it makes of [--exclude-dirs] are ASCII strings and never
    empty, and [lower] leaves each extension as it is; so a file without a
    suffix is never selected, whatever the option says: it gets neither into
    the tree nor into the file list. *)
Theorem extensionless_never_selected (a : args) (fs : node) :
  is_ascii (include_ext a) = true ->
  is_ascii (exclude_dirs_arg a) = true ->
  ascii_names fs = true ->
  (EmptyString ∉ include_exts_of a)
  /\ (EmptyString ∉ exclude_dirs_of a)
  /\ (forall ext, ext ∈ include_exts_of a -> is_ascii ext = true /\ Py.lower ext = ext)
  /\ (forall d, d ∈ exclude_dirs_of a -> is_ascii d = true)
  /\ (forall p, In p (tree_files fs (include_exts_of a) (exclude_dirs_of a)) ->
                Py.suffix (List.last p EmptyString) <> EmptyString)
  /\ (forall p, In p (collect_files fs (include_exts_of a) (exclude_dirs_of a)
                                    (max_file_size_kb a)) ->
                Py.suffix (List.last p EmptyString) <> EmptyString).
Proof.
  intros Hia Hea _.
  assert (Hinc : EmptyString ∉ include_exts_of a).
  { unfold include_exts_of. rewrite in_comma_set. intros (e & _ & Hne & E).
    symmetry in E. now apply lower_empty in E. }
  assert (Htree : forall p,
            In p (tree_files fs (include_exts_of a) (exclude_dirs_of a)) ->
            Py.suffix (List.last p EmptyString) <> EmptyString).
  { intros p Hp. apply in_tree_files in Hp as (w & filename & _ & _ & Hext & ->).
    rewrite last_last. intros E. rewrite E in Hext. now apply Hinc. }
  split; [exact Hinc|]. split; [|split; [|split; [|split]]].
  - unfold exclude_dirs_of. rewrite in_comma_set. intros (e & _ & Hne & E).
    now symmetry in E.
  - intros ext Hext. unfold include_exts_of in Hext.
    apply in_comma_set in Hext as (e & He & _ & ->). split; [|apply lower_idem].
    apply is_ascii_lower, is_ascii_rstrip, is_ascii_lstrip.
    pose proof (is_ascii_split "," _ Hia) as Hall.
    rewrite List.Forall_forall in Hall. now apply Hall.
  - intros d Hd. unfold exclude_dirs_of in Hd.
    apply in_comma_set in Hd as (e & He & _ & ->).
    apply is_ascii_rstrip, is_ascii_lstrip.
    pose proof (is_ascii_split "," _ Hea) as Hall.
    rewrite List.Forall_forall in Hall. now apply Hall.
  - exact Htree.
  - intros p Hp. apply in_collect_files in Hp as (w & filename & _ & _ & -> & Hkeep).
    apply collect_keep_spec in Hkeep as [Hext _]. rewrite last_last in *.
    intros E. rewrite E in Hext. now apply Hinc.
Qed.

(** The default options on [repo_nested]. *)
Lemma extensionless_never_selected_witness :
  (EmptyString ∉ include_exts_of (parse_args_defaults "/r"))
  /\ (EmptyString ∉ exclude_dirs_of (parse_args_defaults "/r"))
  /\ (forall ext, ext ∈ include_exts_of (parse_args_defaults "/r") ->
                  is_ascii ext = true /\ Py.lower ext = ext)
  /\ (forall d, d ∈ exclude_dirs_of (parse_args_defaults "/r") -> is_ascii d = true)
  /\ (forall p, In p (tree_files repo_nested (include_exts_of (parse_args_defaults "/r"))
                                 (exclude_dirs_of (parse_args_defaults "/r"))) ->
                Py.suffix (List.last p EmptyString) <> EmptyString)
  /\ (forall p, In p (collect_files repo_nested (include_exts_of (parse_args_defaults "/r"))
                                    (exclude_dirs_of (parse_args_defaults "/r"))
                                    (max_file_size_kb (parse_args_defaults "/r"))) ->
                Py.suffix (List.last p EmptyString) <> EmptyString).
Proof.
  apply (extensionless_never_selected (parse_args_defaults "/r") repo_nested);
    vm_compute; reflexivity.
Defined.

(** ** The file list and the tree *)

Lemma in_insert_sorted {A} (key : A -> string) (x y : A) (l : list A) :
  In x (Py.insert_sorted key y l) <-> x = y \/ In x l.
Proof.
  induction l as [|z l IH]; simpl; [intuition congruence|].
  destruct (String.ltb (key y) (key z)); simpl; [intuition congruence|].
  rewrite IH. intuition congruence.
Qed.

Lemma in_sorted (x : string) (l : list string) : In x (Py.sorted l) <-> In x l.
Proof.
  unfold Py.sorted, Py.sorted_by. induction l as [|y l IH]; simpl; [tauto|].
  rewrite in_insert_sorted, IH. intuition congruence.
Qed.

Lemma find_by_name (entries : list node) (c : node) :
  NoDup (map node_name entries) -> In c entries ->
  List.find (fun c' => bool_decide (node_name c' = node_name c)) entries = Some c.
Proof.
  induction entries as [|d entries IH]; intros Hnd Hc; [contradiction|].
  simpl in Hnd. apply NoDup_cons in Hnd as [Hd Hnd]. simpl.
  destruct Hc as [->|Hc].
  - now rewrite bool_decide_eq_true_2.
  - case_bool_decide as E; [|now apply IH].
    exfalso. apply Hd. rewrite E. apply list_elem_of_In, in_map. exact Hc.
Qed.

Lemma find_node_app (segs q : path) (n : node) :
  find_node (segs ++ q) n
  = match find_node segs n with
    | Some m => find_node q m
    | None => None
    end.
Proof.
  revert n. induction segs as [|s segs IH]; intros n; [reflexivity|].
  simpl. destruct n as [name sz txt|name entries]; [reflexivity|].
  destruct (List.find _ entries); [apply IH | reflexivity].
Qed.

Lemma wf_entries (name : string) (entries : list node) :
  wf (Dir name entries) = true ->
  NoDup (map node_name entries) /\ forall c, In c entries -> wf c = true.
Proof.
  simpl. intros H. apply andb_true_iff in H as [Hnd Hall].
  apply bool_decide_eq_true in Hnd. rewrite forallb_forall in Hall. now split.
Qed.

(** The directories that [os.walk] reports are the directories of the tree
    that are reached through directories that are not excluded. *)
Lemma in_walk_iff (exclude_dirs : gset string) (n : node) :
  wf n = true ->
  forall top w,
    In w (walk exclude_dirs top n)
    <-> exists segs name entries,
          find_node segs n = Some (Dir name entries)
          /\ Forall (fun d => d ∉ exclude_dirs) segs
          /\ w = Walked (top ++ segs)
                        (prune exclude_dirs (map node_name (List.filter is_dir entries)))
                        (map node_name (List.filter (fun c => negb (is_dir c)) entries)).
Proof.
  induction n as [name sz txt|name entries IH] using node_ind_nested; intros Hwf top w.
  - simpl. split; [contradiction|].
    intros (segs & name' & entries' & Hfind & _).
    destruct segs; simpl in Hfind; discriminate.
  - destruct (wf_entries _ _ Hwf) as [Hnd Hall]. rewrite Forall_forall in IH.
    cbn [walk]. split.
    + intros [<-|Hw].
      * exists [], name, entries. rewrite app_nil_r. repeat split. constructor.
      * apply in_flat_map in Hw as (c & Hc & Hw).
        destruct (is_dir c && bool_decide (node_name c ∉ exclude_dirs)) eqn:Hok;
          [|contradiction].
        apply andb_true_iff in Hok as [_ Hex]. apply bool_decide_eq_true in Hex.
        apply (IH c (proj2 (list_elem_of_In _ _) Hc) (Hall c Hc)) in Hw
          as (segs & name' & entries' & Hfind & Hsegs & ->).
        exists (node_name c :: segs), name', entries'. repeat split.
        -- simpl. now rewrite (find_by_name entries c Hnd Hc).
        -- now constructor.
        -- now rewrite <- app_assoc.
    + intros (segs & name' & entries' & Hfind & Hsegs & ->).
      destruct segs as [|s segs].
      * simpl in Hfind. injection Hfind as <- <-. left. now rewrite app_nil_r.
      * right. simpl in Hfind.
        destruct (List.find _ entries) as [c|] eqn:Hc; [|discriminate].
        apply find_some in Hc as [Hc Hname]. apply bool_decide_eq_true in Hname.
        apply Forall_cons in Hsegs as [Hs Hsegs].
        apply in_flat_map. exists c. split; [exact Hc|].
        assert (Hdir : is_dir c = true).
        { destruct c as [cn csz ctxt|cn ces]; [|reflexivity].
          destruct segs; simpl in Hfind; discriminate. }
        rewrite Hdir, Hname, bool_decide_eq_true_2 by exact Hs. cbn [andb].
        apply (IH c (proj2 (list_elem_of_In _ _) Hc) (Hall c Hc)).
        exists segs, name', entries'. repeat split; try assumption.
        now rewrite <- app_assoc.
Qed.

(** In a tree whose directories have no two entries of one name, and whose
    names are of ASCII characters (on which [lower] is Python's), the file
    list holds exactly the files of the tree that are reached through
    directories that are not excluded, have a selected extension, and have a
    size that [stat] can tell and that, in kilobytes as a float, is not
    greater than the ceiling; below 2^53 bytes that is
    [st_size <= 1024 * max_size_kb]. *)
Theorem file_list_is_filtered_tree (root : node)
    (include_exts exclude_dirs : gset string) (max_size_kb : Z) :
  wf root = true ->
  ascii_names root = true ->
  (forall p,
     In p (collect_files root include_exts exclude_dirs max_size_kb)
     <-> exists name st_size txt,
           find_node p root = Some (File name (Some st_size) txt)
           /\ p <> []
           /\ Forall (fun d => d ∉ exclude_dirs) (removelast p)
           /\ Py.lower (Py.suffix (List.last p EmptyString)) ∈ include_exts
           /\ over_ceiling st_size max_size_kb = false)
  /\ (forall st_size,
        (0 <= st_size < 2 ^ 53)%Z ->
        over_ceiling st_size max_size_kb = false <-> (st_size <= 1024 * max_size_kb)%Z).
Proof.
  intros Hwf _. split; [|intros st_size Hsz; apply over_ceiling_exact; lia].
  intros p. rewrite in_collect_files. split.
  - intros (w & filename & Hw & Hf & -> & Hkeep).
    apply (in_walk_iff exclude_dirs root Hwf) in Hw
      as (segs & dname & entries & Hfind & Hsegs & ->).
    cbn [dirpath filenames app] in *.
    apply in_sorted, in_map_iff in Hf as (c & <- & Hc).
    apply filter_In in Hc as [Hc Hfile].
    assert (Hwfd : wf (Dir dname entries) = true).
    { clear - Hwf Hfind. revert root Hwf Hfind.
      induction segs as [|s segs IH]; intros root Hwf Hfind.
      - simpl in Hfind. now injection Hfind as <-.
      - destruct root as [rn rs rt|rn res]; [discriminate|]. simpl in Hfind.
        destruct (List.find _ res) as [c'|] eqn:Hc'; [|discriminate].
        apply find_some in Hc' as [Hc' _].
        apply (IH c'); [|exact Hfind]. now apply (wf_entries _ _ Hwf). }
    destruct (wf_entries _ _ Hwfd) as [Hnd _].
    assert (Hnode : find_node (segs ++ [node_name c]) root = Some c).
    { rewrite find_node_app, Hfind. simpl. now rewrite (find_by_name entries c Hnd Hc). }
    apply collect_keep_spec in Hkeep as (Hext & sz & Hstat & Hsz).
    unfold stat in Hstat. rewrite Hnode in Hstat.
    destruct c as [cn csz ctxt|cn ces]; [|discriminate]. simpl in Hstat. subst csz.
    exists cn, sz, ctxt. rewrite removelast_last.
    split; [exact Hnode|]. split; [intros E; now destruct segs|].
    split; [exact Hsegs|]. split; [exact Hext | exact Hsz].
  - intros (name & sz & txt & Hnode & Hne & Hsegs & Hext & Hsz).
    destruct (exists_last Hne) as (segs & f & ->).
    rewrite removelast_last in Hsegs. rewrite find_node_app in Hnode.
    destruct (find_node segs root) as [m|] eqn:Hm; [|discriminate].
    destruct m as [mn ms mt|dname entries]; [discriminate|]. simpl in Hnode.
    destruct (List.find _ entries) as [c|] eqn:Hc; [|discriminate].
    injection Hnode as ->. apply find_some in Hc as [Hc Hname].
    apply bool_decide_eq_true in Hname. simpl in Hname. subst name.
    exists (Walked segs
                   (prune exclude_dirs (map node_name (List.filter is_dir entries)))
                   (map node_name (List.filter (fun c => negb (is_dir c)) entries))), f.
    repeat split.
    + apply (in_walk_iff exclude_dirs root Hwf). now exists segs, dname, entries.
    + apply in_sorted, in_map_iff. exists (File f (Some sz) txt).
      split; [reflexivity|]. apply filter_In. now split.
    + apply collect_keep_spec. split; [exact Hext|]. exists sz. split; [|exact Hsz].
      unfold stat. rewrite find_node_app, Hm. simpl.
      destruct (List.find _ entries) as [c'|] eqn:Hc'.
      * apply find_some in Hc' as [Hc' Hname']. apply bool_decide_eq_true in Hname'.
        assert (Hwfd : wf (Dir dname entries) = true).
        { clear - Hwf Hm. revert root Hwf Hm.
          induction segs as [|s segs IH]; intros root Hwf Hm.
          - simpl in Hm. now injection Hm as <-.
          - destruct root as [rn rs rt|rn res]; [discriminate|]. simpl in Hm.
            destruct (List.find _ res) as [c''|] eqn:Hc''; [|discriminate].
            apply find_some in Hc'' as [Hc'' _].
            apply (IH c''); [|exact Hm]. now apply (wf_entries _ _ Hwf). }
        destruct (wf_entries _ _ Hwfd) as [Hnd _].
        pose proof (find_by_name entries _ Hnd Hc) as H1.
        pose proof (find_by_name entries _ Hnd Hc') as H2.
        simpl in H1. rewrite Hname' in H2. rewrite H1 in H2. now injection H2 as <-.
      * pose proof (find_none _ _ Hc' _ Hc) as Hn. simpl in Hn.
        now rewrite bool_decide_eq_true_2 in Hn.
Qed.

(** The files of [repo_nested]: those under [vendor] are left out, as are
    the one over the ceiling and the one whose size cannot be read. *)
Lemma file_list_is_filtered_tree_witness :
  In ["a"; "b"; "t.go"]%string
     (collect_files repo_nested (list_to_set DEFAULT_EXTS) DEFAULT_EXCLUDE_DIRS 512).
Proof.
  apply (proj1 (file_list_is_filtered_tree repo_nested (list_to_set DEFAULT_EXTS)
                  DEFAULT_EXCLUDE_DIRS 512 eq_refl eq_refl)).
  exists "t.go"%string, 1%Z, (Some "package t"%string).
  split; [reflexivity|]. split; [discriminate|]. split; [|split; vm_compute; reflexivity].
  simpl removelast.
  apply List.Forall_forall. intros d Hd.
  destruct Hd as [<-|[<-|[]]]; apply (bool_decide_unpack _); vm_compute; exact I.
Defined.

(** ** Every file once *)

Lemma find_node_wf (segs : path) :
  forall root m, wf root = true -> find_node segs root = Some m -> wf m = true.
Proof.
  induction segs as [|s segs IH]; intros root m Hwf Hm.
  - simpl in Hm. now injection Hm as <-.
  - destruct root as [rn rs rt|rn res]; [discriminate|]. simpl in Hm.
    destruct (List.find _ res) as [c|] eqn:Hc; [|discriminate].
    apply find_some in Hc as [Hc _].
    apply (IH c); [|exact Hm]. now apply (wf_entries _ _ Hwf).
Qed.

Lemma NoDup_insert_sorted {A} (key : A -> string) (x : A) (l : list A) :
  ~ In x l -> NoDup l -> NoDup (Py.insert_sorted key x l).
Proof.
  induction l as [|y l IH]; intros Hx Hl; simpl.
  - constructor; [intros H; now apply elem_of_nil in H | constructor].
  - destruct (String.ltb (key x) (key y)).
    + constructor; [now rewrite list_elem_of_In | exact Hl].
    + apply NoDup_cons in Hl as [Hy Hl]. constructor.
      * rewrite list_elem_of_In, in_insert_sorted. intros [->|H].
        -- apply Hx. now left.
        -- apply Hy. now apply list_elem_of_In.
      * apply IH; [|exact Hl]. intros H. apply Hx. now right.
Qed.

Lemma NoDup_sorted (l : list string) : NoDup l -> NoDup (Py.sorted l).
Proof.
  unfold Py.sorted, Py.sorted_by. induction l as [|x l IH]; intros Hl; simpl.
  - constructor.
  - apply NoDup_cons in Hl as [Hx Hl]. apply NoDup_insert_sorted; [|now apply IH].
    intros H. apply Hx. apply list_elem_of_In. now apply (in_sorted x l).
Qed.

Lemma NoDup_names_filter (f : node -> bool) (entries : list node) :
  NoDup (map node_name entries) -> NoDup (map node_name (List.filter f entries)).
Proof.
  induction entries as [|c entries IH]; intros Hnd; simpl; [constructor|].
  simpl in Hnd. apply NoDup_cons in Hnd as [Hc Hnd].
  destruct (f c); [|now apply IH]. simpl. constructor; [|now apply IH].
  intros H. apply Hc. apply list_elem_of_In, in_map_iff in H as (d & E & Hd).
  apply filter_In in Hd as [Hd _]. apply list_elem_of_In, in_map_iff. now exists d.
Qed.

Lemma NoDup_list_filter {A} (f : A -> bool) (l : list A) :
  NoDup l -> NoDup (List.filter f l).
Proof.
  induction l as [|x l IH]; intros Hl; simpl; [constructor|].
  apply NoDup_cons in Hl as [Hx Hl]. destruct (f x); [|now apply IH].
  constructor; [|now apply IH].
  intros H. apply Hx. apply list_elem_of_In in H. apply filter_In in H as [H _].
  now apply list_elem_of_In.
Qed.

(** Lists that come one for each of distinct keys, and without doubles each,
    have no doubles together. *)
Lemma NoDup_flat_map_key {W X K} (F : W -> list X) (g : W -> K) (key : X -> K)
    (ws : list W) :
  (forall w x, In x (F w) -> key x = g w) ->
  NoDup (map g ws) ->
  (forall w, In w ws -> NoDup (F w)) ->
  NoDup (flat_map F ws).
Proof.
  intros Hkey. induction ws as [|w ws IH]; intros Hg HF; simpl; [constructor|].
  simpl in Hg. apply NoDup_cons in Hg as [Hw Hg].
  apply NoDup_app. repeat split.
  - apply HF. now left.
  - intros x Hx Hx'. apply list_elem_of_In in Hx, Hx'.
    apply in_flat_map in Hx' as (w' & Hw' & Hx').
    apply Hw. rewrite <- (Hkey _ _ Hx), (Hkey _ _ Hx').
    apply list_elem_of_In, in_map. exact Hw'.
  - apply IH; [exact Hg|]. intros w' Hw'. apply HF. now right.
Qed.

(** [os.walk] reports no directory twice. *)
Lemma walk_dirpaths_NoDup (exclude_dirs : gset string) (n : node) :
  wf n = true -> forall top, NoDup (map dirpath (walk exclude_dirs top n)).
Proof.
  induction n as [name sz txt|name entries IH] using node_ind_nested; intros Hwf top.
  - constructor.
  - destruct (wf_entries _ _ Hwf) as [Hnd Hall]. rewrite Forall_forall in IH.
    cbn [walk map dirpath].
    assert (Hbelow : forall c x,
              In x (map dirpath
                      (if is_dir c && bool_decide (node_name c ∉ exclude_dirs)
                       then walk exclude_dirs (top ++ [node_name c]) c else [])) ->
              exists r, x = top ++ node_name c :: r).
    { intros c x Hx. destruct (_ && _); [|contradiction].
      apply in_map_iff in Hx as (w & <- & Hw).
      destruct (walk_dirpath _ _ _ _ Hw) as (segs & -> & _).
      exists segs. now rewrite <- app_assoc. }
    constructor.
    + rewrite list_elem_of_In, in_map_iff. intros (w & Hd & Hw).
      apply in_flat_map in Hw as (c & Hc & Hw).
      destruct (Hbelow c (dirpath w) (in_map _ _ _ Hw)) as [r Hr].
      rewrite Hd in Hr. apply (f_equal (@length string)) in Hr.
      rewrite length_app in Hr. simpl in Hr. lia.
    + clear Hwf. induction entries as [|c entries IHe]; [constructor|].
      simpl in Hnd. apply NoDup_cons in Hnd as [Hc Hnd].
      cbn [flat_map]. rewrite List.map_app. apply NoDup_app. repeat split.
      * destruct (_ && _); [|constructor].
        apply IH; [left | apply Hall; now left].
      * intros x Hx Hx'. apply list_elem_of_In in Hx, Hx'.
        destruct (Hbelow c x Hx) as [r ->].
        apply in_map_iff in Hx' as (w & Hd & Hw).
        apply in_flat_map in Hw as (c' & Hc' & Hw).
        destruct (Hbelow c' (dirpath w) (in_map _ _ _ Hw)) as [r' Hr'].
        rewrite Hd in Hr'. apply app_inv_head in Hr'. injection Hr' as E _.
        apply Hc. rewrite E. apply list_elem_of_In, in_map. exact Hc'.
      * apply IHe; [| exact Hnd |].
        -- intros c' Hc'. apply IH. now right.
        -- intros c' Hc'. apply Hall. now right.
Qed.

(** In a tree whose directories have no two entries of one name, no file
    is twice in the file list, nor twice in the tree. *)
Theorem file_list_has_no_doubles (root : node)
    (include_exts exclude_dirs : gset string) (max_size_kb : Z) :
  wf root = true ->
  NoDup (collect_files root include_exts exclude_dirs max_size_kb)
  /\ NoDup (tree_files root include_exts exclude_dirs).
Proof.
  intros Hwf.
  assert (Hnames : forall w, In w (walk exclude_dirs [] root) ->
                             NoDup (Py.sorted (filenames w))).
  { intros w Hw. apply NoDup_sorted.
    apply (in_walk_iff exclude_dirs root Hwf) in Hw
      as (segs & dname & entries & Hfind & _ & ->).
    cbn [filenames]. apply NoDup_names_filter.
    now apply (wf_entries dname), (find_node_wf segs root). }
  assert (Hpaths : forall w, In w (walk exclude_dirs [] root) ->
                             NoDup (map (fun filename => dirpath w ++ [filename])
                                        (Py.sorted (filenames w)))).
  { intros w Hw. apply NoDup_fmap_2; [|now apply Hnames].
    intros x y E. apply app_inv_head in E. now injection E. }
  split.
  - unfold collect_files.
    apply (NoDup_flat_map_key _ dirpath (@removelast string)).
    + intros w x Hx. apply filter_In in Hx as [Hx _].
      apply in_map_iff in Hx as (filename & <- & _). apply removelast_last.
    + now apply walk_dirpaths_NoDup.
    + intros w Hw. apply NoDup_list_filter. now apply Hpaths.
  - unfold tree_files, tree_listed.
    apply (NoDup_flat_map_key _ dirpath (@removelast string)).
    + intros w x Hx. apply in_map_iff in Hx as (filename & <- & _).
      apply removelast_last.
    + now apply walk_dirpaths_NoDup.
    + intros w Hw. apply NoDup_fmap_2.
      * intros x y E. apply app_inv_head in E. now injection E.
      * apply NoDup_list_filter. now apply Hnames.
Qed.

(** The files of [repo_nested] come once each. *)
Lemma file_list_has_no_doubles_witness :
  NoDup (collect_files repo_nested (list_to_set DEFAULT_EXTS) DEFAULT_EXCLUDE_DIRS 512).
Proof.
  apply (file_list_has_no_doubles repo_nested (list_to_set DEFAULT_EXTS)
           DEFAULT_EXCLUDE_DIRS 512).
  vm_compute. reflexivity.
Defined.

(** ** The code block of a file *)

Section CountFacts.

Variable d : ascii.

Lemma count_split (sep : ascii) (s : string) :
  d = sep \/ Py.count d s = 0 ->
  Forall (fun x => Py.count d x = 0) (Py.split sep s).
Proof.
  induction s as [|c s IH]; intros Hd; simpl.
  - repeat constructor.
  - assert (Hd' : d = sep \/ Py.count d s = 0).
    { destruct Hd as [Hd|Hd]; [now left | right]. simpl in Hd. lia. }
    specialize (IH Hd'). case_bool_decide as Hc.
    + constructor; [reflexivity | exact IH].
    + destruct (Py.split sep s) as [|l ls]; [repeat constructor; simpl|].
      * destruct Hd as [->|Hd]; [|simpl in Hd; lia].
        rewrite bool_decide_eq_false_2 by exact Hc. reflexivity.
      * apply Forall_cons in IH as [Hl Hls]. constructor; [|exact Hls].
        simpl. rewrite Hl. destruct Hd as [->|Hd]; [|simpl in Hd; lia].
        rewrite bool_decide_eq_false_2 by exact Hc. reflexivity.
Qed.

Lemma count_join (sep : string) (l : list string) :
  Forall (fun x => Py.count d x = 0) l ->
  Py.count d (Py.join sep l) = (length l - 1) * Py.count d sep.
Proof.
  unfold Py.join. induction 1 as [|x l Hx Hl IH]; [reflexivity|].
  destruct l as [|y l]; [simpl; lia|].
  change (String.concat sep (x :: y :: l))
    with (x +:+ sep +:+ String.concat sep (y :: l)).
  rewrite !count_append, IH, Hx. simpl. lia.
Qed.

Hypothesis no_digit : Py.count d "0123456789 " = 0.

Lemma count_string_of_uint (u : Decimal.uint) :
  Py.count d (NilEmpty.string_of_uint u) = 0.
Proof.
  simpl in no_digit.
  induction u; simpl; [reflexivity | ..]; rewrite IHu;
    repeat case_bool_decide; subst; simpl in *; lia.
Qed.

Lemma count_repeat_space (n : nat) : Py.count d (Py.repeat_str " " n) = 0.
Proof.
  simpl in no_digit.
  induction n as [|n IH]; [reflexivity|].
  cbn [Py.repeat_str]. rewrite count_append, IH. simpl.
  repeat case_bool_decide; subst; simpl in *; lia.
Qed.

Lemma count_add_line_numbers (lines : list string) :
  Forall (fun x => Py.count d x = 0) lines ->
  Forall (fun x => Py.count d x = 0) (add_line_numbers lines).
Proof.
  unfold add_line_numbers. generalize (String.length (Py.str (length lines))) as width.
  intros width Hl. apply Forall_lookup_2. intros i x Hx.
  rewrite list_lookup_imap in Hx.
  destruct (lines !! i) as [line|] eqn:Hi; [|discriminate]. injection Hx as <-.
  unfold Py.rjust, Py.str. rewrite !count_append.
  rewrite count_repeat_space, count_string_of_uint.
  rewrite (proj1 (Forall_lookup _ _) Hl i line Hi).
  simpl in no_digit. simpl. repeat case_bool_decide; subst; simpl in *; lia.
Qed.

End CountFacts.

Lemma count_escape_tab (s : string) : Py.count tab (Py.escape s) = Py.count tab s.
Proof. unfold Py.escape. rewrite !count_replace. simpl. lia. Qed.

Lemma count_escape_newline (s : string) : Py.count "010" (Py.escape s) = Py.count "010" s.
Proof. unfold Py.escape. rewrite !count_replace. simpl. lia. Qed.

Lemma Forall_map_escape (d : ascii) (l : list string) :
  (forall s, Py.count d (Py.escape s) = Py.count d s) ->
  Forall (fun x => Py.count d x = 0) l ->
  Forall (fun x => Py.count d x = 0) (map Py.escape l).
Proof.
  intros He. induction 1 as [|x l Hx Hl IH]; simpl; constructor; [|exact IH].
  now rewrite He.
Qed.

(** The text of a block made without colours. *)
Lemma plain_block_text (ln : bool) (text : string) :
  let lines := map Py.escape (Py.split "010" (Py.replace tab "    " text)) in
  let joined := Py.join newline (if ln then add_line_numbers lines else lines) in
  Py.count tab joined = 0 /\ Py.count "010" joined = Py.count "010" text.
Proof.
  intros lines joined.
  assert (Htab : Forall (fun x => Py.count tab x = 0) lines).
  { apply Forall_map_escape; [apply count_escape_tab|].
    apply count_split. right. rewrite count_replace.
    rewrite bool_decide_eq_true_2 by reflexivity.
    change (Py.count tab "    ") with 0. lia. }
  assert (Hnl : Forall (fun x => Py.count "010" x = 0) lines).
  { apply Forall_map_escape; [apply count_escape_newline|].
    apply count_split. now left. }
  assert (Hlen : length (if ln then add_line_numbers lines else lines)
                 = S (Py.count "010" text)).
  { assert (length lines = S (Py.count "010" text)) as Hl.
    { unfold lines. rewrite length_map, length_split, count_replace. simpl. lia. }
    destruct ln; [|exact Hl]. unfold add_line_numbers. now rewrite length_imap. }
  split; unfold joined; rewrite count_join.
  - simpl. lia.
  - destruct ln; [|exact Htab]. now apply count_add_line_numbers.
  - rewrite Hlen. simpl. lia.
  - destruct ln; [|exact Hnl]. now apply count_add_line_numbers.
Qed.

(** Without colours (highlighting off, or pygments missing) the code block
    of a file holds no tab, and it has the lines of the text that was read:
    neither the escaping nor the line numbers add or join lines. *)
Theorem plain_block_keeps_lines (pyg : option pygments) (repo_root : string)
    (fs : node) (highlight show_line_numbers : bool) (rel : path) :
  let off := flowable_text (file_block pyg repo_root fs false show_line_numbers rel) in
  let missing := flowable_text (file_block None repo_root fs highlight show_line_numbers rel) in
  Py.count tab off = 0
  /\ Py.count "010" off = Py.count "010" (text_shown fs rel)
  /\ Py.count tab missing = 0
  /\ Py.count "010" missing = Py.count "010" (text_shown fs rel).
Proof.
  cbv zeta. unfold file_block. fold (text_shown fs rel).
  destruct (plain_block_text show_line_numbers (text_shown fs rel)) as [Ht Hn].
  cbv zeta in Ht, Hn.
  assert (Hnone : forall f, build_code_lines None (Py.replace tab "    " (text_shown fs rel))
                              f highlight
                  = map Py.escape (Py.split "010" (Py.replace tab "    " (text_shown fs rel))))
    by (intros f; now destruct highlight).
  rewrite Hnone.
  change (build_code_lines pyg (Py.replace tab "    " (text_shown fs rel))
            (repo_root +:+ "/" +:+ Py.join "/" rel) false)
    with (map Py.escape (Py.split "010" (Py.replace tab "    " (text_shown fs rel)))).
  repeat split; try assumption; destruct highlight; assumption.
Qed.

(** A file that cannot be read stops nothing: its block is the one line of
    the note, numbered [1] when lines are numbered. *)
Theorem unreadable_file_block (pyg : option pygments) (repo_root : string)
    (fs : node) (show_line_numbers : bool) (rel : path) :
  read_text fs rel = None ->
  file_block pyg repo_root fs false show_line_numbers rel
  = Preformatted (if show_line_numbers then "1  [Error reading file]"
                  else "[Error reading file]") "CodeBlock"
  /\ forall highlight,
       file_block None repo_root fs highlight show_line_numbers rel
       = (if highlight then XPreformatted else Preformatted)
           (if show_line_numbers then "1  [Error reading file]"
            else "[Error reading file]") "CodeBlock".
Proof.
  intros Hread. unfold file_block. rewrite Hread. split.
  - now destruct show_line_numbers.
  - intros highlight. now destruct highlight, show_line_numbers.
Qed.

Lemma unreadable_file_block_witness :
  file_block None "/src/proj" repo_unreadable false true ["locked.py"]
  = Preformatted "1  [Error reading file]" "CodeBlock".
Proof.
  apply (unreadable_file_block None "/src/proj" repo_unreadable true ["locked.py"]).
  reflexivity.
Defined.

Section StoryOrder.

Variable pyg : option pygments.
Variable repo_root : string.
Variable fs : node.
Variables highlight show_line_numbers : bool.

Local Abbreviation step := (file_step pyg repo_root fs highlight show_line_numbers).
Local Abbreviation other := (fun f => negb (is_paragraph f)).

Lemma per_file_others (files : list path) (c : list string) :
  List.filter other (story (foldl step (Assembly c []) files))
  = flat_map (fun rel => [file_block pyg repo_root fs highlight show_line_numbers rel;
                          PageBreak]) files.
Proof.
  revert c. induction files as [|rel files IH]; intros c; cbn [foldl]; [reflexivity|].
  rewrite file_step_spec, file_loop_appends. cbn [current_dir_parts story].
  rewrite app_nil_l, !List.filter_app, IH. cbn [flat_map].
  assert (Hdirs : forall ds, List.filter other (map dir_heading ds) = []).
  { induction ds as [|x ds IHd]; [reflexivity|]. simpl. exact IHd. }
  rewrite Hdirs. cbn [List.filter app].
  destruct (file_heading_is_heading rel) as [_ ->].
  destruct (file_block_not_heading pyg repo_root fs highlight show_line_numbers rel)
    as [_ ->].
  reflexivity.
Qed.

End StoryOrder.

(** The headings apart, the story is the front matter and then, for every
    file of the list in its turn, the block of the file and a page break:
    no file is left out, doubled or moved. *)
Theorem story_follows_file_list (pyg : option pygments) (repo_root : string)
    (fs : node) (now : string) (files : list path) (tree_text source_label : string)
    (highlight show_line_numbers : bool) :
  List.filter (fun f => negb (is_paragraph f))
              (generate_pdf_story pyg repo_root fs now files tree_text source_label
                                  highlight show_line_numbers)
  = [ Spacer 1 12; Preformatted tree_text "CodeBlock"; PageBreak;
      TableOfContents; PageBreak ]
    ++ flat_map (fun rel => [file_block pyg repo_root fs highlight show_line_numbers rel;
                             PageBreak]) files.
Proof.
  rewrite generate_pdf_story_split, List.filter_app. f_equal.
  apply per_file_others.
Qed.

(** ** The lines of the tree *)









